(** * Acoustic word embedding recipe: the glue scripts and test references

    A verification development for the Python sources

    - [features/fbank/get_segments_scp.py]  (segment list and SCP writer),
    - [embeddings/link_xitsonga_mfcc.py]    (symlink set-up),
    - [embeddings/train_siamese.py]         (Siamese graph and training),
    - [src/test_tflego.py]                  (NumPy reference functions).

    The sources are Python 2 ([xrange], [cPickle], [print_function] from
    [__future__]); the Python builtins they call are modelled here with
    their Python 2 behaviour. *)

From Stdlib Require Import ZArith Floats Ascii String.
From stdpp Require Import gmap strings list fin_maps sorting.

#[local] Set Warnings "-inexact-float,-register-all".

Local Open Scope string_scope.
Local Open Scope list_scope.
Local Open Scope Z_scope.

(** ** Python strings, numbers and paths *)

Module Py.

(** The whitespace of [str.strip()] and [str.split()] without arguments:
    space, tab, newline, vertical tab, form feed and carriage return. *)
Definition is_space (c : ascii) : bool :=
  let n := nat_of_ascii c in
  (Nat.eqb n 32 || (Nat.leb 9 n && Nat.leb n 13))%bool.

Fixpoint lstrip (s : string) : string :=
  match s with
  | EmptyString => EmptyString
  | String c s' => if is_space c then lstrip s' else s
  end.

Fixpoint rstrip (s : string) : string :=
  match s with
  | EmptyString => EmptyString
  | String c s' =>
      match rstrip s' with
      | EmptyString => if is_space c then EmptyString else String c EmptyString
      | r => String c r
      end
  end.

Definition strip (s : string) : string := rstrip (lstrip s).

(** [s.split()]: the maximal runs of non-whitespace characters. [cur] is the
    field being read, in reverse. *)
Fixpoint split_from (cur : list ascii) (s : string) : list string :=
  match s with
  | EmptyString =>
      match cur with
      | [] => []
      | _ => [string_of_list_ascii (rev cur)]
      end
  | String c s' =>
      if is_space c then
        match cur with
        | [] => split_from [] s'
        | _ => string_of_list_ascii (rev cur) :: split_from [] s'
        end
      else split_from (c :: cur) s'
  end.

Definition split (s : string) : list string := split_from [] s.

(** [s.replace(a, b)] for one-character [a] and [b]. *)
Fixpoint replace_char (a b : ascii) (s : string) : string :=
  match s with
  | EmptyString => EmptyString
  | String c s' =>
      String (if Ascii.eqb c a then b else c) (replace_char a b s')
  end.

Definition startswith_slash (s : string) : bool :=
  match s with
  | String c _ => Ascii.eqb c "/"
  | EmptyString => false
  end.

Fixpoint endswith_slash (s : string) : bool :=
  match s with
  | EmptyString => false
  | String c EmptyString => Ascii.eqb c "/"
  | String _ s' => endswith_slash s'
  end.

(** [posixpath.join(a, b)]: an absolute [b] discards [a]; otherwise the two
    are joined with exactly one separator between them. *)
Definition path_join (a b : string) : string :=
  if startswith_slash b then b
  else if (String.eqb a "" || endswith_slash a)%bool then a +:+ b
  else a +:+ "/" +:+ b.

(** The tail of [posixpath.split(p)]: what follows the last slash. *)
Fixpoint path_tail (p : string) : string :=
  match p with
  | EmptyString => EmptyString
  | String c p' =>
      if existsb (Ascii.eqb "/") (list_ascii_of_string p') then path_tail p'
      else if Ascii.eqb c "/" then p' else p
  end.

(** The head of [posixpath.split(p)]: what comes before the last slash,
    with that slash, and without the slashes at its end unless it is made
    of slashes only. *)
Fixpoint path_dir (p : string) : string :=
  match p with
  | EmptyString => EmptyString
  | String c p' =>
      if existsb (Ascii.eqb "/") (list_ascii_of_string p') then
        String c (path_dir p')
      else if Ascii.eqb c "/" then String c EmptyString else EmptyString
  end.

Fixpoint rstrip_slash (s : string) : string :=
  match s with
  | EmptyString => EmptyString
  | String c s' =>
      match rstrip_slash s' with
      | EmptyString =>
          if Ascii.eqb c "/" then EmptyString else String c EmptyString
      | r => String c r
      end
  end.

Definition path_head (p : string) : string :=
  let head := path_dir p in
  if forallb (Ascii.eqb "/") (list_ascii_of_string head) then head
  else rstrip_slash head.

(** Decimal digits of a natural number, most significant first. *)
Definition digit (n : N) : ascii := ascii_of_N (48 + n).

Fixpoint digits_fuel (fuel : nat) (n : N) (acc : string) : string :=
  match fuel with
  | O => acc
  | S fuel' =>
      let acc' := String (digit (n mod 10)) acc in
      if (n <? 10)%N then acc' else digits_fuel fuel' (n / 10) acc'
  end.

Definition digits (n : N) : string :=
  digits_fuel (S (N.to_nat (N.log2 n))) n EmptyString.

Fixpoint zeros (k : nat) : string :=
  match k with
  | O => EmptyString
  | S k' => String "0" (zeros k')
  end.

(** [str(z)] for an integer. *)
Definition str_int (z : Z) : string :=
  if z <? 0 then String "-" (digits (Z.abs_N z)) else digits (Z.abs_N z).

(** ["%06d" % z]: zero padding to a field of six characters, the sign
    included in the count; longer numbers are printed in full. *)
Definition fmt_06d (z : Z) : string :=
  let d := digits (Z.abs_N z) in
  if z <? 0 then String "-" (zeros (5 - String.length d) +:+ d)
  else zeros (6 - String.length d) +:+ d.

(** Numbers as the scripts hold them: the integer sentinels and the floats
    that [float()] returns. *)
Inductive num :=
  | Int (z : Z)
  | Float (f : float).

(** Conversion of a (small) integer to the float of the same value; exact
    below 2^53 in magnitude. *)
Definition float_of_Z (z : Z) : float :=
  match z with
  | Z0 => PrimFloat.zero
  | Zpos p => PrimFloat.of_uint63 (Uint63.of_Z (Zpos p))
  | Zneg p => PrimFloat.opp (PrimFloat.of_uint63 (Uint63.of_Z (Zpos p)))
  end.

(** [float(s)] on a plain decimal numeral: an optional sign, digits and at
    most one point, with 1 to 15 digits in all. The digits and the power of
    ten are then exact floats and their quotient is rounded once, which is
    the float nearest to the numeral. Other strings are left out. *)
Fixpoint decimal_digits (s : string) (seen_point : bool) (n : Z)
    (count frac : nat) : option (Z * nat * nat) :=
  match s with
  | EmptyString => Some (n, count, frac)
  | String c s' =>
      if Ascii.eqb c "." then
        if seen_point then None else decimal_digits s' true n count frac
      else
        let k := (Z.of_nat (nat_of_ascii c) - 48)%Z in
        if ((0 <=? k) && (k <=? 9))%bool then
          decimal_digits s' seen_point (10 * n + k) (S count)
            (if seen_point then S frac else frac)
        else None
  end.

Definition float_of_decimal (s : string) : option float :=
  let '(negative, body) :=
    match s with
    | String "-" r => (true, r)
    | String "+" r => (false, r)
    | _ => (false, s)
    end in
  match decimal_digits body false 0 0 0 with
  | Some (n, count, frac) =>
      if (Nat.leb 1 count && Nat.leb count 15)%bool then
        let q :=
          PrimFloat.div (float_of_Z n) (float_of_Z (10 ^ Z.of_nat frac)) in
        Some (if negative then PrimFloat.opp q else q)
      else None
  | None => None
  end.

(** [float(x)] on a number. *)
Definition to_float (x : num) : float :=
  match x with
  | Int z => float_of_Z z
  | Float f => f
  end.

(** [a != b] on numbers (IEEE comparison once both are floats). *)
Definition ne (a b : num) : bool :=
  match a, b with
  | Int x, Int y => negb (x =? y)
  | _, _ => negb (PrimFloat.eqb (to_float a) (to_float b))
  end.

(** [int(round(x))]: Python 2 rounds halves away from zero; [int] of an
    infinity or a NaN raises. *)
Definition int_round (x : float) : option Z :=
  match Prim2SF x with
  | S754_zero _ => Some 0
  | S754_finite s m e =>
      let mag :=
        if 0 <=? e then Zpos m * 2 ^ e
        else
          let d := 2 ^ (- e) in
          let q := Zpos m / d in
          let r := Zpos m mod d in
          if d <=? 2 * r then q + 1 else q in
      Some (if s then - mag else mag)
  | S754_infinity _ | S754_nan => None
  end.

(** [str(x)] for a float: Python 2 prints [%.12g] (twelve significant
    digits of the exact binary value, ties to even, trailing zeros removed)
    and appends [.0] to a result that looks like an integer. *)
Definition pow10 (k : Z) : Z := 10 ^ k.

(** [10^k <= num/den], for positive [num] and [den]. *)
Definition ge_pow10 (num den k : Z) : bool :=
  if 0 <=? k then pow10 k * den <=? num else den <=? num * pow10 (- k).

Fixpoint dec_exp_from (fuel : nat) (num den k : Z) : Z :=
  match fuel with
  | O => k
  | S fuel' =>
      if ge_pow10 num den k then k else dec_exp_from fuel' num den (k - 1)
  end.

(** The decimal exponent [floor (log10 (num/den))], searched downwards from
    an upper estimate taken from the binary logarithms. *)
Definition dec_exp (num den : Z) : Z :=
  let l := Z.log2 num - Z.log2 den in
  dec_exp_from 8 num den ((l + 2) * 30103 / 100000 + 1).

Definition round_half_even (p q : Z) : Z :=
  let d := p / q in
  let r := p mod q in
  if (q <? 2 * r) || ((q =? 2 * r) && Z.odd d) then d + 1 else d.

Fixpoint rstrip_zeros (s : string) : string :=
  match s with
  | EmptyString => EmptyString
  | String c s' =>
      match rstrip_zeros s' with
      | EmptyString => if Ascii.eqb c "0" then EmptyString else String c EmptyString
      | r => String c r
      end
  end.

Definition exp_digits (k : Z) : string :=
  let d := digits (Z.abs_N k) in
  (if k <? 0 then "-" else "+") +:+ zeros (2 - String.length d) +:+ d.

Definition format_g12 (num den : Z) : string :=
  let x0 := dec_exp num den in
  let k := 11 - x0 in
  let n0 :=
    if 0 <=? k then round_half_even (num * pow10 k) den
    else round_half_even num (den * pow10 (- k)) in
  let '(n, x) := if n0 =? pow10 12 then (pow10 11, x0 + 1) else (n0, x0) in
  let d := digits (Z.to_N n) in
  if (x <? -4) || (12 <=? x) then
    let frac := rstrip_zeros (substring 1 11 d) in
    substring 0 1 d +:+
    (if String.eqb frac "" then "" else "." +:+ frac) +:+ "e" +:+ exp_digits x
  else if 0 <=? x then
    let ip := substring 0 (Z.to_nat (x + 1)) d in
    let frac := rstrip_zeros (substring (Z.to_nat (x + 1)) 12 d) in
    ip +:+ "." +:+ (if String.eqb frac "" then "0" else frac)
  else
    "0." +:+ zeros (Z.to_nat (- x - 1)) +:+ rstrip_zeros d.

Definition str_float (x : float) : string :=
  match Prim2SF x with
  | S754_nan => "nan"
  | S754_infinity s => if s then "-inf" else "inf"
  | S754_zero s => if s then "-0.0" else "0.0"
  | S754_finite s m e =>
      (if s then "-" else "") +:+
      (if 0 <=? e then format_g12 (Zpos m * 2 ^ e) 1
       else format_g12 (Zpos m) (2 ^ (- e)))
  end.

(** [str(x)] on a number. *)
Definition str (x : num) : string :=
  match x with
  | Int z => str_int z
  | Float f => str_float f
  end.

(** [s.split(sep)] for a one-character separator: the pieces between the
    separators, empty ones included. [cur] is the piece being read, in
    reverse. *)
Fixpoint split_on (sep : ascii) (cur : list ascii) (s : string)
    : list string :=
  match s with
  | EmptyString => [string_of_list_ascii (rev cur)]
  | String c s' =>
      if Ascii.eqb c sep then
        string_of_list_ascii (rev cur) :: split_on sep [] s'
      else split_on sep (c :: cur) s'
  end.

(** The value of a string of decimal digits; [None] when it is empty or has
    another character. *)
Fixpoint digits_value (s : string) (n : Z) (count : nat) : option Z :=
  match s with
  | EmptyString => if Nat.eqb count 0 then None else Some n
  | String c s' =>
      let k := (Z.of_nat (nat_of_ascii c) - 48)%Z in
      if ((0 <=? k) && (k <=? 9))%bool then
        digits_value s' (10 * n + k) (S count)
      else None
  end.

(** [int(s)] on a string: white space around is dropped, a sign may come
    first, and digits follow; [None] where it raises [ValueError]. *)
Definition int_of_string (s : string) : option Z :=
  match strip s with
  | String "-" r => Z.opp <$> digits_value r 0 0
  | String "+" r => digits_value r 0 0
  | r => digits_value r 0 0
  end.

(** The part of a file name before its last dot, when it has one. *)
Fixpoint before_last_dot (s : string) : option string :=
  match s with
  | EmptyString => None
  | String c s' =>
      match before_last_dot s' with
      | Some r => Some (String c r)
      | None => if Ascii.eqb c "." then Some EmptyString else None
      end
  end.

(** The root of [posixpath.splitext] on a file name without directory: the
    dots in front do not start an extension. *)
Fixpoint splitext_root (f : string) : string :=
  match f with
  | EmptyString => EmptyString
  | String c f' =>
      if Ascii.eqb c "." then String c (splitext_root f')
      else match before_last_dot f with Some r => r | None => f end
  end.

End Py.

(** ** [features/fbank/get_segments_scp.py] *)

Module Segments.

(** One line of the forced alignment after [line.strip().split()], the two
    [float()] conversions and [utterance.replace("_", "-")]. *)
Record token := Token {
  utterance : string;
  start_token : float;
  end_token : float;
  token_label : string
}.

(** An entry of [segments]: (utterance, start_time, end_time). *)
Definition segment : Type := string * Py.num * Py.num.

(** The variables of the reading loop. *)
Record scan := Scan {
  segments : list segment;
  prev_utterance : string;
  prev_token_label : string;
  prev_end_time : Py.num;
  start_time : Py.num
}.

Definition scan_init : scan :=
  Scan [] "" "" (Py.Int (-1)) (Py.Int (-1)).

(** [token_label in ["SIL", "SPN"]] *)
Definition is_silence (l : string) : bool :=
  (String.eqb l "SIL" || String.eqb l "SPN")%bool.

(** The body of [for line in f] once the line is parsed. *)
Definition scan_step (st : scan) (t : token) : scan :=
  if is_silence (token_label t) then st
  else
    let boundary :=
      (Py.ne (prev_end_time st) (Py.Float (start_token t))
       || negb (String.eqb (prev_utterance st) (utterance t)))%bool in
    let segs :=
      if boundary then
        if Py.ne (prev_end_time st) (Py.Int (-1)) then
          segments st ++
            [(prev_utterance st, start_time st, prev_end_time st)]
        else segments st
      else segments st in
    let start := if boundary then Py.Float (start_token t) else start_time st in
    Scan segs (utterance t) (token_label t) (Py.Float (end_token t)) start.

Section Reader.

(** The builtin [float] on a string ([None] where it raises [ValueError]). *)
Variable py_float : string → option float.

(** The first five statements of the loop body; [None] when the unpacking
    or a conversion raises. *)
Definition parse_line (line : string) : option token :=
  match Py.split (Py.strip line) with
  | [u; s; e; l] =>
      s' ← py_float s;
      e' ← py_float e;
      Some (Token (Py.replace_char "_" "-" u) s' e' l)
  | _ => None
  end.

Fixpoint scan_lines (st : scan) (lines : list string) : option scan :=
  match lines with
  | [] => Some st
  | line :: rest =>
      t ← parse_line line;
      scan_lines (scan_step st t) rest
  end.

(** The segment list that [main] holds after the [with] block. *)
Definition read_segments (lines : list string) : option (list segment) :=
  st ← scan_lines scan_init lines;
  Some (segments st ++ [(prev_utterance st, start_time st, prev_end_time st)]).

(** The tokens of a file, when every line parses. *)
Definition parse_file (lines : list string) : option (list token) :=
  mapM parse_line lines.

End Reader.

(** Writing [segments.list]: the text written by the loop, write after
    write. *)
Definition list_line (s : segment) : string :=
  let '(utt, start, end_) := s in
  utt +:+ " " +:+ Py.str start +:+ " " +:+ Py.str end_ +:+ (String "010" "").

(** The lines of a file, one after the other. *)
Definition lines_text (ls : list string) : string :=
  foldr String.append "" ls.

Definition write_list (segs : list segment) : string :=
  foldl (λ f s, f +:+ list_line s) "" segs.

(** [int(round(float(t) * 100))] *)
Definition frame (t : Py.num) : option Z :=
  Py.int_round (Py.to_float t * 100)%float.

(** What the SCP loop sends out: a [f.write] or a [print]. *)
Inductive output :=
  | FileWrite (text : string)
  | StdoutPrint (text : string).

Definition scp_line (feat_dir basename : string) (start end_ : Z) : string :=
  let segment_label :=
    basename +:+ "_" +:+ Py.fmt_06d start +:+ "-" +:+ Py.fmt_06d end_
      +:+ ".fbank" in
  segment_label +:+ "=" +:+ Py.path_join feat_dir (basename +:+ ".fbank")
    +:+ "[" +:+ Py.str_int start +:+ "," +:+ Py.str_int end_ +:+ "]"
    +:+ (String "010" "").

Definition warning (basename : string) : string :=
  "Warning: Problem with lengths (truncating): " +:+ basename.

(** The body of the SCP loop; [None] when a conversion raises or
    [lengths[basename]] is a [KeyError]. *)
Definition scp_step (feat_dir : string) (lengths : gmap string Z)
    (s : segment) : option output :=
  let '(basename, start_time, end_time) := s in
  start ← frame start_time;
  end_ ← frame end_time;
  len ← lengths !! basename;
  if len <? end_ then
    if len <? start then Some (StdoutPrint (warning basename))
    else Some (FileWrite (scp_line feat_dir basename start (len - 1)))
  else Some (FileWrite (scp_line feat_dir basename start end_)).

Fixpoint write_scp (feat_dir : string) (lengths : gmap string Z)
    (segs : list segment) : option (list output) :=
  match segs with
  | [] => Some []
  | s :: rest =>
      o ← scp_step feat_dir lengths s;
      os ← write_scp feat_dir lengths rest;
      Some (o :: os)
  end.

(** The text of the SCP file: the writes, in order. *)
Fixpoint written (os : list output) : string :=
  match os with
  | [] => ""
  | FileWrite t :: rest => t +:+ written rest
  | StdoutPrint _ :: rest => written rest
  end.

(** The loop of [main] that fills [lengths] from the output of [HList],
    one item per line after [paste]. The name under which a feature file
    is recorded: [path.splitext(path.split(utt)[-1])[0]]. *)
Definition lengths_key (source : string) : string :=
  Py.splitext_root (Py.path_tail source).

(** [line.index(x)]: the first position of [x]. *)
Fixpoint index_of (x : string) (l : list string) : option nat :=
  match l with
  | [] => None
  | y :: l' => if String.eqb y x then Some O else S <$> index_of x l'
  end.

(** The body of the loop on a line that is not empty: the name and the
    number of frames; [None] when [index], an item access or [int]
    raises. *)
Definition hlist_entry (line : string) : option (string * Z) :=
  let fields :=
    filter (λ i, i ≠ "") (Py.split_on " " [] line) in
  i ← index_of "Source:" fields;
  utt ← fields !! S i;
  j ← index_of "Samples:" fields;
  frames ← fields !! S j;
  n ← Py.int_of_string frames;
  Some (lengths_key utt, n).

Fixpoint read_lengths (lengths : gmap string Z) (lines : list string)
    : option (gmap string Z) :=
  match lines with
  | [] => Some lengths
  | line :: rest =>
      if String.eqb line "" then read_lengths lengths rest
      else
        '(utt, n) ← hlist_entry line;
        read_lengths (<[utt := n]> lengths) rest
  end.

(** [lengths] from the text that the shell command printed. *)
Definition parse_lengths (output : string) : option (gmap string Z) :=
  read_lengths ∅ (Py.split_on (ascii_of_nat 10) [] output).

(** A string without the character [c]. *)
Definition without (c : ascii) (s : string) : Prop :=
  c ∉ list_ascii_of_string s.

(** *** Runs of linked tokens

    The description of the segment list: the retained tokens, cut into
    maximal runs of tokens that follow one another without a gap inside one
    utterance. *)

Definition retained (ts : list token) : list token :=
  filter (λ t, is_silence (token_label t) = false) ts.

(** [b] continues [a]: it starts when [a] ends, in the same utterance. *)
Definition linked (a b : token) : bool :=
  (negb (Py.ne (Py.Float (end_token a)) (Py.Float (start_token b)))
   && String.eqb (utterance a) (utterance b))%bool.

Fixpoint chained (prev : token) (r : list token) : Prop :=
  match r with
  | [] => True
  | t :: r' => linked prev t = true ∧ chained t r'
  end.

Definition run (r : list token) : Prop :=
  match r with
  | [] => False
  | t :: r' => chained t r'
  end.

(** No run can be extended by the first token of the next one. *)
Fixpoint separated (rs : list (list token)) : Prop :=
  match rs with
  | r :: rest =>
      match rest with
      | r' :: _ =>
          (∀ a b, last r = Some a → head r' = Some b → linked a b = false)
          ∧ separated rest
      | [] => True
      end
  | [] => True
  end.

Definition maximal_runs (ts : list token) (rs : list (list token)) : Prop :=
  concat rs = ts ∧ Forall run rs ∧ separated rs.

(** The entry that stands for a run. *)
Definition run_entry (r : list token) : option segment :=
  a ← head r;
  b ← last r;
  Some (utterance a, Py.Float (start_token a), Py.Float (end_token b)).

(** The runs, computed from left to right: [cur] is the run being built and
    [prev] its last token. *)
Fixpoint group (cur : list token) (prev : token) (ts : list token)
    : list (list token) :=
  match ts with
  | [] => [cur]
  | t :: ts' =>
      if linked prev t then group (cur ++ [t]) t ts'
      else cur :: group [t] t ts'
  end.

Definition runs (ts : list token) : list (list token) :=
  match ts with
  | [] => []
  | t :: ts' => group [t] t ts'
  end.

End Segments.

(** ** [embeddings/link_xitsonga_mfcc.py] *)

Module Links.

(** *** The file system the script runs in

    A place in the file system is named from the root or from the working
    directory of the script: the steps up from the working directory
    ([..]), then the names down. At a place there is a directory, a regular
    file or a symbolic link with its target. The root, the working
    directory and the directories above it are directories. Where the
    working directory is below the root, and under which name it is in the
    directory above it, is not known: the places named from the root and
    those named from the working directory are kept apart. *)
Abbreviation path := (bool * list string)%type.

Inductive node :=
  | Dir
  | File
  | Symlink (target : string).

Inductive errno := EEXIST | ENOENT | ENOTDIR | ELOOP.

Inductive event :=
  | Printed (text : string)
  | MadeDir (p : path)
  | Linked (target : string) (link : path).

Record world := World {
  files : gmap path node;
  log : list event
}.

(** The components of a path string, split at the slashes. *)
Fixpoint split_slash (cur : list ascii) (s : string) : list string :=
  match s with
  | EmptyString => [string_of_list_ascii (rev cur)]
  | String c s' =>
      if Ascii.eqb c "/" then
        string_of_list_ascii (rev cur) :: split_slash [] s'
      else split_slash (c :: cur) s'
  end.

(** The directory above a place, and the place of a name in a
    directory. *)
Definition up (p : path) : path :=
  match last p.2 with
  | None => if p.1 then p else (false, [".."])
  | Some top =>
      if String.eqb top ".." then (p.1, p.2 ++ [".."])
      else (p.1, removelast p.2)
  end.

Definition down (p : path) (name : string) : path := (p.1, p.2 ++ [name]).

(** What is at a place. *)
Definition node_at (fs : gmap path node) (p : path) : option node :=
  if forallb (String.eqb "..") p.2 then Some Dir else fs !! p.

(** Where the resolution of a path string starts from a directory. *)
Definition start (s : string) (cur : path) : path :=
  if Py.startswith_slash s then (true, []) else cur.

(** Path resolution as the kernel does it, from the directory [cur] along
    the components [comps]: an empty component and [.] stay, [..] goes up,
    a name goes down into a directory, and a symbolic link is replaced by
    its target, resolved from the directory the link is in; [next] is the
    resolution with one link less to follow. The link of the last
    component is followed when [follow] is set. The result is the place
    the path names, where there may be nothing yet. *)
Fixpoint steps (fs : gmap path node) (follow : bool)
    (next : path → list string → errno + path)
    (cur : path) (comps : list string) : errno + path :=
  match comps with
  | [] => inr cur
  | c :: rest =>
      if (String.eqb c "" || String.eqb c ".")%bool then
        steps fs follow next cur rest
      else if String.eqb c ".." then steps fs follow next (up cur) rest
      else
        let child := down cur c in
        match node_at fs child with
        | None =>
            if forallb (String.eqb "") rest then inr child else inl ENOENT
        | Some Dir => steps fs follow next child rest
        | Some File =>
            match rest with [] => inr child | _ => inl ENOTDIR end
        | Some (Symlink t) =>
            match rest, follow with
            | [], false => inr child
            | _, _ => next (start t cur) (split_slash [] t ++ rest)
            end
        end
  end.

(** Resolution that follows at most [links] symbolic links. *)
Fixpoint walk (links : nat) (fs : gmap path node) (follow : bool)
    (cur : path) (comps : list string) : errno + path :=
  steps fs follow
    (match links with
     | O => λ _ _, inl ELOOP
     | S l => walk l fs follow
     end) cur comps.

(** The number of symbolic links followed before [ELOOP]. *)
Definition maxlinks : nat := 40.

Definition resolve (fs : gmap path node) (follow : bool) (s : string)
    : errno + path :=
  if String.eqb s "" then inl ENOENT
  else walk maxlinks fs follow (start s (false, [])) (split_slash [] s).

(** [os.stat] and [os.lstat], as far as the kind of the file goes; [None]
    where they raise. *)
Definition stat (w : world) (s : string) : option node :=
  match resolve (files w) true s with
  | inr p => node_at (files w) p
  | inl _ => None
  end.

Definition lstat (w : world) (s : string) : option node :=
  match resolve (files w) false s with
  | inr p => node_at (files w) p
  | inl _ => None
  end.

Definition is_dir (o : option node) : bool :=
  match o with Some Dir => true | _ => false end.

Definition is_file (o : option node) : bool :=
  match o with Some File => true | _ => false end.

Definition is_there (o : option node) : bool :=
  match o with Some _ => true | None => false end.

(** [os.path.isdir], [os.path.isfile], [os.path.exists] and
    [os.path.lexists]. *)
Definition isdir (w : world) (s : string) : bool := is_dir (stat w s).
Definition isfile (w : world) (s : string) : bool := is_file (stat w s).
Definition exists_ (w : world) (s : string) : bool := is_there (stat w s).
Definition lexists (w : world) (s : string) : bool := is_there (lstat w s).

(** Calls that change the world return the new world and whether they
    raised [OSError]. *)
Definition result : Type := world * option errno.

(** [os.mkdir(s)]: the last component is not followed when it is a
    link. *)
Definition mkdir (w : world) (s : string) : result :=
  match resolve (files w) false s with
  | inl e => (w, Some e)
  | inr p =>
      match node_at (files w) p with
      | Some _ => (w, Some EEXIST)
      | None =>
          (World (<[p := Dir]> (files w)) (log w ++ [MadeDir p]), None)
      end
  end.

(** [os.makedirs(name)]: the head of the path is made first when it does
    not exist, and an [EEXIST] from making it is passed over. The recursion
    is on a shorter path each time; [fuel] bounds it. *)
Fixpoint makedirs_from (fuel : nat) (w : world) (name : string) : result :=
  match fuel with
  | O => (w, Some ELOOP)
  | S fuel' =>
      let head := Py.path_head name in
      let tail := Py.path_tail name in
      let '(head, tail) :=
        if String.eqb tail "" then (Py.path_head head, Py.path_tail head)
        else (head, tail) in
      if (negb (String.eqb head "") && negb (String.eqb tail "")
          && negb (exists_ w head))%bool then
        match makedirs_from fuel' w head with
        | (w', Some EEXIST) | (w', None) =>
            if String.eqb tail "." then (w', None) else mkdir w' name
        | (w', Some e) => (w', Some e)
        end
      else mkdir w name
  end.

Definition makedirs (w : world) (name : string) : result :=
  makedirs_from (S (String.length name)) w name.

(** [os.symlink(target, link)] *)
Definition symlink (w : world) (target link : string) : result :=
  if String.eqb target "" then (w, Some ENOENT)
  else
    match resolve (files w) false link with
    | inl e => (w, Some e)
    | inr p =>
        match node_at (files w) p with
        | Some _ => (w, Some EEXIST)
        | None =>
            if Py.endswith_slash link then (w, Some ENOENT)
            else
              (World (<[p := Symlink target]> (files w))
                 (log w ++ [Linked target p]), None)
        end
    end.

Definition print (w : world) (text : string) : world :=
  World (files w) (log w ++ [Printed text]).

(** A call only adds entries to the file system and events to the log. *)
Definition grows (w w' : world) (new : list event) : Prop :=
  files w ⊆ files w' ∧ log w' = log w ++ new.

Definition no_links (new : list event) : Prop :=
  ∀ (t : string) (p : path), Linked t p ∉ new.

(** *** The script *)

Definition relative_features_dir : string :=
  Py.path_join (Py.path_join (Py.path_join ".." "..") "..") "features".

Definition output_dir : string := Py.path_join "data" "xitsonga.mfcc".

Definition features_npz (name : string) : string :=
  Py.path_join
    (Py.path_join (Py.path_join relative_features_dir "wordpairs") "xitsonga")
    name.

(** [if not path.isfile(link_fn): print(...); os.symlink(npz_fn, link_fn)] *)
Definition link_step (w : world) (npz_fn link_fn : string) : result :=
  if negb (isfile w link_fn) then
    symlink (print w ("Linking: " +:+ npz_fn +:+ " to " +:+ link_fn))
      npz_fn link_fn
  else (w, None).

Definition train_npz : string :=
  features_npz "xitsonga_utd_terms.mfcc.cmvn_dd.npz".
Definition test_npz : string :=
  features_npz "xitsonga.samediff.mfcc.cmvn_dd.npz".
Definition train_link : string := Py.path_join output_dir "train.utd.npz".
Definition test_link : string := Py.path_join output_dir "test.npz".

Definition main (w : world) : result :=
  let '(w1, e1) :=
    if negb (isdir w output_dir) then makedirs w output_dir else (w, None) in
  match e1 with
  | Some _ => (w1, e1)
  | None =>
      let '(w2, e2) := link_step w1 train_npz train_link in
      match e2 with
      | Some _ => (w2, e2)
      | None => link_step w2 test_npz test_link
      end
  end.

End Links.

(** ** [src/test_tflego.py]: the NumPy reference functions *)

Module Reference.

(** The scalars of the arrays with the operations the functions use. The
    functions only move scalars around and combine them with these
    operations, so they are written once for any scalar type. *)
Class Scalar (F : Type) := {
  s_zero : F;
  s_add : F → F → F;
  s_sub : F → F → F;
  s_mul : F → F → F;
  s_tanh : F → F;
  s_sqrt : F → F;
  s_ltb : F → F → bool
}.

(** Integers as scalars, to run the functions on small arrays. *)
#[export] Instance Z_scalar : Scalar Z := {|
  s_zero := 0;
  s_add := Z.add;
  s_sub := Z.sub;
  s_mul := Z.mul;
  s_tanh := Z.sgn;
  s_sqrt := Z.sqrt;
  s_ltb := Z.ltb
|}.

Section Numpy.

Context {F : Type} `{Scalar F}.

(** A two-dimensional array with its shape. *)
Record matrix := Matrix {
  m_rows : nat;
  m_cols : nat;
  m_data : list (list F)
}.

(** A three-dimensional array with its shape. *)
Record array3 := Array3 {
  a_shape : nat * nat * nat;
  a_data : list (list (list F))
}.

Definition wf_matrix (W : matrix) : Prop :=
  length (m_data W) = m_rows W
  ∧ Forall (λ r, length r = m_cols W) (m_data W).

Definition wf_rows (t d : nat) (rows : list (list F)) : Prop :=
  length rows = t ∧ Forall (λ r, length r = d) rows.

Definition wf_array3 (x : array3) : Prop :=
  let '(n, t, d) := a_shape x in
  length (a_data x) = n ∧ Forall (wf_rows t d) (a_data x).

(** [np.zeros] *)
Definition zeros1 (d : nat) : list F := replicate d s_zero.
Definition zeros2 (t d : nat) : list (list F) := replicate t (zeros1 d).
Definition zeros3 (n t d : nat) : list (list (list F)) :=
  replicate n (zeros2 t d).

(** An operation on two one-dimensional arrays, with NumPy broadcasting: the
    lengths are equal or one of them is 1. *)
Definition broadcast (f : F → F → F) (u v : list F) : option (list F) :=
  if Nat.eqb (length u) (length v) then Some (zip_with f u v)
  else
    match u, v with
    | [a], _ => Some (map (f a) v)
    | _, [b] => Some (map (λ a, f a b) u)
    | _, _ => None
    end.

(** [np.dot(v, W)] for a vector and a matrix: the sum over [k] of
    [v[k] * W[k, :]]. *)
Definition dot_rows (cols : nat) (v : list F) (rows : list (list F))
    : list F :=
  foldl (λ acc '(a, row), zip_with s_add acc (map (s_mul a) row))
    (zeros1 cols) (zip v rows).

Definition np_dot (v : list F) (W : matrix) : option (list F) :=
  if Nat.eqb (length v) (m_rows W) then
    Some (dot_rows (m_cols W) v (m_data W))
  else None.

Definition np_linear (x : list F) (W : matrix) (b : list F)
    : option (list F) :=
  v ← np_dot x W;
  broadcast s_add v b.

(** [a[:l]] on the first axis of a list of length [length a]. *)
Definition slice_to {A} (l : Z) (a : list A) : list A :=
  if l <? 0 then take (Z.to_nat (Z.of_nat (length a) + l)) a
  else take (Z.to_nat l) a.

(** [a[i]] for a Python index, negative ones counted from the end. *)
Definition index {A} (a : list A) (i : Z) : option A :=
  let n := Z.of_nat (length a) in
  if (0 <=? i) && (i <? n) then a !! Z.to_nat i
  else if (- n <=? i) && (i <? 0) then a !! Z.to_nat (n + i)
  else None.

(** [outputs[i, j, :] = v]: the indices must be in range, and [v] has the
    length of the row or length 1. *)
Definition assign_row (a : list (list (list F))) (i j : nat) (v : list F)
    : option (list (list (list F))) :=
  rows ← a !! i;
  old ← rows !! j;
  new ←
    (if Nat.eqb (length v) (length old) then Some v
     else match v with
          | [c] => Some (replicate (length old) c)
          | _ => None
          end);
  Some (<[i := <[j := new]> rows]> a).

(** [max(x_lengths)] *)
Definition max_lengths (x_lengths : list Z) : option Z :=
  match x_lengths with
  | [] => None
  | l :: ls => Some (foldl Z.max l ls)
  end.

(** [maxlength] as both functions settle it in their first two lines. *)
Definition resolve_maxlength (x_lengths : list Z) (maxlength : option Z)
    : option Z :=
  match maxlength with
  | None => max_lengths x_lengths
  | Some m => Some m
  end.

(** The inner loop of [np_rnn], from step [i_step] on. *)
Fixpoint rnn_steps (W : matrix) (b : list F)
    (outputs : list (list (list F))) (i_data i_step : nat)
    (prev_state : list F) (cur_x_sequence : list (list F))
    : option (list (list (list F))) :=
  match cur_x_sequence with
  | [] => Some outputs
  | cur_x :: rest =>
      v ← np_dot (cur_x ++ prev_state) W;
      s ← broadcast s_add v b;
      let cur_state := map s_tanh s in
      outputs' ← assign_row outputs i_data i_step cur_state;
      rnn_steps W b outputs' i_data (S i_step) cur_state rest
  end.

(** The outer loop of [np_rnn], over the items [i_data] of a list. *)
Fixpoint rnn_items (x : array3) (x_lengths : list Z) (W : matrix)
    (b : list F) (outputs : list (list (list F))) (items : list nat)
    : option (list (list (list F))) :=
  match items with
  | [] => Some outputs
  | i_data :: rest =>
      l ← x_lengths !! i_data;
      xi ← a_data x !! i_data;
      outputs' ←
        rnn_steps W b outputs i_data 0 (zeros1 (m_cols W)) (slice_to l xi);
      rnn_items x x_lengths W b outputs' rest
  end.

Definition np_rnn (x : array3) (x_lengths : list Z) (W : matrix)
    (b : list F) (maxlength : option Z) : option array3 :=
  maxlength ← resolve_maxlength x_lengths maxlength;
  if maxlength <? 0 then None
  else
    let n := (a_shape x).1.1 in
    let m := Z.to_nat maxlength in
    data ← rnn_items x x_lengths W b (zeros3 n m (m_cols W)) (seq 0 n);
    Some (Array3 (n, m, m_cols W) data).

(** [np_multi_rnn]: the layers one after the other. *)
Fixpoint np_multi_rnn (x : array3) (x_lengths : list Z)
    (layers : list (matrix * list F)) (maxlength : option Z)
    : option array3 :=
  match layers with
  | [] => Some x
  | (W, b) :: rest =>
      x' ← np_rnn x x_lengths W b maxlength;
      np_multi_rnn x' x_lengths rest maxlength
  end.

(** The loop that collects [encoder_output[i_data, l - 1, :]]. *)
Fixpoint collect_states (encoder_output : list (list (list F)))
    (i_data : nat) (x_lengths : list Z) : option (list (list F)) :=
  match x_lengths with
  | [] => Some []
  | l :: rest =>
      rows ← encoder_output !! i_data;
      state ← index rows (l - 1);
      states ← collect_states encoder_output (S i_data) rest;
      Some (state :: states)
  end.

(** [np.reshape(np.repeat(encoder_states, maxlength, axis=0),
    [-1, maxlength, n_hidden])]; the reshape raises when
    [maxlength * n_hidden] is 0. *)
Definition repeat_states (encoder_states : list (list F))
    (maxlength n_hidden : nat) : option array3 :=
  if Nat.eqb (maxlength * n_hidden) 0 then None
  else
    Some (Array3 (length encoder_states, maxlength, n_hidden)
            (map (replicate maxlength) encoder_states)).

(** The inner loop of the final linear layer. *)
Fixpoint linear_steps (W_output : matrix) (b_output : list F)
    (decoder_output_linear : list (list (list F))) (i_data i_step : nat)
    (cur_decoder_list : list (list F))
    (cur_decoder_sequence : list (list F))
    : option (list (list (list F)) * list (list F)) :=
  match cur_decoder_sequence with
  | [] => Some (decoder_output_linear, cur_decoder_list)
  | cur_decoder :: rest =>
      output_linear ← np_linear cur_decoder W_output b_output;
      linear' ←
        assign_row decoder_output_linear i_data i_step output_linear;
      linear_steps W_output b_output linear' i_data (S i_step)
        (cur_decoder_list ++ [output_linear]) rest
  end.

Fixpoint linear_items (decoder_output : list (list (list F)))
    (x_lengths : list Z) (W_output : matrix) (b_output : list F)
    (decoder_output_linear : list (list (list F)))
    (decoder_output_list : list (list (list F))) (items : list nat)
    : option (list (list (list F)) * list (list (list F))) :=
  match items with
  | [] => Some (decoder_output_linear, decoder_output_list)
  | i_data :: rest =>
      l ← x_lengths !! i_data;
      di ← decoder_output !! i_data;
      '(linear', cur_list) ←
        linear_steps W_output b_output decoder_output_linear i_data 0 []
          (slice_to l di);
      linear_items decoder_output x_lengths W_output b_output linear'
        (decoder_output_list ++ [cur_list]) rest
  end.

Definition np_encdec_lazydynamic (x : array3) (x_lengths : list Z)
    (W_encoder : matrix) (b_encoder : list F)
    (W_decoder : matrix) (b_decoder : list F)
    (W_output : matrix) (b_output : list F) (maxlength : option Z)
    : option (list (list F) * array3 * list (list (list F))) :=
  maxlength ← resolve_maxlength x_lengths maxlength;
  encoder_output ← np_rnn x x_lengths W_encoder b_encoder (Some maxlength);
  encoder_states ← collect_states (a_data encoder_output) 0 x_lengths;
  let n_hidden := m_cols W_encoder in
  decoder_input ←
    repeat_states encoder_states (Z.to_nat maxlength) n_hidden;
  decoder_output ←
    np_rnn decoder_input x_lengths W_decoder b_decoder (Some maxlength);
  let '(n, t, d) := a_shape x in
  '(linear, decoder_output_list) ←
    linear_items (a_data decoder_output) x_lengths W_output b_output
      (zeros3 n t d) [] (seq 0 n);
  Some (encoder_states, Array3 (n, t, d) linear, decoder_output_list).

(** *** The vector quantisation reference of [test_vq] *)

(** [np.linalg.norm] of a vector. *)
Definition norm (v : list F) : F :=
  s_sqrt (foldl s_add s_zero (map (λ a, s_mul a a) v)).

(** [np.argmin] of a list: the first index of a least value; it raises on
    an empty list. The values compared are ordered by [s_ltb]. *)
Fixpoint argmin_from (best : nat) (best_value : F) (i : nat) (ds : list F)
    : nat :=
  match ds with
  | [] => best
  | d :: rest =>
      if s_ltb d best_value then argmin_from i d (S i) rest
      else argmin_from best best_value (S i) rest
  end.

Definition argmin (ds : list F) : option nat :=
  match ds with
  | [] => None
  | d :: rest => Some (argmin_from 0 d 1 rest)
  end.

(** The loop over [tf_embeds] that fills [dists]. *)
Fixpoint distances (x_test : list F) (embeds : list (list F))
    : option (list F) :=
  match embeds with
  | [] => Some []
  | embed :: rest =>
      diff ← broadcast s_sub x_test embed;
      ds ← distances x_test rest;
      Some (norm diff :: ds)
  end.

(** The loop over [test_data] that fills [np_z_q]. *)
Fixpoint np_vq (test_data : list (list F)) (tf_embeds : list (list F))
    : option (list (list F)) :=
  match test_data with
  | [] => Some []
  | x_test :: rest =>
      dists ← distances x_test tf_embeds;
      k ← argmin dists;
      z ← tf_embeds !! k;
      zs ← np_vq rest tf_embeds;
      Some (z :: zs)
  end.

(** *** What the loops compute, on arrays of fitting shapes *)

(** One step of the basic RNN cell. *)
Definition cell (W : matrix) (b : list F) (x prev : list F) : list F :=
  map s_tanh
    (zip_with s_add (dot_rows (m_cols W) (x ++ prev) (m_data W)) b).

(** The states of the RNN along a sequence, from the state [prev]. *)
Fixpoint rnn_states (W : matrix) (b : list F) (prev : list F)
    (xs : list (list F)) : list (list F) :=
  match xs with
  | [] => []
  | x :: rest => let s := cell W b x prev in s :: rnn_states W b s rest
  end.

(** The row of [np_rnn]'s output for one item: its states, then zeros. *)
Definition rnn_row (W : matrix) (b : list F) (m : nat)
    (xi : list (list F)) (l : Z) : list (list F) :=
  let sts := rnn_states W b (zeros1 (m_cols W)) (slice_to l xi) in
  sts ++ replicate (m - length sts) (zeros1 (m_cols W)).

(** The state an item ends in: the last state of its first [l] frames. *)
Definition final_state (W : matrix) (b : list F) (xi : list (list F))
    (l : Z) : list F :=
  default [] (last (rnn_states W b (zeros1 (m_cols W)) (take (Z.to_nat l) xi))).

(** The output layer on one decoder state. *)
Definition linear (W : matrix) (b : list F) (c : list F) : list F :=
  zip_with s_add (dot_rows (m_cols W) c (m_data W)) b.

(** The row of the final output for one item: the outputs of its decoder
    states, then zeros. *)
Definition linear_row (W : matrix) (b : list F) (d t : nat)
    (di : list (list F)) (l : Z) : list (list F) :=
  let ys := map (linear W b) (slice_to l di) in
  ys ++ replicate (t - length ys) (zeros1 d).

(** The Euclidean distance between two vectors of one length. *)
Definition euclid (x e : list F) : F := norm (zip_with s_sub x e).

Definition lt (a b : F) : Prop := s_ltb a b = true.

(** The values of [ds] are totally ordered by [s_ltb], as floats other
    than NaN are. *)
Definition ordered (ds : list F) : Prop :=
  (∀ a, a ∈ ds → ¬ lt a a)
  ∧ (∀ a b c, a ∈ ds → b ∈ ds → c ∈ ds → lt a b → lt b c → lt a c)
  ∧ (∀ a b c, a ∈ ds → b ∈ ds → c ∈ ds → lt a b → lt a c ∨ lt c b).

(** [k] is the first index of a least value of [ds]. *)
Definition first_least (ds : list F) (k : nat) : Prop :=
  ∃ dk, ds !! k = Some dk
    ∧ (∀ j d, ds !! j = Some d → ¬ lt d dk)
    ∧ (∀ j d, (j < k)%nat → ds !! j = Some d → lt dk d).

(** Two arrays with as many items, and as many rows in each item. *)
Definition same_rows (a a' : list (list (list F))) : Prop :=
  length a' = length a
  ∧ ∀ k r, a !! k = Some r → ∃ r', a' !! k = Some r' ∧ length r' = length r.

(** The layers of [np_multi_rnn] fit an input of dimension [d]: each
    weight matrix has one row per input and per hidden unit, and each bias
    one entry per hidden unit. *)
Fixpoint layers_fit (d : nat) (layers : list (matrix * list F)) : Prop :=
  match layers with
  | [] => True
  | (W, b) :: rest =>
      wf_matrix W ∧ m_rows W = (d + m_cols W)%nat ∧ length b = m_cols W
      ∧ layers_fit (m_cols W) rest
  end.

(** The dimension that comes out of the last layer. *)
Fixpoint layers_out (d : nat) (layers : list (matrix * list F)) : nat :=
  match layers with
  | [] => d
  | (W, b) :: rest => layers_out (m_cols W) rest
  end.

End Numpy.

Arguments matrix F : clear implicits.
Arguments array3 F : clear implicits.

End Reference.

(** ** [embeddings/train_siamese.py] *)

Module Siamese.

(** The values held by an options dictionary. *)
Inductive pyval :=
  | VStr (s : string)
  | VInt (z : Z)
  | VFloat (f : float)
  | VBool (b : bool)
  | VList (l : list pyval).

(** The truth value of [if v:]. *)
Definition truthy (v : pyval) : bool :=
  match v with
  | VStr s => negb (String.eqb s "")
  | VInt z => negb (z =? 0)
  | VFloat f => negb (PrimFloat.eqb f 0)
  | VBool b => b
  | VList l => match l with [] => false | _ => true end
  end.

(** [v == "lstm"] *)
Definition is_lstm (v : pyval) : bool :=
  match v with
  | VStr s => String.eqb s "lstm"
  | _ => false
  end.

(** *** The graph of the framework

    Building the model is a sequence of calls into the tensor framework and
    into [tflego]; each call adds a node to the graph. A node is written as
    the call that made it, applied to the nodes and values it was given. *)
Inductive dtype := TF_DTYPE | TF_ITYPE.

Inductive tensor :=
  | Placeholder (id : nat) (type : dtype) (shape : list (option Z))
  | RnnOutputs (c : rnn_call)
  | RnnStates (c : rnn_call)
  | AttrH (states : tensor)
  | BuildFeedforward (x : tensor) (n_hiddens : pyval) (keep_prob : pyval)
  | L2Normalize (x : tensor) (axis : Z)
  | TripletSemihardLoss (labels embeddings : tensor) (margin : pyval)
with rnn_call :=
  | BuildMultiRnn (x x_lengths : tensor) (n_hiddens rnn_type keep_prob : pyval)
  | BuildBidirectionalMultiRnn (x x_lengths : tensor)
      (n_hiddens rnn_type keep_prob : pyval).

Inductive operation :=
  | AdamMinimize (learning_rate : pyval) (loss : tensor).

Definition build_siamese_rnn_side (x x_lengths : tensor)
    (rnn_n_hiddens ff_n_hiddens rnn_type rnn_keep_prob ff_keep_prob : pyval)
    (bidirectional : bool) : tensor :=
  let call :=
    if bidirectional then
      BuildBidirectionalMultiRnn x x_lengths rnn_n_hiddens rnn_type
        rnn_keep_prob
    else BuildMultiRnn x x_lengths rnn_n_hiddens rnn_type rnn_keep_prob in
  let rnn_states := RnnStates call in
  let rnn_states := if is_lstm rnn_type then AttrH rnn_states else rnn_states in
  BuildFeedforward rnn_states ff_n_hiddens ff_keep_prob.

(** The RNN call whose final state a side feeds to its feedforward
    layers. *)
Definition side_encoder (side : tensor) : option rnn_call :=
  match side with
  | BuildFeedforward (RnnStates c) _ _ => Some c
  | BuildFeedforward (AttrH (RnnStates c)) _ _ => Some c
  | _ => None
  end.

Definition is_bidirectional (c : rnn_call) : bool :=
  match c with
  | BuildBidirectionalMultiRnn _ _ _ _ _ => true
  | BuildMultiRnn _ _ _ _ _ => false
  end.

(** [network_dict["output"]]; [None] on a [KeyError]. *)
Definition build_siamese_from_options_dict (x x_lengths : tensor)
    (options_dict : gmap string pyval) : option tensor :=
  rnn_n_hiddens ← options_dict !! "rnn_n_hiddens";
  ff_n_hiddens ← options_dict !! "ff_n_hiddens";
  rnn_type ← options_dict !! "rnn_type";
  rnn_keep_prob ← options_dict !! "rnn_keep_prob";
  ff_keep_prob ← options_dict !! "ff_keep_prob";
  bidirectional ← options_dict !! "bidirectional";
  let rnn :=
    build_siamese_rnn_side x x_lengths rnn_n_hiddens ff_n_hiddens rnn_type
      rnn_keep_prob ff_keep_prob (truthy bidirectional) in
  Some (L2Normalize rnn 1).

(** *** Labels *)

(** [enumerate] *)
Fixpoint enumerate_from {A} (i : nat) (l : list A) : list (nat * A) :=
  match l with
  | [] => []
  | a :: l' => (i, a) :: enumerate_from (S i) l'
  end.

(** [sorted(list(set(train_labels)))] *)
Definition sorted_label_set (train_labels : list string) : list string :=
  merge_sort String.le (remove_dups train_labels).

(** The dictionary filled by the loop over [enumerate(sorted(...))]. *)
Definition label_ids (train_labels : list string) : gmap string nat :=
  foldl (λ label_to_id '(i, label), <[label := i]> label_to_id) ∅
    (enumerate_from 0 (sorted_label_set train_labels)).

(** [train_y]; [None] on a [KeyError]. *)
Definition convert_labels (train_labels : list string) : option (list Z) :=
  let label_to_id := label_ids train_labels in
  mapM (λ label, Z.of_nat <$> label_to_id !! label) train_labels.

(** *** Training *)

Definition get_str (options_dict : gmap string pyval) (key : string)
    : option string :=
  match options_dict !! key with
  | Some (VStr s) => Some s
  | _ => None
  end.

(** [sorted(options_dict.items())]: the keys of a dictionary are distinct,
    so the order is the order of the keys. *)
Definition sorted_items (options_dict : gmap string pyval)
    : list (string * pyval) :=
  merge_sort (λ a b, String.le a.1 b.1) (map_to_list options_dict).

(** The second argument of [load_data_from_npz]. *)
Inductive min_length_arg := Omitted | PyNone.

Section Training.

(** The feature matrix of one utterance, and the training record. *)
Variables (features record : Type).

Record dataset := Dataset {
  d_x : list features;
  d_labels : list string;
  d_lengths : list Z;
  d_keys : list string
}.

Inductive iterator :=
  | LabelledBucketIterator (x : list features) (y : list Z)
      (batch_size n_buckets : pyval) (shuffle_every_epoch : bool).

(** The arguments of [training.train_fixed_epochs_external_val];
    [val_model_fn] is the model that the validation function given to it
    restores. *)
Record training_call := TrainingCall {
  n_epochs : pyval;
  optimizer : operation;
  loss : tensor;
  train_batch_iterator : iterator;
  feed_placeholders : list tensor;
  val_model_fn : string;
  save_model_fn : string;
  save_best_val_model_fn : string;
  n_val_interval : pyval
}.

Inductive pickled :=
  | RecordDict (r : record)
  | OptionsDict (o : gmap string pyval).

Inductive content :=
  | Pickle (obj : pickled)
  | Text (s : string).

(** What [train_siamese] leaves behind. *)
Record run := Run {
  model_dir : string;
  made_dirs : list string;
  loaded : list string;
  call : training_call;
  files_written : list (string * content)
}.

(** The world outside the script. *)
Variable md5_hexdigest : string → string.
Variable repr_items : list (string * pyval) → string.
Variable isdir : string → bool.
Variable load_data_from_npz : string → min_length_arg → dataset.
Variable trunc_and_limit_dim :
  list features → list Z → Z → pyval → list features * list Z.
Variable train_fixed_epochs_external_val : training_call → record.
Variable samediff_val : string → bool → float * float.

Definition train_siamese (options_dict : gmap string pyval) : option run :=
  (* Output directory *)
  let hash_str :=
    substring 0 10 (md5_hexdigest (repr_items (sorted_items options_dict))) in
  data_dir ← get_str options_dict "data_dir";
  train_tag ← get_str options_dict "train_tag";
  script ← get_str options_dict "script";
  let model_dir :=
    Py.path_join
      (Py.path_join
         (Py.path_join "models" (Py.path_tail data_dir +:+ "." +:+ train_tag))
         script)
      hash_str in
  let made_dirs := if isdir model_dir then [] else [model_dir] in
  (* Random seeds *)
  _ ← options_dict !! "rnd_seed";
  (* Training data *)
  let npz_fn := Py.path_join data_dir ("train." +:+ train_tag +:+ ".npz") in
  let train := load_data_from_npz npz_fn PyNone in
  train_y ← convert_labels (d_labels train);
  (* Validation data *)
  use_test_for_val ← options_dict !! "use_test_for_val";
  let val_npz_fn :=
    if truthy use_test_for_val then Py.path_join data_dir "test.npz"
    else Py.path_join data_dir "val.npz" in
  let val := load_data_from_npz val_npz_fn Omitted in
  (* Truncate and limit dimensionality *)
  max_length ← options_dict !! "max_length";
  let d_frame := 13 in
  let options_dict := <["n_input" := VInt d_frame]> options_dict in
  let '(train_x, train_lengths) :=
    trunc_and_limit_dim (d_x train) (d_lengths train) d_frame max_length in
  let '(val_x, val_lengths) :=
    trunc_and_limit_dim (d_x val) (d_lengths val) d_frame max_length in
  (* Model filenames *)
  let intermediate_model_fn := Py.path_join model_dir "siamese.tmp.ckpt" in
  let model_fn := Py.path_join model_dir "siamese.best_val.ckpt" in
  (* Model graph *)
  let x := Placeholder 0 TF_DTYPE [None; None; Some d_frame] in
  let x_lengths := Placeholder 1 TF_ITYPE [None] in
  let y := Placeholder 2 TF_ITYPE [None] in
  output ← build_siamese_from_options_dict x x_lengths options_dict;
  (* Semi-hard triplets loss *)
  margin ← options_dict !! "margin";
  let loss := TripletSemihardLoss y output margin in
  learning_rate ← options_dict !! "learning_rate";
  let optimizer := AdamMinimize learning_rate loss in
  (* Train Siamese model *)
  batch_size ← options_dict !! "batch_size";
  n_buckets ← options_dict !! "n_buckets";
  let train_batch_iterator :=
    LabelledBucketIterator train_x train_y batch_size n_buckets true in
  n_epochs ← options_dict !! "n_epochs";
  n_val_interval ← options_dict !! "n_val_interval";
  let call :=
    TrainingCall n_epochs optimizer loss train_batch_iterator
      [x; x_lengths; y] intermediate_model_fn intermediate_model_fn model_fn
      n_val_interval in
  let record_dict := train_fixed_epochs_external_val call in
  (* Save record and options_dict *)
  let record_dict_fn := Py.path_join model_dir "record_dict.pkl" in
  let options_dict_fn := Py.path_join model_dir "options_dict.pkl" in
  (* Final extrinsic evaluation *)
  extrinsic_usefinal ← options_dict !! "extrinsic_usefinal";
  let final_model_fn :=
    if truthy extrinsic_usefinal then intermediate_model_fn else model_fn in
  let ap := PrimFloat.opp (samediff_val final_model_fn false).2 in
  let ap_normalised := PrimFloat.opp (samediff_val final_model_fn true).2 in
  let ap_fn := Py.path_join model_dir "val_ap.txt" in
  Some (Run model_dir made_dirs [npz_fn; val_npz_fn] call
          [(record_dict_fn, Pickle (RecordDict record_dict));
           (options_dict_fn, Pickle (OptionsDict options_dict));
           (ap_fn, Text (Py.str_float ap +:+ String "010" ""
                         +:+ Py.str_float ap_normalised
                         +:+ String "010" ""))]).

End Training.

Arguments Dataset {features}.
Arguments d_x {features}.
Arguments d_labels {features}.
Arguments d_lengths {features}.
Arguments d_keys {features}.
Arguments LabelledBucketIterator {features}.
Arguments TrainingCall {features}.
Arguments n_epochs {features}.
Arguments optimizer {features}.
Arguments loss {features}.
Arguments train_batch_iterator {features}.
Arguments feed_placeholders {features}.
Arguments val_model_fn {features}.
Arguments save_model_fn {features}.
Arguments save_best_val_model_fn {features}.
Arguments n_val_interval {features}.
Arguments RecordDict {record}.
Arguments OptionsDict {record}.
Arguments Pickle {record}.
Arguments Text {record}.
Arguments Run {features record}.
Arguments model_dir {features record}.
Arguments made_dirs {features record}.
Arguments loaded {features record}.
Arguments call {features record}.
Arguments files_written {features record}.
Arguments train_siamese {features record}.

(** *** Options *)

Definition default_options_dict : gmap string pyval :=
  list_to_map [
    ("data_dir", VStr (Py.path_join "data" "buckeye.mfcc"));
    ("train_tag", VStr "gt");
    ("max_length", VInt 100);
    ("bidirectional", VBool false);
    ("rnn_type", VStr "gru");
    ("rnn_n_hiddens", VList [VInt 400; VInt 400; VInt 400]);
    ("ff_n_hiddens", VList [VInt 130]);
    ("margin", VFloat 0.2);
    ("learning_rate", VFloat 0.001);
    ("rnn_keep_prob", VFloat 1);
    ("ff_keep_prob", VFloat 1);
    ("n_epochs", VInt 10);
    ("batch_size", VInt 300);
    ("n_buckets", VInt 3);
    ("extrinsic_usefinal", VBool false);
    ("use_test_for_val", VBool false);
    ("n_val_interval", VInt 1);
    ("rnd_seed", VInt 1)
  ].

(** The command line, parsed. *)
Record args := Args {
  arg_data_dir : string;
  arg_n_epochs : Z;
  arg_batch_size : Z;
  arg_train_tag : string;
  arg_extrinsic_usefinal : bool;
  arg_use_test_for_val : bool;
  arg_rnd_seed : Z
}.

(** The options that [main] sets before it calls [train_siamese]. *)
Definition main_options (a : args) : gmap string pyval :=
  <["rnd_seed" := VInt (arg_rnd_seed a)]>
  (<["train_tag" := VStr (arg_train_tag a)]>
  (<["use_test_for_val" := VBool (arg_use_test_for_val a)]>
  (<["extrinsic_usefinal" := VBool (arg_extrinsic_usefinal a)]>
  (<["batch_size" := VInt (arg_batch_size a)]>
  (<["n_epochs" := VInt (arg_n_epochs a)]>
  (<["data_dir" := VStr (arg_data_dir a)]>
  (<["script" := VStr "train_siamese"]> default_options_dict))))))).

(** The keys that [train_siamese] and the functions it calls read with
    [options_dict[...]], the three that must hold strings apart. *)
Definition read_keys : list string :=
  ["rnd_seed"; "use_test_for_val"; "max_length"; "rnn_n_hiddens";
   "ff_n_hiddens"; "rnn_type"; "rnn_keep_prob"; "ff_keep_prob";
   "bidirectional"; "margin"; "learning_rate"; "batch_size"; "n_buckets";
   "n_epochs"; "n_val_interval"; "extrinsic_usefinal"].

(** The options that a run of [train_siamese] needs. *)
Definition complete (options_dict : gmap string pyval) : Prop :=
  is_Some (get_str options_dict "data_dir")
  ∧ is_Some (get_str options_dict "train_tag")
  ∧ is_Some (get_str options_dict "script")
  ∧ Forall (λ key, is_Some (options_dict !! key)) read_keys.

End Siamese.

(** ** Sample inputs

    Small concrete inputs on which the functions above are run. *)

Module Samples.

(** A forced alignment of two utterances with a pause in the first. *)
Definition fa_lines : list string := [
  "s01_01a 0.0 0.5 hello";
  "s01_01a 0.5 1.25 world";
  "s01_01a 1.25 2.0 SIL";
  "s01_01a 2.0 2.5 again";
  "s02_07b 2.5 3.0 new"
].

Definition fa_tokens : list Segments.token := [
  Segments.Token "s01-01a" 0 0.5 "hello";
  Segments.Token "s01-01a" 0.5 1.25 "world";
  Segments.Token "s01-01a" 1.25 2 "SIL";
  Segments.Token "s01-01a" 2 2.5 "again";
  Segments.Token "s02-07b" 2.5 3 "new"
].

(** Segments of an utterance of 150 frames: one inside it, one that runs
    over its end and one that starts after it. *)
Definition feat_dir : string := "/w/buckeye/raw".

Definition lengths : gmap string Z := {[ "s01-01a" := 150 ]}.

Definition scp_segments : list Segments.segment := [
  ("s01-01a", Py.Float 0, Py.Float 1.25);
  ("s01-01a", Py.Float 0.5, Py.Float 2);
  ("s01-01a", Py.Float 2, Py.Float 2.5)
].

Definition scp_outputs : list Segments.output := [
  Segments.FileWrite
    (Segments.scp_line "/w/buckeye/raw" "s01-01a" 0 125);
  Segments.FileWrite
    (Segments.scp_line "/w/buckeye/raw" "s01-01a" 50 149);
  Segments.StdoutPrint (Segments.warning "s01-01a")
].

(** A working directory beside whose parent directory the two feature
    files exist, under features/wordpairs/xitsonga. *)
Definition features_in_place : Links.world :=
  Links.World
    {[ (false, [".."; "features"]) := Links.Dir;
       (false, [".."; "features"; "wordpairs"]) := Links.Dir;
       (false, [".."; "features"; "wordpairs"; "xitsonga"]) := Links.Dir;
       (false, [".."; "features"; "wordpairs"; "xitsonga";
                "xitsonga_utd_terms.mfcc.cmvn_dd.npz"]) := Links.File;
       (false, [".."; "features"; "wordpairs"; "xitsonga";
                "xitsonga.samediff.mfcc.cmvn_dd.npz"]) := Links.File ]}
    [].

(** The same with [data] a symbolic link to a directory two levels down:
    the links made in it lead elsewhere. *)
Definition data_is_a_link : Links.world :=
  Links.World
    (<[ (false, ["data"]) := Links.Symlink "deep/er/data" ]>
     (<[ (false, ["deep"]) := Links.Dir ]>
     (<[ (false, ["deep"; "er"]) := Links.Dir ]>
     (<[ (false, ["deep"; "er"; "data"]) := Links.Dir ]>
        (Links.files features_in_place)))))
    [].

(** A batch of two items of three frames of dimension 1, an encoder with
    two hidden units, a decoder with one. *)
Definition batch : Reference.array3 Z :=
  Reference.Array3 (2, 3, 1)%nat [[[1]; [2]; [3]]; [[4]; [0]; [0]]].

Definition batch_lengths : list Z := [2; 1].

Definition W_encoder : Reference.matrix Z :=
  Reference.Matrix 3 2 [[1; 0]; [0; 1]; [1; 1]].
Definition b_encoder : list Z := [0; 0].
Definition W_decoder : Reference.matrix Z :=
  Reference.Matrix 3 1 [[1]; [1]; [1]].
Definition b_decoder : list Z := [1].
Definition W_output : Reference.matrix Z := Reference.Matrix 1 1 [[5]].
Definition b_output : list Z := [7].

(** Three vectors and a codebook of four entries, two of them at the same
    distance from the third vector. *)
Definition vq_data : list (list Z) := [[0; 0]; [5; 5]; [3; 0]].
Definition vq_embeds : list (list Z) := [[4; 0]; [0; 4]; [5; 5]; [2; 0]].

(** A run of [train_siamese] with the default options on four training
    items; the world outside the script is replaced by fixed answers. *)
Definition arguments : Siamese.args :=
  Siamese.Args "data/buckeye.mfcc" 10 300 "gt" false false 1.

Definition md5_hexdigest (s : string) : string :=
  "9e107d9d372bb6826bd81d3542a419d6".

Definition repr_items (items : list (string * Siamese.pyval)) : string :=
  String.concat "," (map fst items).

Definition isdir (p : string) : bool := false.

Definition load_data_from_npz (fn : string) (a : Siamese.min_length_arg)
    : Siamese.dataset nat :=
  Siamese.Dataset [3; 4; 5; 6]%nat ["b"; "a"; "b"; "c"] [3; 4; 5; 6]
    ["k1"; "k2"; "k3"; "k4"].

Definition trunc_and_limit_dim (x : list nat) (lengths : list Z) (d : Z)
    (max_length : Siamese.pyval) : list nat * list Z := (x, lengths).

Definition train_fixed_epochs_external_val
    (c : Siamese.training_call nat) : nat := 7%nat.

Definition samediff_val (fn : string) (normalise : bool) : float * float :=
  (0.5, -0.25)%float.

(** An alignment with pauses only. *)
Definition silence_lines : list string := [
  "s01_01a 1.25 2.0 SIL";
  "s01_01a 2.0 2.5 SPN"
].

(** The header of one feature file as the length loop reads it, the last
    line of the output being empty. *)
Definition hlist_line : string :=
  "--- Source: /w/buckeye/raw/s01-01a.fbank ---   Num Comps: 40   Num Samples:   150   File Format: HTK".

Definition hlist_lines : list string := [hlist_line; ""].

(** A header of the same file with another number of frames. *)
Definition hlist_line_before : string :=
  "--- Source: /old/s01-01a.fbank ---   Num Comps: 40   Num Samples:   100   File Format: HTK".

(** An empty working directory, and one in which the training link is
    there but leads nowhere. *)
Definition bare : Links.world := Links.World ∅ [].

Definition dangling : Links.world :=
  Links.World
    {[ (false, ["data"]) := Links.Dir;
       (false, ["data"; "xitsonga.mfcc"]) := Links.Dir;
       (false, ["data"; "xitsonga.mfcc"; "train.utd.npz"])
         := Links.Symlink "nowhere.npz" ]}
    [].

(** The encoder and the decoder of above as the two layers of a
    multi-layer RNN. *)
Definition weights : list (Reference.matrix Z) := [W_encoder; W_decoder].
Definition biases : list (list Z) := [b_encoder; b_decoder].

End Samples.

(** * Theorems *)

(** ** Facts about [get_segments_scp.py] *)

Section SegmentReader.

Import Segments.

Variable py_float : string → option float.

Lemma split_from_nonempty s : ∀ cur, Forall (λ f, f ≠ "") (Py.split_from cur s).
Proof.
  assert (Hne : ∀ c cur, string_of_list_ascii (rev (c :: cur)) ≠ "").
  { intros c cur H. apply (f_equal list_ascii_of_string) in H.
    rewrite list_ascii_of_string_of_list_ascii in H. simpl in H.
    destruct (rev cur); discriminate. }
  induction s as [|c s IH]; intros cur; simpl.
  - destruct cur; constructor; [apply Hne | constructor].
  - destruct (Py.is_space c); [|apply IH].
    destruct cur; [apply IH|]. constructor; [apply Hne | apply IH].
Qed.

Lemma replace_char_nonempty a b s : s ≠ "" → Py.replace_char a b s ≠ "".
Proof. destruct s; [done | discriminate]. Qed.

Lemma parse_line_utterance line t :
  parse_line py_float line = Some t → utterance t ≠ "".
Proof.
  unfold parse_line. intros H.
  pose proof (split_from_nonempty (Py.strip line) []) as Hf.
  fold (Py.split (Py.strip line)) in Hf.
  destruct (Py.split (Py.strip line)) as [|u [|s [|e [|l [|]]]]]; try discriminate.
  destruct (py_float s) as [s'|]; [|discriminate].
  destruct (py_float e) as [e'|]; [|discriminate].
  simpl in H. injection H as <-. simpl.
  apply replace_char_nonempty. by inversion Hf.
Qed.

Lemma scan_lines_parsed lines : ∀ toks st,
  parse_file py_float lines = Some toks →
  scan_lines py_float st lines = Some (foldl scan_step st toks).
Proof.
  unfold parse_file. intros toks st H. apply mapM_Some in H.
  revert st. induction H as [|line t lines toks Hp _ IH]; intros st; [done|].
  simpl. rewrite Hp. simpl. apply IH.
Qed.

(** Runs: appending a linked token keeps a run a run. *)
Lemma chained_snoc r : ∀ p prev t,
  chained p r → last (p :: r) = Some prev → linked prev t = true →
  chained p (r ++ [t]).
Proof.
  induction r as [|a r IH]; intros p prev t Hc Hl Ht; simpl in *.
  - injection Hl as ->. done.
  - destruct Hc as [Hpa Hc]. split; [done|].
    apply (IH a prev); [done| |done].
    destruct r; exact Hl.
Qed.

Lemma run_snoc cur prev t :
  run cur → last cur = Some prev → linked prev t = true → run (cur ++ [t]).
Proof.
  destruct cur as [|a r]; [done|]. simpl. intros. by eapply chained_snoc.
Qed.

Lemma linked_utterance a b : linked a b = true → utterance a = utterance b.
Proof.
  unfold linked. intros [_ H]%andb_true_iff. by apply String.eqb_eq.
Qed.

Lemma chained_utterance r : ∀ p b,
  chained p r → last (p :: r) = Some b → utterance b = utterance p.
Proof.
  induction r as [|a r IH]; intros p b Hc Hl; simpl in *.
  - by injection Hl as ->.
  - destruct Hc as [Hpa Hc]. rewrite (linked_utterance _ _ Hpa).
    apply IH; [done|]. destruct r; exact Hl.
Qed.

Lemma run_utterance cur a b :
  run cur → head cur = Some a → last cur = Some b →
  utterance b = utterance a.
Proof.
  destruct cur as [|p r]; [done|]. simpl. intros Hc [= ->] Hl.
  by eapply chained_utterance.
Qed.

Lemma group_head ts : ∀ cur prev,
  cur ≠ [] → ∃ r rs, group cur prev ts = r :: rs ∧ head r = head cur.
Proof.
  induction ts as [|t ts IH]; intros cur prev Hne; simpl; [by eauto|].
  destruct (linked prev t); [|by eauto].
  destruct (IH (cur ++ [t]) t) as (r & rs & -> & Hh); [by destruct cur|].
  exists r, rs. split; [done|]. rewrite Hh. by destruct cur.
Qed.

(** [group] cuts the tokens into maximal runs. *)
Lemma group_maximal ts : ∀ cur prev,
  run cur → last cur = Some prev →
  maximal_runs (cur ++ ts) (group cur prev ts).
Proof.
  induction ts as [|t ts IH]; intros cur prev Hrun Hlast; simpl.
  - split; [|split]; simpl; [by rewrite !app_nil_r | by repeat constructor | done].
  - destruct (linked prev t) eqn:Hl.
    + replace (cur ++ t :: ts) with ((cur ++ [t]) ++ ts)
        by (by rewrite <- app_assoc).
      apply IH; [by eapply run_snoc | by rewrite last_snoc].
    + destruct (IH [t] t) as (Hc & Hr & Hs); [done..|].
      destruct (group_head ts [t] t) as (r & rs & Hg & Hh); [done|].
      split; [|split].
      * simpl. by rewrite Hc.
      * by constructor.
      * simpl. rewrite Hg in Hs |- *. split; [|done].
        intros a b Ha Hb. rewrite Hlast in Ha. injection Ha as <-.
        rewrite Hh in Hb. by injection Hb as <-.
Qed.

Lemma runs_maximal ts : maximal_runs ts (runs ts).
Proof.
  destruct ts as [|t ts]; [by split; [|split]; try constructor|].
  apply (group_maximal ts [t] t); done.
Qed.

Lemma chained_middle r1 : ∀ p prev t r2,
  chained p (r1 ++ t :: r2) → last (p :: r1) = Some prev →
  linked prev t = true.
Proof.
  induction r1 as [|a r1 IH]; intros p prev t r2 Hc Hl; simpl in *.
  - injection Hl as <-. tauto.
  - destruct Hc as [_ Hc]. apply (IH a prev t r2 Hc). destruct r1; exact Hl.
Qed.

Lemma run_middle cur prev t rest :
  run (cur ++ t :: rest) → last cur = Some prev → linked prev t = true.
Proof.
  destruct cur as [|p r1]; [done|]. simpl. intros. by eapply chained_middle.
Qed.

(** The maximal runs of a token list are unique: they are the ones that
    [group] computes. *)
Lemma group_unique rs : ∀ r cur prev rest,
  Forall run (r :: rs) → separated (r :: rs) →
  r = cur ++ rest → last cur = Some prev →
  group cur prev (rest ++ concat rs) = r :: rs.
Proof.
  induction rs as [|r' rs IHrs]; intros r cur prev rest Hrun Hsep -> Hlast.
  - simpl. rewrite app_nil_r. clear Hsep.
    revert cur prev Hrun Hlast.
    induction rest as [|t rest IH]; intros cur prev Hrun Hlast; simpl.
    + by rewrite app_nil_r.
    + inversion Hrun as [|? ? Hr _]; subst.
      rewrite (run_middle cur prev t rest Hr Hlast).
      rewrite (IH (cur ++ [t]) t); [by rewrite <- app_assoc | | by rewrite last_snoc].
      rewrite <- app_assoc. done.
  - revert cur prev Hrun Hsep Hlast.
    induction rest as [|t rest IH]; intros cur prev Hrun Hsep Hlast.
    + rewrite app_nil_r in *. simpl.
      inversion Hrun as [|? ? Hr Hrun']; subst.
      inversion Hrun' as [|? ? Hr' _]; subst.
      destruct r' as [|b r']; [done|]. simpl.
      destruct Hsep as [Hab Hsep].
      rewrite (Hab prev b Hlast eq_refl).
      f_equal. apply (IHrs (b :: r') [b] b r'); done.
    + inversion Hrun as [|? ? Hr Hrun']; subst. simpl.
      rewrite (run_middle cur prev t rest Hr Hlast).
      replace (cur ++ t :: rest) with ((cur ++ [t]) ++ rest) in *
        by (by rewrite <- app_assoc).
      apply IH; [done| |by rewrite last_snoc].
      simpl in Hsep |- *. destruct Hsep as [Hab Hsep]. split; [|done].
      intros a b Ha Hb. apply Hab; [|done].
      rewrite <- Ha. rewrite <- !app_assoc. simpl.
      by rewrite !last_app.
Qed.

Lemma maximal_runs_unique ts rs : maximal_runs ts rs → rs = runs ts.
Proof.
  intros (<- & Hrun & Hsep).
  destruct rs as [|r rs]; [done|].
  inversion Hrun as [|? ? Hr _]; subst.
  destruct r as [|t r]; [done|]. simpl.
  symmetry. by apply (group_unique rs (t :: r) [t] t r).
Qed.

(** The loop, entered with an open run [cur], produces the entries of the
    runs that [group] cuts. *)
Lemma scan_group ts : ∀ st cur first prev,
  head cur = Some first → last cur = Some prev → run cur →
  prev_utterance st = utterance prev →
  prev_end_time st = Py.Float (end_token prev) →
  start_time st = Py.Float (start_token first) →
  Py.ne (Py.Float (end_token prev)) (Py.Int (-1)) = true →
  Forall (λ t, Py.ne (Py.Float (end_token t)) (Py.Int (-1)) = true)
    (retained ts) →
  ∃ segs,
    Forall2 (λ r s, run_entry r = Some s) (group cur prev (retained ts)) segs
    ∧ (let st' := foldl scan_step st ts in
       segments st' ++
         [(prev_utterance st', start_time st', prev_end_time st')]
       = segments st ++ segs).
Proof.
  induction ts as [|t ts IH];
    intros st cur first prev Hh Hl Hrun Hu He Hs Hp Hok.
  - exists [(utterance first, Py.Float (start_token first),
             Py.Float (end_token prev))].
    split.
    + constructor; [|constructor]. unfold run_entry. by rewrite Hh, Hl.
    + simpl. rewrite Hu, He, Hs. by rewrite (run_utterance cur first prev).
  - unfold retained in *. simpl foldl.
    destruct (is_silence (token_label t)) eqn:Hsil.
    + rewrite filter_cons_False in * by (by rewrite Hsil).
      unfold scan_step at 2 4 6 8. rewrite Hsil. by eapply IH.
    + rewrite filter_cons_True in * by done.
      inversion Hok as [|? ? Ht Hok']; subst.
      assert (Hb : (Py.ne (prev_end_time st) (Py.Float (start_token t))
                 || negb (String.eqb (prev_utterance st) (utterance t)))%bool
                 = negb (linked prev t)).
      { unfold linked. rewrite He, Hu.
        by rewrite negb_andb, negb_involutive. }
      simpl group. destruct (linked prev t) eqn:Hlk.
      * destruct (IH (scan_step st t) (cur ++ [t]) first t)
          as (segs & HF & Heq); try done.
        -- by destruct cur.
        -- by rewrite last_snoc.
        -- by eapply run_snoc.
        -- unfold scan_step. by rewrite Hsil.
        -- unfold scan_step. by rewrite Hsil.
        -- unfold scan_step. rewrite Hsil. simpl. by rewrite Hb.
        -- exists segs. split; [done|]. simpl. simpl in Heq. rewrite Heq.
           unfold scan_step. rewrite Hsil. simpl. by rewrite Hb.
      * destruct (IH (scan_step st t) [t] t t) as (segs & HF & Heq); try done.
        -- unfold scan_step. by rewrite Hsil.
        -- unfold scan_step. by rewrite Hsil.
        -- unfold scan_step. rewrite Hsil. simpl. by rewrite Hb.
        -- exists ((utterance first, Py.Float (start_token first),
                    Py.Float (end_token prev)) :: segs).
           split.
           ++ constructor; [|done]. unfold run_entry. by rewrite Hh, Hl.
           ++ simpl. simpl in Heq. rewrite Heq.
              unfold scan_step. rewrite Hsil. simpl. rewrite Hb. simpl.
              rewrite He, Hp, Hu, Hs, <- app_assoc. simpl.
              by rewrite (run_utterance cur first prev).
Qed.

(** From the initial state the loop skips silence up to the first retained
    token, which opens the first run. *)
Lemma scan_runs ts :
  Forall (λ t, utterance t ≠ "") ts →
  retained ts ≠ [] →
  Forall (λ t, Py.ne (Py.Float (end_token t)) (Py.Int (-1)) = true)
    (retained ts) →
  ∃ segs,
    Forall2 (λ r s, run_entry r = Some s) (runs (retained ts)) segs
    ∧ (let st' := foldl scan_step scan_init ts in
       segments st' ++
         [(prev_utterance st', start_time st', prev_end_time st')] = segs).
Proof.
  induction ts as [|t ts IH]; intros Hu Hne Hok; [done|].
  inversion Hu as [|? ? Hut Hu']; subst.
  unfold retained in *. simpl foldl.
  destruct (is_silence (token_label t)) eqn:Hsil.
  - rewrite filter_cons_False in * by (by rewrite Hsil).
    unfold scan_step at 2 4 6 8. rewrite Hsil. by apply IH.
  - rewrite filter_cons_True in * by done.
    inversion Hok as [|? ? Ht Hok']; subst.
    assert (Hst : scan_step scan_init t =
      Scan [] (utterance t) (token_label t) (Py.Float (end_token t))
        (Py.Float (start_token t))).
    { unfold scan_step. rewrite Hsil. simpl.
      destruct (utterance t); [done|]. by rewrite orb_true_r. }
    rewrite Hst.
    destruct (scan_group ts
      (Scan [] (utterance t) (token_label t) (Py.Float (end_token t))
         (Py.Float (start_token t))) [t] t t) as (segs & HF & Heq); try done.
    exists segs. split; [exact HF|]. exact Heq.
Qed.

(** C6: for a forced-alignment file with a retained token, the segment
    list has exactly one entry per maximal run of retained tokens that are
    contiguous in time inside one utterance (underscores already replaced by
    hyphens), namely (utterance, start of the first token, end of the last
    token). Times are those of an alignment: no end time is the sentinel
    [-1] of the loop. *)
Theorem segments_are_maximal_runs lines toks :
  parse_file py_float lines = Some toks →
  retained toks ≠ [] →
  Forall (λ t, Py.ne (Py.Float (end_token t)) (Py.Int (-1)) = true)
    (retained toks) →
  ∃ rs segs,
    maximal_runs (retained toks) rs
    ∧ (∀ rs', maximal_runs (retained toks) rs' → rs' = rs)
    ∧ read_segments py_float lines = Some segs
    ∧ Forall2 (λ r s, run_entry r = Some s) rs segs.
Proof.
  intros Hparse Hne Hok.
  assert (Hu : Forall (λ t, utterance t ≠ "") toks).
  { clear Hne Hok. unfold parse_file in Hparse. apply mapM_Some in Hparse.
    induction Hparse as [|l t ls ts Hl _ IH]; constructor; [|done].
    by eapply parse_line_utterance. }
  destruct (scan_runs toks Hu Hne Hok) as (segs & HF & Heq).
  exists (runs (retained toks)), segs.
  split; [apply runs_maximal|].
  split; [apply maximal_runs_unique|]. split; [|done].
  unfold read_segments. rewrite (scan_lines_parsed lines toks) by done.
  simpl. simpl in Heq. by rewrite Heq.
Qed.

End SegmentReader.

Section SegmentWriter.

Import Segments.

Lemma append_cons c (a b : string) : String c a +:+ b = String c (a +:+ b).
Proof. reflexivity. Qed.

Lemma append_assoc (a b c : string) : (a +:+ b) +:+ c = a +:+ (b +:+ c).
Proof. induction a; [done|]. rewrite !append_cons. congruence. Qed.

Lemma append_nil_r (a : string) : a +:+ "" = a.
Proof. induction a; [done|]. rewrite append_cons. congruence. Qed.

Lemma length_append (a b : string) :
  String.length (a +:+ b) = (String.length a + String.length b)%nat.
Proof. induction a; [done|]. rewrite append_cons. simpl. congruence. Qed.

Lemma length_zeros k : String.length (Py.zeros k) = k.
Proof. induction k; simpl; congruence. Qed.

Lemma write_list_from segs : ∀ f,
  foldl (λ f s, f +:+ list_line s) f segs
  = f +:+ lines_text (map list_line segs).
Proof.
  induction segs as [|s segs IH]; intros f; simpl.
  - by rewrite append_nil_r.
  - by rewrite IH, append_assoc.
Qed.

Lemma digits_fuel_length fuel : ∀ (k : nat) n acc,
  (n < 10 ^ N.of_nat (S k))%N →
  (String.length (Py.digits_fuel fuel n acc) ≤ S k + String.length acc)%nat.
Proof.
  induction fuel as [|fuel IH]; intros k n acc Hn; simpl; [lia|].
  destruct (N.ltb_spec n 10); simpl; [lia|].
  destruct k as [|k]; [simpl in Hn; lia|].
  assert (n / 10 < 10 ^ N.of_nat (S k))%N.
  { apply N.Div0.div_lt_upper_bound.
    replace (N.of_nat (S (S k))) with (N.succ (N.of_nat (S k))) in Hn by lia.
    by rewrite N.pow_succ_r' in Hn. }
  specialize (IH k (n / 10)%N (String (Py.digit (n mod 10)) acc)).
  simpl in IH. lia.
Qed.

Lemma digits_fuel_nonempty fuel n acc :
  (1 ≤ String.length (Py.digits_fuel (S fuel) n acc))%nat.
Proof.
  revert n acc. induction fuel as [|fuel IH]; intros n acc.
  - simpl. destruct (n <? 10)%N; simpl; lia.
  - change (Py.digits_fuel (S (S fuel)) n acc) with
      (let acc' := String (Py.digit (n mod 10)) acc in
       if (n <? 10)%N then acc' else Py.digits_fuel (S fuel) (n / 10) acc').
    simpl. destruct (n <? 10)%N; [simpl; lia | apply IH].
Qed.

(** A frame number below a million is printed by [%06d] on exactly six
    characters. *)
Lemma fmt_06d_length z :
  0 ≤ z < 1000000 → String.length (Py.fmt_06d z) = 6%nat.
Proof.
  intros Hz. unfold Py.fmt_06d.
  destruct (Z.ltb_spec z 0); [lia|].
  rewrite length_append, length_zeros.
  assert (String.length (Py.digits (Z.abs_N z)) ≤ 6)%nat; [|lia].
  unfold Py.digits.
  pose proof (digits_fuel_length (S (N.to_nat (N.log2 (Z.abs_N z)))) 5
                (Z.abs_N z) "") as H'.
  simpl String.length in H'. rewrite Nat.add_0_r in H'. apply H'.
  change (10 ^ N.of_nat 6)%N with 1000000%N. lia.
Qed.

Lemma fmt_06d_nonneg z :
  0 ≤ z →
  Py.fmt_06d z = Py.zeros (6 - String.length (Py.str_int z)) +:+ Py.str_int z.
Proof.
  intros Hz. unfold Py.fmt_06d, Py.str_int.
  by destruct (Z.ltb_spec z 0); [lia|].
Qed.

Lemma endswith_slash_append a c b :
  Py.endswith_slash (a +:+ String c b) = Py.endswith_slash (String c b).
Proof.
  induction a as [|x a IH]; [done|].
  change (String x a +:+ String c b) with (String x (a +:+ String c b)).
  simpl. destruct (a +:+ String c b) eqn:E.
  - destruct a; discriminate.
  - rewrite <- E at 1. rewrite <- E in IH. exact IH.
Qed.

(** Inside a directory that is not written with a final slash, a relative
    name is joined with one separator. *)
Lemma path_join_relative a b :
  a ≠ "" → Py.endswith_slash a = false → Py.startswith_slash b = false →
  Py.path_join a b = a +:+ "/" +:+ b.
Proof.
  intros Ha He Hb. unfold Py.path_join. rewrite Hb, He.
  destruct a; [done|]. done.
Qed.

(** What the SCP loop does with one segment. *)
Lemma scp_step_cases feat_dir lengths b st en o :
  scp_step feat_dir lengths (b, st, en) = Some o →
  ∃ s e len,
    frame st = Some s ∧ frame en = Some e ∧ lengths !! b = Some len
    ∧ o = (if ((len <? e) && (len <? s))%bool then StdoutPrint (warning b)
           else FileWrite (scp_line feat_dir b s
                         (if len <? e then len - 1 else e))).
Proof.
  unfold scp_step. intros H.
  destruct (frame st) as [s|]; [|done].
  destruct (frame en) as [e|]; [|done].
  destruct (lengths !! b) as [len|]; [|done]. simpl in H.
  exists s, e, len. repeat split.
  destruct (len <? e), (len <? s); simpl; congruence.
Qed.

Lemma write_scp_Forall2 feat_dir lengths segs : ∀ out,
  write_scp feat_dir lengths segs = Some out →
  Forall2 (λ seg o, scp_step feat_dir lengths seg = Some o) segs out.
Proof.
  induction segs as [|seg segs IH]; intros out H; simpl in H.
  - injection H as <-. constructor.
  - destruct (scp_step feat_dir lengths seg) as [o|] eqn:Ho; [|done].
    simpl in H.
    destruct (write_scp feat_dir lengths segs) as [os|]; [|done].
    simpl in H. injection H as <-. constructor; [done | by apply IH].
Qed.

(** C7, as the code has it: [segments.list] holds one line
    "utterance start end" per segment; the SCP file holds one line per
    segment that is not skipped, of the form
    basename_SSSSSS-EEEEEE.fbank=<feat_dir>/basename.fbank[start,end], where
    start is the start time multiplied by 100 and rounded, and end is the
    end time multiplied by 100 and rounded unless that exceeds
    lengths[basename], in which case end is lengths[basename] - 1; both are
    zero-padded to six characters in the label. *)
Theorem list_and_scp_lines feat_dir lengths segs :
  write_list segs
    = lines_text
        (map (λ '(utt, start, end_),
                utt +:+ " " +:+ Py.str start +:+ " " +:+ Py.str end_
                  +:+ String "010" "") segs)
  ∧ (∀ out, write_scp feat_dir lengths segs = Some out →
      Forall2 (λ '(b, st, en) o, ∃ s e len,
        frame st = Some s ∧ frame en = Some e ∧ lengths !! b = Some len ∧
        let e' := if len <? e then len - 1 else e in
        o = (if ((len <? e) && (len <? s))%bool then StdoutPrint (warning b)
             else FileWrite
               (b +:+ "_" +:+ Py.fmt_06d s +:+ "-" +:+ Py.fmt_06d e'
                  +:+ ".fbank" +:+ "="
                  +:+ Py.path_join feat_dir (b +:+ ".fbank")
                  +:+ "[" +:+ Py.str_int s +:+ "," +:+ Py.str_int e' +:+ "]"
                  +:+ String "010" ""))) segs out)
  ∧ (∀ b, feat_dir ≠ "" → Py.endswith_slash feat_dir = false →
          Py.startswith_slash b = false →
          Py.path_join feat_dir (b +:+ ".fbank")
            = feat_dir +:+ "/" +:+ b +:+ ".fbank")
  ∧ (∀ z, 0 ≤ z < 1000000 →
          String.length (Py.fmt_06d z) = 6%nat
          ∧ Py.fmt_06d z
              = Py.zeros (6 - String.length (Py.str_int z)) +:+ Py.str_int z).
Proof.
  split; [|split; [|split]].
  - unfold write_list. by rewrite write_list_from.
  - intros out H. apply write_scp_Forall2 in H.
    eapply Forall2_impl; [exact H|].
    intros [[b st] en] o Ho.
    destruct (scp_step_cases _ _ _ _ _ _ Ho) as (s & e & len & ? & ? & ? & ->).
    exists s, e, len. repeat split; try done.
    unfold scp_line. by rewrite !append_assoc.
  - intros b Hne He Hb. apply path_join_relative; [done..|].
    by destruct b.
  - intros z Hz. split; [by apply fmt_06d_length | apply fmt_06d_nonneg; lia].
Qed.

(** C7, as stated, fails where the code truncates: the segment from 0.5 s
    to 2.0 s of an utterance of 150 frames is written with end 149, while
    its end time multiplied by 100 and rounded is 200. *)
Lemma scp_end_is_not_always_the_rounded_time :
  ¬ (∀ feat_dir lengths b st en s e text,
       write_scp feat_dir lengths [(b, st, en)] = Some [FileWrite text] →
       frame st = Some s → frame en = Some e →
       text = scp_line feat_dir b s e).
Proof.
  intros H.
  specialize (H "/w/buckeye/raw" {[ "s01" := 150 ]} "s01"
    (Py.Float 0.5%float) (Py.Float 2%float) 50 200
    (scp_line "/w/buckeye/raw" "s01" 50 149)).
  assert (write_scp "/w/buckeye/raw" {[ "s01" := 150 ]}
            [("s01", Py.Float 0.5%float, Py.Float 2%float)]
          = Some [FileWrite (scp_line "/w/buckeye/raw" "s01" 50 149)]) as Hw
    by (vm_compute; reflexivity).
  specialize (H Hw).
  assert (frame (Py.Float 0.5%float) = Some 50) as H1 by (vm_compute; reflexivity).
  assert (frame (Py.Float 2%float) = Some 200) as H2 by (vm_compute; reflexivity).
  specialize (H H1 H2). vm_compute in H. discriminate H.
Qed.

(** C8: every line written to the SCP file has end <= lengths[basename]; a
    segment whose start frame exceeds lengths[basename] is skipped with the
    truncation warning, and one whose end frame exceeds lengths[basename]
    while its start frame does not is written with end lengths[basename] - 1.
    Segments are intervals: the start frame is not after the end frame. *)
Theorem scp_end_within_length feat_dir lengths segs out :
  write_scp feat_dir lengths segs = Some out →
  Forall (λ '(b, st, en), ∀ s e,
            frame st = Some s → frame en = Some e → s ≤ e) segs →
  Forall2 (λ '(b, st, en) o, ∃ s e len,
    frame st = Some s ∧ frame en = Some e ∧ lengths !! b = Some len
    ∧ (len < s → o = StdoutPrint (warning b))
    ∧ (s ≤ len < e → o = FileWrite (scp_line feat_dir b s (len - 1)))
    ∧ (e ≤ len → o = FileWrite (scp_line feat_dir b s e))
    ∧ (∀ text, o = FileWrite text →
         ∃ e', e' ≤ len ∧ text = scp_line feat_dir b s e')) segs out.
Proof.
  intros H Hord. apply write_scp_Forall2 in H.
  induction H as [|[[b st] en] o segs out Ho _ IH]; [constructor|].
  inversion Hord as [|? ? Hse Hord']; subst.
  constructor; [|by apply IH].
  destruct (scp_step_cases _ _ _ _ _ _ Ho) as (s & e & len & Hs & He & Hl & ->).
  specialize (Hse s e Hs He).
  exists s, e, len. repeat split; try done.
  - intros Hls.
    destruct (Z.ltb_spec len e), (Z.ltb_spec len s); simpl; try done; lia.
  - intros [Hsl Hle].
    destruct (Z.ltb_spec len e), (Z.ltb_spec len s); simpl; try done; lia.
  - intros Hel.
    destruct (Z.ltb_spec len e), (Z.ltb_spec len s); simpl; try done; lia.
  - intros text.
    destruct (Z.ltb_spec len e), (Z.ltb_spec len s); simpl; try done;
      intros [= <-]; eexists; (split; [|reflexivity]); lia.
Qed.

End SegmentWriter.

(** ** Facts about [link_xitsonga_mfcc.py] *)

Section LinkScript.

Import Links.

Lemma node_at_mono (fs fs' : gmap path node) (p : path) (x : node) :
  fs ⊆ fs' → node_at fs p = Some x → node_at fs' p = Some x.
Proof.
  unfold node_at. intros Hsub. destruct (forallb _ _); [auto|].
  intros Hx. by eapply lookup_weaken.
Qed.

Lemma node_at_None (fs : gmap path node) (p : path) :
  node_at fs p = None → fs !! p = None.
Proof. unfold node_at. by destruct (forallb _ _). Qed.

Lemma node_at_insert (fs : gmap path node) (p : path) (x : node) :
  node_at fs p = None → node_at (<[p := x]> fs) p = Some x.
Proof.
  unfold node_at. destruct (forallb _ _); [discriminate|].
  intros _. apply lookup_insert_eq.
Qed.

Lemma node_at_insert_ne (fs : gmap path node) (p q : path) (x y : node) :
  node_at fs p = None → node_at fs q = Some y →
  node_at (<[p := x]> fs) q = Some y.
Proof.
  intros Hp Hq. apply (node_at_mono fs); [|exact Hq].
  apply insert_subseteq. by apply node_at_None.
Qed.

(** One round of resolution gives the same place in a larger file system,
    when it ends on something that is there. *)
Lemma steps_mono (fs fs' : gmap path node) (follow : bool)
    (next next' : path → list string → errno + path) :
  fs ⊆ fs' →
  (∀ cur comps p x, next cur comps = inr p → node_at fs p = Some x →
                    next' cur comps = inr p) →
  ∀ (comps : list string) (cur p : path) (x : node),
    steps fs follow next cur comps = inr p → node_at fs p = Some x →
    steps fs' follow next' cur comps = inr p.
Proof.
  intros Hsub Hnext. induction comps as [|c rest IH]; intros cur p x;
    [by intros ? ?|].
  simpl. destruct (String.eqb c "" || String.eqb c ".")%bool; [apply IH|].
  destruct (String.eqb c ".."); [apply IH|].
  destruct (node_at fs (down cur c)) as [[| |t]|] eqn:Hc.
  - rewrite (node_at_mono _ _ _ _ Hsub Hc). apply IH.
  - rewrite (node_at_mono _ _ _ _ Hsub Hc). destruct rest; [auto|discriminate].
  - rewrite (node_at_mono _ _ _ _ Hsub Hc).
    destruct rest as [|c' rest'], follow; try apply Hnext. auto.
  - destruct (forallb _ rest); [|discriminate].
    intros [= <-] Hx. congruence.
Qed.

Lemma walk_mono (links : nat) : ∀ (fs fs' : gmap path node) (follow : bool)
    (cur : path) (comps : list string) (p : path) (x : node),
  fs ⊆ fs' →
  walk links fs follow cur comps = inr p → node_at fs p = Some x →
  walk links fs' follow cur comps = inr p.
Proof.
  induction links as [|l IH]; intros fs fs' follow cur comps p x Hsub;
    simpl; apply steps_mono; try assumption.
  - discriminate.
  - intros cur' comps' p' x'. by apply IH.
Qed.

Lemma resolve_mono (fs fs' : gmap path node) (follow : bool) (s : string)
    (p : path) (x : node) :
  fs ⊆ fs' →
  resolve fs follow s = inr p → node_at fs p = Some x →
  resolve fs' follow s = inr p.
Proof.
  unfold resolve. intros Hsub. destruct (String.eqb s ""); [discriminate|].
  by apply walk_mono.
Qed.

(** What a path leads to is not changed by new entries elsewhere. *)
Lemma stat_mono (w w' : world) (s : string) (x : node) :
  files w ⊆ files w' → stat w s = Some x → stat w' s = Some x.
Proof.
  unfold stat. intros Hsub.
  destruct (resolve (files w) true s) as [e|p] eqn:Hr; [discriminate|].
  intros Hx. rewrite (resolve_mono _ _ _ _ _ _ Hsub Hr Hx).
  by apply (node_at_mono (files w)).
Qed.

Lemma lstat_mono (w w' : world) (s : string) (x : node) :
  files w ⊆ files w' → lstat w s = Some x → lstat w' s = Some x.
Proof.
  unfold lstat. intros Hsub.
  destruct (resolve (files w) false s) as [e|p] eqn:Hr; [discriminate|].
  intros Hx. rewrite (resolve_mono _ _ _ _ _ _ Hsub Hr Hx).
  by apply (node_at_mono (files w)).
Qed.

Lemma isdir_mono (w w' : world) (s : string) :
  files w ⊆ files w' → isdir w s = true → isdir w' s = true.
Proof.
  unfold isdir. intros Hsub. destruct (stat w s) as [x|] eqn:Hs;
    [|discriminate].
  by rewrite (stat_mono _ _ _ _ Hsub Hs).
Qed.

Lemma isfile_mono (w w' : world) (s : string) :
  files w ⊆ files w' → isfile w s = true → isfile w' s = true.
Proof.
  unfold isfile. intros Hsub. destruct (stat w s) as [x|] eqn:Hs;
    [|discriminate].
  by rewrite (stat_mono _ _ _ _ Hsub Hs).
Qed.

Lemma lexists_mono (w w' : world) (s : string) :
  files w ⊆ files w' → lexists w s = true → lexists w' s = true.
Proof.
  unfold lexists. intros Hsub. destruct (lstat w s) as [x|] eqn:Hs;
    [|discriminate].
  by rewrite (lstat_mono _ _ _ _ Hsub Hs).
Qed.

Lemma steps_empties (fs : gmap path node) (follow : bool)
    (next : path → list string → errno + path) (cur : path)
    (rest : list string) :
  forallb (String.eqb "") rest = true →
  steps fs follow next cur rest = inr cur.
Proof.
  induction rest as [|c rest IH]; [reflexivity|].
  destruct c as [|a c]; [|discriminate]. simpl. apply IH.
Qed.

Lemma empties_last (l : list string) :
  forallb (String.eqb "") l = true → l ≠ [] → last l = Some "".
Proof.
  induction l as [|c l IH]; [done|].
  destruct c as [|a c]; [|discriminate]. simpl. intros Hl _.
  destruct l as [|c' l']; [reflexivity|]. by apply IH.
Qed.

(** A directory made where a path led to nothing: the path now leads to
    it, whether the last link is followed or not. *)
Lemma steps_fresh_dir (fs : gmap path node) (q : path) (follow' : bool)
    (next next' : path → list string → errno + path) :
  node_at fs q = None →
  (∀ cur comps, next cur comps = inr q → next' cur comps = inr q) →
  ∀ (comps : list string) (cur : path),
    steps fs false next cur comps = inr q →
    steps (<[q := Dir]> fs) follow' next' cur comps = inr q.
Proof.
  intros Hq Hnext. induction comps as [|c rest IH]; intros cur; [auto|].
  simpl. destruct (String.eqb c "" || String.eqb c ".")%bool; [apply IH|].
  destruct (String.eqb c ".."); [apply IH|].
  destruct (node_at fs (down cur c)) as [[| |t]|] eqn:Hc.
  - rewrite (node_at_insert_ne _ _ _ Dir _ Hq Hc). apply IH.
  - destruct rest; [|discriminate]. intros [= Heq]. rewrite Heq in Hc. congruence.
  - rewrite (node_at_insert_ne _ _ _ Dir _ Hq Hc).
    destruct rest as [|c' rest']; [intros [= Heq]; rewrite Heq in Hc; congruence|].
    destruct follow'; apply Hnext.
  - destruct (forallb _ rest) eqn:Hrest; [|discriminate].
    intros [= Heq]. rewrite Heq. rewrite (node_at_insert _ _ Dir Hq).
    rewrite <- Heq. by apply steps_empties.
Qed.

Lemma walk_fresh_dir (links : nat) : ∀ (fs : gmap path node) (q : path)
    (follow' : bool) (cur : path) (comps : list string),
  node_at fs q = None →
  walk links fs false cur comps = inr q →
  walk links (<[q := Dir]> fs) follow' cur comps = inr q.
Proof.
  induction links as [|l IH]; intros fs q follow' cur comps Hq; simpl;
    apply steps_fresh_dir; try assumption.
  - discriminate.
  - intros cur' comps'. by apply IH.
Qed.

(** A link made where a path led to nothing: the path, which does not end
    in a slash, now names the link. *)
Lemma steps_fresh_link (fs : gmap path node) (q : path) (target : string)
    (next next' : path → list string → errno + path) :
  node_at fs q = None →
  (∀ cur comps, last comps ≠ Some "" → next cur comps = inr q →
                next' cur comps = inr q) →
  ∀ (comps : list string) (cur : path),
    last comps ≠ Some "" →
    steps fs false next cur comps = inr q →
    steps (<[q := Symlink target]> fs) false next' cur comps = inr q.
Proof.
  intros Hq Hnext. induction comps as [|c rest IH]; intros cur Hlast;
    [auto|].
  assert (Hrest : rest ≠ [] → last rest ≠ Some "").
  { intros Hne. destruct rest as [|c' rest']; [done|]. exact Hlast. }
  simpl. destruct (String.eqb c "" || String.eqb c ".")%bool eqn:Hdot.
  { destruct rest as [|c' rest']; [|apply IH; by apply Hrest].
    simpl. auto. }
  destruct (String.eqb c "..").
  { destruct rest as [|c' rest']; [|apply IH; by apply Hrest].
    simpl. auto. }
  destruct (node_at fs (down cur c)) as [[| |t]|] eqn:Hc.
  - rewrite (node_at_insert_ne _ _ _ (Symlink target) _ Hq Hc).
    destruct rest as [|c' rest']; [|apply IH; by apply Hrest].
    simpl. auto.
  - destruct rest; [|discriminate]. intros [= Heq]. rewrite Heq in Hc. congruence.
  - rewrite (node_at_insert_ne _ _ _ (Symlink target) _ Hq Hc).
    destruct rest as [|c' rest']; [intros [= Heq]; rewrite Heq in Hc; congruence|].
    apply Hnext. rewrite last_app.
    pose proof (Hrest ltac:(discriminate)) as Hr.
    destruct (last (c' :: rest')) eqn:Hl; [exact Hr|].
    by apply last_None in Hl.
  - destruct (forallb _ rest) eqn:Hrest'; [|discriminate].
    intros [= Heq]. rewrite Heq.
    rewrite (node_at_insert _ _ (Symlink target) Hq).
    destruct rest as [|c' rest']; [reflexivity|]. exfalso.
    apply Hlast. by apply (empties_last (c' :: rest')).
Qed.

Lemma walk_fresh_link (links : nat) : ∀ (fs : gmap path node) (q : path)
    (target : string) (cur : path) (comps : list string),
  node_at fs q = None → last comps ≠ Some "" →
  walk links fs false cur comps = inr q →
  walk links (<[q := Symlink target]> fs) false cur comps = inr q.
Proof.
  induction links as [|l IH]; intros fs q target cur comps Hq Hlast; simpl;
    apply steps_fresh_link; try assumption.
  - discriminate.
  - intros cur' comps' Hl'. by apply IH.
Qed.

(** Where a path leads to something, it names something. *)
Lemma steps_named (fs : gmap path node)
    (next next' : path → list string → errno + path) :
  (∀ cur comps p x, next cur comps = inr p → node_at fs p = Some x →
                    ∃ q y, next' cur comps = inr q ∧ node_at fs q = Some y) →
  ∀ (comps : list string) (cur p : path) (x : node),
    steps fs true next cur comps = inr p → node_at fs p = Some x →
    ∃ q y, steps fs false next' cur comps = inr q ∧ node_at fs q = Some y.
Proof.
  intros Hnext. induction comps as [|c rest IH]; intros cur p x.
  { simpl. intros [= <-] Hx. by exists cur, x. }
  simpl. destruct (String.eqb c "" || String.eqb c ".")%bool; [apply IH|].
  destruct (String.eqb c ".."); [apply IH|].
  destruct (node_at fs (down cur c)) as [[| |t]|] eqn:Hc.
  - apply IH.
  - destruct rest; [|discriminate]. intros [= <-] Hx.
    by exists (down cur c), x.
  - destruct rest as [|c' rest']; [|apply Hnext].
    intros _ _. by exists (down cur c), (Symlink t).
  - destruct (forallb _ rest); [|discriminate].
    intros [= <-] Hx. congruence.
Qed.

Lemma walk_named (links : nat) : ∀ (fs : gmap path node) (cur : path)
    (comps : list string) (p : path) (x : node),
  walk links fs true cur comps = inr p → node_at fs p = Some x →
  ∃ q y, walk links fs false cur comps = inr q ∧ node_at fs q = Some y.
Proof.
  induction links as [|l IH]; intros fs cur comps p x; simpl;
    apply steps_named.
  - discriminate.
  - intros cur' comps' p' x'. by apply IH.
Qed.

Lemma exists_lexists (w : world) (s : string) (x : node) :
  stat w s = Some x → lexists w s = true.
Proof.
  unfold stat, lexists, lstat, resolve.
  destruct (String.eqb s ""); [discriminate|].
  destruct (walk maxlinks (files w) true _ _) as [e|p] eqn:Hw;
    [discriminate|].
  intros Hx. destruct (walk_named _ _ _ _ _ _ Hw Hx) as (q & y & -> & ->).
  reflexivity.
Qed.

Lemma split_slash_cons (s : string) : ∀ cur, split_slash cur s ≠ [].
Proof.
  induction s as [|c s IH]; intros cur; simpl; [discriminate|].
  destruct (Ascii.eqb c "/"); [discriminate | apply IH].
Qed.

Lemma split_slash_last (s : string) : ∀ cur,
  last (split_slash cur s) = Some "" →
  (cur = [] ∧ s = "") ∨ Py.endswith_slash s = true.
Proof.
  induction s as [|c s IH]; intros cur; simpl.
  - intros [= Hc]. left. split; [|reflexivity].
    destruct (rev cur) as [|a l] eqn:Hrev; [|discriminate Hc].
    by apply (f_equal (@rev ascii)) in Hrev; rewrite rev_involutive in Hrev.
  - assert (Hend : Py.endswith_slash s = true →
                   match s with
                   | "" => Ascii.eqb c "/"
                   | String _ _ => Py.endswith_slash s
                   end = true).
    { destruct s; [discriminate | auto]. }
    destruct (Ascii.eqb c "/") eqn:Hc.
    + pose proof (split_slash_cons s []) as Hne.
      destruct (split_slash [] s) as [|x l] eqn:Hs; [done|].
      change (last (string_of_list_ascii (rev cur) :: x :: l))
        with (last (x :: l)).
      intros Hl. right. destruct (IH [] ltac:(by rewrite Hs)) as [[_ ->]|He];
        [reflexivity | by apply Hend].
    + intros Hl. right. destruct (IH _ Hl) as [[Habs _]|He];
        [discriminate | by apply Hend].
Qed.

Lemma resolve_fresh_dir (fs : gmap path node) (q : path) (follow' : bool)
    (s : string) :
  node_at fs q = None → resolve fs false s = inr q →
  resolve (<[q := Dir]> fs) follow' s = inr q.
Proof.
  unfold resolve. destruct (String.eqb s ""); [discriminate|].
  apply walk_fresh_dir.
Qed.

Lemma resolve_fresh_link (fs : gmap path node) (q : path)
    (target s : string) :
  node_at fs q = None → Py.endswith_slash s = false →
  resolve fs false s = inr q →
  resolve (<[q := Symlink target]> fs) false s = inr q.
Proof.
  unfold resolve. intros Hq Hend.
  destruct (String.eqb_spec s "") as [|Hne]; [discriminate|].
  apply walk_fresh_link; [exact Hq|].
  intros Hl. apply split_slash_last in Hl as [[_ ->]|Hl]; [done|].
  congruence.
Qed.

Lemma grows_refl (w : world) : grows w w [].
Proof. split; [reflexivity | by rewrite app_nil_r]. Qed.

Lemma grows_trans (w1 w2 w3 : world) (n1 n2 : list event) :
  grows w1 w2 n1 → grows w2 w3 n2 → grows w1 w3 (n1 ++ n2).
Proof.
  intros [F1 L1] [F2 L2]. split; [by etrans|].
  by rewrite L2, L1, <- app_assoc.
Qed.

Lemma no_links_app (n1 n2 : list event) :
  no_links n1 → no_links n2 → no_links (n1 ++ n2).
Proof.
  intros H1 H2 t p Hin. apply elem_of_app in Hin as [Hin|Hin];
    [by eapply H1 | by eapply H2].
Qed.

Lemma no_links_nil : no_links [].
Proof. intros t p Hin. by apply elem_of_nil in Hin. Qed.

Lemma mkdir_grows (w : world) (s : string) (w' : world) (e : option errno) :
  mkdir w s = (w', e) → ∃ new, grows w w' new ∧ no_links new.
Proof.
  unfold mkdir. destruct (resolve (files w) false s) as [err|p].
  { intros [= <- <-]. exists []. split; [apply grows_refl | apply no_links_nil]. }
  destruct (node_at (files w) p) eqn:Hp.
  { intros [= <- <-]. exists []. split; [apply grows_refl | apply no_links_nil]. }
  intros [= <- <-]. exists [MadeDir p]. split.
  - split; [|reflexivity]. simpl. apply insert_subseteq.
    by apply node_at_None.
  - intros t q Hin. apply list_elem_of_singleton in Hin. discriminate Hin.
Qed.

(** A directory that [os.mkdir] made is a directory. *)
Lemma mkdir_isdir (w : world) (s : string) (w' : world) :
  mkdir w s = (w', None) → isdir w' s = true.
Proof.
  unfold mkdir, isdir, stat.
  destruct (resolve (files w) false s) as [err|p] eqn:Hr; [discriminate|].
  destruct (node_at (files w) p) eqn:Hp; [discriminate|].
  intros [= <-]. cbn [files].
  rewrite (resolve_fresh_dir _ _ true _ Hp Hr).
  by rewrite (node_at_insert _ _ Dir Hp).
Qed.

Lemma makedirs_from_grows (fuel : nat) : ∀ (w : world) (name : string)
    (w' : world) (e : option errno),
  makedirs_from fuel w name = (w', e) → ∃ new, grows w w' new ∧ no_links new.
Proof.
  induction fuel as [|fuel IH]; intros w name w' e; simpl.
  { intros [= <- <-]. exists []. split; [apply grows_refl | apply no_links_nil]. }
  destruct (if String.eqb (Py.path_tail name) "" then _ else _)
    as [head tail].
  destruct (negb (String.eqb head "") && negb (String.eqb tail "")
            && negb (exists_ w head))%bool; [|apply mkdir_grows].
  destruct (makedirs_from fuel w head) as [w1 e1] eqn:Hhead.
  destruct (IH _ _ _ _ Hhead) as (n1 & Hg1 & Hn1).
  assert (Hrest : (if String.eqb tail "." then (w1, None)
                   else mkdir w1 name) = (w', e) →
                  ∃ new, grows w w' new ∧ no_links new).
  { destruct (String.eqb tail ".").
    - intros [= <- <-]. by exists n1.
    - intros Hm. destruct (mkdir_grows _ _ _ _ Hm) as (n2 & Hg2 & Hn2).
      exists (n1 ++ n2). split; [by eapply grows_trans|].
      by apply no_links_app. }
  destruct e1 as [[| | |]|]; try exact Hrest;
    intros [= <- <-]; by exists n1.
Qed.

(** When [os.makedirs] returns on a path with a last component other than
    [.], its last step is the [os.mkdir] of the path. *)
Lemma makedirs_from_last (fuel : nat) (w : world) (name : string)
    (w' : world) :
  makedirs_from fuel w name = (w', None) →
  Py.path_tail name ≠ "" → Py.path_tail name ≠ "." →
  ∃ w'', mkdir w'' name = (w', None).
Proof.
  destruct fuel as [|fuel]; simpl; [discriminate|].
  intros Hrun Hne Hdot.
  destruct (String.eqb_spec (Py.path_tail name) "") as [|_]; [done|].
  destruct (negb (String.eqb (Py.path_head name) "")
            && negb (String.eqb (Py.path_tail name) "")
            && negb (exists_ w (Py.path_head name)))%bool;
    [|by exists w].
  destruct (makedirs_from fuel w (Py.path_head name)) as [w1 e1].
  destruct (String.eqb_spec (Py.path_tail name) ".") as [|_]; [done|].
  destruct e1 as [[| | |]|]; try discriminate Hrun; by exists w1.
Qed.

Lemma symlink_grows (w : world) (target link : string) (w' : world)
    (e : option errno) :
  symlink w target link = (w', e) → ∃ new, grows w w' new.
Proof.
  unfold symlink. destruct (String.eqb target "").
  { intros [= <- <-]. exists []. apply grows_refl. }
  destruct (resolve (files w) false link) as [err|p].
  { intros [= <- <-]. exists []. apply grows_refl. }
  destruct (node_at (files w) p) eqn:Hp.
  { intros [= <- <-]. exists []. apply grows_refl. }
  destruct (Py.endswith_slash link).
  { intros [= <- <-]. exists []. apply grows_refl. }
  intros [= <- <-]. exists [Linked target p].
  split; [|reflexivity]. simpl. apply insert_subseteq. by apply node_at_None.
Qed.

(** What [os.symlink] does when it returns: the link is made at the place
    that the link path named, where nothing was, and the link path names it
    from then on. *)
Lemma symlink_made (w : world) (target link : string) (w' : world) :
  symlink w target link = (w', None) →
  ∃ p, resolve (files w) false link = inr p
       ∧ node_at (files w) p = None
       ∧ w' = World (<[p := Symlink target]> (files w))
                (log w ++ [Linked target p])
       ∧ resolve (files w') false link = inr p
       ∧ lexists w' link = true.
Proof.
  unfold symlink. destruct (String.eqb target ""); [discriminate|].
  destruct (resolve (files w) false link) as [err|p] eqn:Hr; [discriminate|].
  destruct (node_at (files w) p) eqn:Hp; [discriminate|].
  destruct (Py.endswith_slash link) eqn:Hend; [discriminate|].
  intros [= <-]. exists p. split; [reflexivity|]. split; [exact Hp|].
  split; [reflexivity|].
  pose proof (resolve_fresh_link _ _ target _ Hp Hend Hr) as Hr'.
  split; [exact Hr'|].
  unfold lexists, lstat. cbn [files]. rewrite Hr'.
  by rewrite (node_at_insert _ _ (Symlink target) Hp).
Qed.

Lemma link_step_grows (w : world) (npz link : string) (w' : world)
    (e : option errno) :
  link_step w npz link = (w', e) → ∃ new, grows w w' new.
Proof.
  unfold link_step. destruct (isfile w link); simpl.
  - intros [= <- <-]. exists []. apply grows_refl.
  - intros Hs. destruct (symlink_grows _ _ _ _ _ Hs) as [new Hg].
    exists (Printed ("Linking: " +:+ npz +:+ " to " +:+ link) :: new).
    destruct Hg as [Hf Hl]. split; [exact Hf|].
    rewrite Hl. simpl. by rewrite <- app_assoc.
Qed.

(** A link step that returns: either the link path was an existing file
    and nothing is done, or it was not, and the message is printed and the
    link made. *)
Lemma link_step_ok (w : world) (npz link : string) (w' : world) :
  link_step w npz link = (w', None) →
  lexists w' link = true
  ∧ ((isfile w link = true ∧ w' = w)
     ∨ (isfile w link = false
        ∧ ∃ p, resolve (files w') false link = inr p
             ∧ node_at (files w') p = Some (Symlink npz)
             ∧ files w ⊆ files w'
             ∧ log w'
               = log w ++ [Printed ("Linking: " +:+ npz +:+ " to " +:+ link);
                           Linked npz p])).
Proof.
  unfold link_step. destruct (isfile w link) eqn:Hf; simpl.
  - intros [= <-]. split; [|by left].
    unfold isfile in Hf. destruct (stat w link) as [x|] eqn:Hs;
      [|discriminate]. by eapply exists_lexists.
  - intros Hs. destruct (symlink_made _ _ _ _ Hs)
      as (p & Hr & Hp & -> & Hr' & Hl).
    split; [exact Hl|]. right. split; [reflexivity|].
    exists p. split; [exact Hr'|]. cbn [files log print].
    split; [by apply node_at_insert|]. split.
    + apply insert_subseteq. by apply node_at_None.
    + by rewrite <- app_assoc.
Qed.

(** A link step on a path that names something that is no file raises
    [EEXIST], after the message. *)
Lemma link_step_exists (w : world) (npz link : string) :
  String.eqb npz "" = false →
  isfile w link = false → lexists w link = true →
  link_step w npz link
  = (print w ("Linking: " +:+ npz +:+ " to " +:+ link), Some EEXIST).
Proof.
  intros Hnpz Hf Hl. unfold link_step. rewrite Hf. simpl.
  unfold symlink. rewrite Hnpz. simpl.
  unfold lexists, lstat in Hl.
  destruct (resolve (files w) false link) as [err|p]; [discriminate Hl|].
  destruct (node_at (files w) p); [reflexivity | discriminate Hl].
Qed.

Lemma path_dir_tail_length (p : string) :
  (String.length (Py.path_dir p) + String.length (Py.path_tail p)
   = String.length p)%nat.
Proof.
  induction p as [|c p IH]; [reflexivity|]. simpl.
  destruct (existsb _ _); simpl; [lia|].
  destruct (Ascii.eqb c "/"); simpl; lia.
Qed.

Lemma rstrip_slash_length (s : string) :
  (String.length (Py.rstrip_slash s) ≤ String.length s)%nat.
Proof.
  induction s as [|c s IH]; [reflexivity|]. simpl.
  destruct (Py.rstrip_slash s); simpl in *; [|lia].
  destruct (Ascii.eqb c "/"); simpl; lia.
Qed.

Lemma path_head_shorter (p : string) :
  (String.length (Py.path_head p) + String.length (Py.path_tail p)
   ≤ String.length p)%nat.
Proof.
  pose proof (path_dir_tail_length p) as Hsum. unfold Py.path_head.
  destruct (forallb _ _); [lia|].
  pose proof (rstrip_slash_length (Py.path_dir p)). lia.
Qed.

(** The fuel of [makedirs] is enough: more of it changes nothing. *)
Lemma makedirs_fuel_enough (fuel : nat) : ∀ (fuel' : nat) (w : world)
    (name : string),
  (String.length name < fuel)%nat → (String.length name < fuel')%nat →
  makedirs_from fuel w name = makedirs_from fuel' w name.
Proof.
  induction fuel as [|fuel IH]; intros fuel' w name Hf Hf'; [lia|].
  destruct fuel' as [|fuel']; [lia|]. simpl.
  pose proof (path_head_shorter name) as H1.
  pose proof (path_head_shorter (Py.path_head name)) as H2.
  destruct (String.eqb_spec (Py.path_tail name) "") as [Ht|Ht].
  - destruct (negb (String.eqb (Py.path_head (Py.path_head name)) ""));
      [|reflexivity].
    destruct (String.eqb_spec (Py.path_tail (Py.path_head name)) "")
      as [Ht'|Ht']; [reflexivity|]. cbn [negb andb].
    destruct (negb (exists_ w _)); [|reflexivity].
    assert (0 < String.length (Py.path_tail (Py.path_head name)))%nat
      by (destruct (Py.path_tail (Py.path_head name)); [done | simpl; lia]).
    rewrite (IH fuel'); [reflexivity | lia | lia].
  - destruct (negb (String.eqb (Py.path_head name) "")); [|reflexivity].
    cbn [negb andb].
    destruct (String.eqb_spec (Py.path_tail name) "") as [|_]; [done|].
    cbn [negb andb].
    destruct (negb (exists_ w _)); [|reflexivity].
    assert (0 < String.length (Py.path_tail name))%nat
      by (destruct (Py.path_tail name); [done | simpl; lia]).
    rewrite (IH fuel'); [reflexivity | lia | lia].
Qed.

Lemma npz_named : String.eqb train_npz "" = false
                  ∧ String.eqb test_npz "" = false.
Proof. split; vm_compute; reflexivity. Qed.

Lemma output_dir_tail :
  Py.path_tail output_dir ≠ "" ∧ Py.path_tail output_dir ≠ ".".
Proof. split; intros Heq; vm_compute in Heq; discriminate Heq. Qed.

(** The first step of [main]: when it returns, the output directory is a
    directory, and only directories were made. *)
Lemma main_dir_step (w wa : world) :
  (if negb (isdir w output_dir) then makedirs w output_dir else (w, None))
  = (wa, None) →
  isdir wa output_dir = true ∧ ∃ na, grows w wa na ∧ no_links na.
Proof.
  destruct (isdir w output_dir) eqn:Hd; cbn [negb].
  - intros [= <-]. split; [exact Hd|]. exists [].
    split; [apply grows_refl | apply no_links_nil].
  - unfold makedirs. intros Hm. split.
    + destruct output_dir_tail as [H1 H2].
      destruct (makedirs_from_last _ _ _ _ Hm H1 H2) as [w'' Hlast].
      exact (mkdir_isdir _ _ _ Hlast).
    + exact (makedirs_from_grows _ _ _ _ _ Hm).
Qed.

Lemma main_dir_grows (w wa : world) (ea : option errno) :
  (if negb (isdir w output_dir) then makedirs w output_dir else (w, None))
  = (wa, ea) →
  ∃ na, grows w wa na ∧ no_links na.
Proof.
  destruct (isdir w output_dir); cbn [negb].
  - intros [= <- <-]. exists [].
    split; [apply grows_refl | apply no_links_nil].
  - unfold makedirs. apply makedirs_from_grows.
Qed.

Lemma main_unfold (w : world) :
  main w
  = (let '(w1, e1) :=
       if negb (isdir w output_dir) then makedirs w output_dir
       else (w, None) in
     match e1 with
     | Some _ => (w1, e1)
     | None =>
         let '(w2, e2) := link_step w1 train_npz train_link in
         match e2 with
         | Some _ => (w2, e2)
         | None => link_step w2 test_npz test_link
         end
     end).
Proof. reflexivity. Qed.

(** A run of [main] that returns, step by step. *)
Lemma main_returns (w0 w1 : world) :
  main w0 = (w1, None) →
  ∃ wa wb,
    (if negb (isdir w0 output_dir) then makedirs w0 output_dir
     else (w0, None)) = (wa, None)
    ∧ link_step wa train_npz train_link = (wb, None)
    ∧ link_step wb test_npz test_link = (w1, None).
Proof.
  rewrite main_unfold.
  destruct (if negb (isdir w0 output_dir) then makedirs w0 output_dir
            else (w0, None)) as [wa ea] eqn:Ha.
  destruct ea as [err|]; [discriminate|].
  destruct (link_step wa train_npz train_link) as [wb eb] eqn:Hb.
  destruct eb as [err|]; [discriminate|].
  intros Hc. exists wa, wb. split; [reflexivity|]. split; [exact Hb|].
  exact Hc.
Qed.

Lemma main_success (w0 w1 : world) :
  main w0 = (w1, None) →
  isdir w1 output_dir = true
  ∧ lexists w1 train_link = true
  ∧ lexists w1 test_link = true.
Proof.
  intros Hmain. destruct (main_returns _ _ Hmain) as (wa & wb & Ha & Hb & Hc).
  destruct (main_dir_step _ _ Ha) as [Hd _].
  destruct (link_step_grows _ _ _ _ _ Hb) as [n1 [S1 _]].
  destruct (link_step_grows _ _ _ _ _ Hc) as [n2 [S2 _]].
  destruct (link_step_ok _ _ _ _ Hb) as [L1 _].
  destruct (link_step_ok _ _ _ _ Hc) as [L2 _].
  split; [|split].
  - apply (isdir_mono wb); [exact S2|].
    apply (isdir_mono wa); [exact S1 | exact Hd].
  - apply (lexists_mono wb); [exact S2 | exact L1].
  - exact L2.
Qed.

Lemma isfile_false_mono (w w' : world) (s : string) :
  files w ⊆ files w' → isfile w' s = false → isfile w s = false.
Proof.
  intros Hsub Hf. destruct (isfile w s) eqn:Hw; [|reflexivity].
  rewrite (isfile_mono _ _ _ Hsub Hw) in Hf. discriminate Hf.
Qed.

(** C10: after a run of [main] that returns, with the two feature files in
    place, so that both links lead to regular files, a second run changes
    nothing: it makes no directory, creates no symlink and prints nothing.
    In the first run a symlink is created only at an output path that was
    not an existing file, and it is the entry that the output path
    names. *)
Theorem main_idempotent (w0 w1 : world) :
  main w0 = (w1, None) →
  isfile w1 train_link = true →
  isfile w1 test_link = true →
  main w1 = (w1, None)
  ∧ ∃ new, log w1 = log w0 ++ new
      ∧ ∀ (t : string) (p : path), Linked t p ∈ new →
          (t = train_npz ∧ resolve (files w1) false train_link = inr p
             ∧ isfile w0 train_link = false)
          ∨ (t = test_npz ∧ resolve (files w1) false test_link = inr p
             ∧ isfile w0 test_link = false).
Proof.
  intros Hmain Htrain Htest.
  destruct (main_success _ _ Hmain) as (Hd & Hl1 & Hl2).
  split.
  { rewrite main_unfold. rewrite Hd. cbn [negb].
    unfold link_step. rewrite Htrain. cbn [negb]. rewrite Htest.
    reflexivity. }
  destruct (main_returns _ _ Hmain) as (wa & wb & Ha & Hb & Hc).
  destruct (main_dir_step _ _ Ha) as [_ (na & [Sa La] & Hna)].
  destruct (link_step_grows _ _ _ _ _ Hb) as [n1' [Sb _]].
  destruct (link_step_grows _ _ _ _ _ Hc) as [n2' [Sc _]].
  destruct (link_step_ok _ _ _ _ Hb) as [_ Hb'].
  destruct (link_step_ok _ _ _ _ Hc) as [_ Hc'].
  assert (H1 : ∃ n1, log wb = log wa ++ n1
             ∧ ∀ t p, Linked t p ∈ n1 →
                 t = train_npz ∧ resolve (files w1) false train_link = inr p
                 ∧ isfile w0 train_link = false).
  { destruct Hb' as [[_ ->]|(Hf & p & Hr & Hp & _ & Hlog)].
    - exists []. split; [by rewrite app_nil_r|].
      intros t p Hin. by apply elem_of_nil in Hin.
    - eexists. split; [exact Hlog|]. intros t q Hin.
      apply elem_of_cons in Hin as [Hin|Hin]; [discriminate Hin|].
      apply list_elem_of_singleton in Hin. injection Hin as -> ->.
      split; [reflexivity|]. split.
      + exact (resolve_mono _ _ _ _ _ _ Sc Hr Hp).
      + by apply (isfile_false_mono w0 wa). }
  assert (H2 : ∃ n2, log w1 = log wb ++ n2
             ∧ ∀ t p, Linked t p ∈ n2 →
                 t = test_npz ∧ resolve (files w1) false test_link = inr p
                 ∧ isfile w0 test_link = false).
  { destruct Hc' as [[_ ->]|(Hf & p & Hr & _ & _ & Hlog)].
    - exists []. split; [by rewrite app_nil_r|].
      intros t p Hin. by apply elem_of_nil in Hin.
    - eexists. split; [exact Hlog|]. intros t q Hin.
      apply elem_of_cons in Hin as [Hin|Hin]; [discriminate Hin|].
      apply list_elem_of_singleton in Hin. injection Hin as -> ->.
      split; [reflexivity|]. split; [exact Hr|].
      apply (isfile_false_mono w0 wb); [by etrans | exact Hf]. }
  destruct H1 as (n1 & Lb & Hn1). destruct H2 as (n2 & Lc & Hn2).
  exists (na ++ n1 ++ n2). split.
  { rewrite Lc, Lb, La. by rewrite <- !app_assoc. }
  intros t p Hin. apply elem_of_app in Hin as [Hin|Hin];
    [by apply Hna in Hin|].
  apply elem_of_app in Hin as [Hin|Hin];
    [left; by apply Hn1 | right; by apply Hn2].
Qed.

End LinkScript.

(** ** Facts about the NumPy references of [test_tflego.py] *)

Section VectorQuantisation.

Import Reference.

Context {F : Type} `{Scalar F}.

Lemma broadcast_same_length (f : F → F → F) (u v : list F) :
  length u = length v → broadcast f u v = Some (zip_with f u v).
Proof. unfold broadcast. intros ->. by rewrite Nat.eqb_refl. Qed.

Lemma distances_same_length (x : list F) (embeds : list (list F)) :
  Forall (λ e, length e = length x) embeds →
  distances x embeds = Some (map (euclid x) embeds).
Proof.
  induction 1 as [|e embeds He _ IH]; [done|]. simpl.
  rewrite broadcast_same_length by done. simpl. by rewrite IH.
Qed.

Lemma argmin_from_first_least (ds : list F) :
  ∀ (pre : list F) (best : nat) (bv : F),
    ordered (pre ++ ds) →
    pre !! best = Some bv →
    (∀ j d, pre !! j = Some d → ¬ lt d bv) →
    (∀ j d, (j < best)%nat → pre !! j = Some d → lt bv d) →
    first_least (pre ++ ds) (argmin_from best bv (length pre) ds).
Proof.
  induction ds as [|d ds IH]; intros pre best bv Hord Hb Hmin Hfirst; simpl.
  - rewrite app_nil_r. by exists bv.
  - assert (Hpre : pre ++ d :: ds = (pre ++ [d]) ++ ds)
      by (by rewrite <- app_assoc).
    assert (Hlen : S (length pre) = length (pre ++ [d]))
      by (rewrite length_app; simpl; lia).
    assert (Hin : ∀ j a, pre !! j = Some a → a ∈ pre ++ d :: ds).
    { intros j a Hj. apply elem_of_app. left. by eapply list_elem_of_lookup_2. }
    assert (Hd : d ∈ pre ++ d :: ds) by (apply elem_of_app; right; left).
    destruct Hord as (Hirr & Htrans & Hco).
    rewrite Hpre, Hlen.
    destruct (s_ltb d bv) eqn:Hlt.
    + apply IH.
      * by rewrite <- Hpre.
      * by rewrite lookup_app_r, Nat.sub_diag.
      * intros j a Hj.
        destruct (decide (j < length pre)%nat) as [Hjl|Hjl].
        -- rewrite lookup_app_l in Hj by done. intros Ha.
           apply (Hmin j a Hj). apply (Htrans a d bv); eauto.
        -- rewrite lookup_app_r in Hj by lia.
           destruct (j - length pre)%nat; [|done].
           injection Hj as <-. by apply Hirr.
      * intros j a Hjl Hj. rewrite lookup_app_l in Hj by done.
        destruct (Hco d bv a) as [?|Hc]; eauto.
        by apply Hmin in Hj.
    + apply IH.
      * by rewrite <- Hpre.
      * rewrite lookup_app_l; [done|]. by eapply lookup_lt_Some.
      * intros j a Hj.
        destruct (decide (j < length pre)%nat) as [Hjl|Hjl].
        -- rewrite lookup_app_l in Hj by done. by eapply Hmin.
        -- rewrite lookup_app_r in Hj by lia.
           destruct (j - length pre)%nat; [|done].
           injection Hj as <-. unfold lt. by rewrite Hlt.
      * intros j a Hjl Hj.
        assert (j < length pre)%nat
          by (apply lookup_lt_Some in Hb; lia).
        rewrite lookup_app_l in Hj by done. by eapply Hfirst.
Qed.

Lemma argmin_first_least (ds : list F) :
  ds ≠ [] → ordered ds → ∃ k, argmin ds = Some k ∧ first_least ds k.
Proof.
  destruct ds as [|d ds]; [done|]. intros _ Hord.
  exists (argmin_from 0 d 1 ds). split; [done|].
  apply (argmin_from_first_least ds [d] 0%nat d); [done..| |].
  - intros [|j] a Hj; [|done]. injection Hj as <-.
    destruct Hord as (Hirr & _). apply Hirr. left.
  - intros j a Hj. lia.
Qed.

(** C5: the reference maps every input vector to the codebook entry at
    the least Euclidean distance from it, and to the one of smallest index
    among equidistant entries. The codebook is not empty, the vectors have
    one dimension, and the distances of a vector are ordered (no NaN). *)
Theorem vq_nearest_first (test_data tf_embeds : list (list F)) (D : nat) :
  tf_embeds ≠ [] →
  Forall (λ x, length x = D) test_data →
  Forall (λ e, length e = D) tf_embeds →
  Forall (λ x, ordered (map (euclid x) tf_embeds)) test_data →
  ∃ z_q,
    np_vq test_data tf_embeds = Some z_q
    ∧ Forall2 (λ x z, ∃ k,
        tf_embeds !! k = Some z
        ∧ (∀ j e, tf_embeds !! j = Some e →
             s_ltb (euclid x e) (euclid x z) = false)
        ∧ (∀ j e, (j < k)%nat → tf_embeds !! j = Some e →
             s_ltb (euclid x z) (euclid x e) = true)) test_data z_q.
Proof.
  intros Hne Hx He Hord.
  induction Hx as [|x xs Hlx _ IH]; [by exists []; split; [|constructor]|].
  inversion Hord as [|? ? Hox Hoxs]; subst.
  destruct (IH Hoxs) as (zs & Hzs & HF).
  destruct (argmin_first_least (map (euclid x) tf_embeds)) as (k & Hk & Hfl);
    [by destruct tf_embeds | done |].
  destruct Hfl as (dk & Hdk & Hmin & Hfirst).
  rewrite list_lookup_fmap in Hdk.
  destruct (tf_embeds !! k) as [z|] eqn:Hz; [|done].
  injection Hdk as <-.
  exists (z :: zs). split.
  - simpl. rewrite distances_same_length.
    + simpl. rewrite Hk. simpl. rewrite Hz. simpl. by rewrite Hzs.
    + eapply Forall_impl; [exact He|]. intros e ->. done.
  - constructor; [|done]. exists k. split; [done|]. split.
    + intros j e Hj. apply not_true_is_false. apply (Hmin j).
      by rewrite list_lookup_fmap, Hj.
    + intros j e Hjk Hj. apply (Hfirst j); [done|].
      by rewrite list_lookup_fmap, Hj.
Qed.

End VectorQuantisation.

Section EncoderDecoder.

Import Reference.

Context {F : Type} `{Scalar F}.

Lemma dot_rows_length (cols : nat) (v : list F) (rows : list (list F)) :
  Forall (λ r, length r = cols) rows →
  length (dot_rows cols v rows) = cols.
Proof.
  unfold dot_rows. intros Hrows.
  assert (Hacc : length (zeros1 cols) = cols) by apply length_replicate.
  revert Hacc. generalize (zeros1 cols) as acc. revert v.
  induction Hrows as [|r rows Hr _ IH]; intros v acc Hacc.
  - by destruct v.
  - destruct v as [|a v]; [done|]. simpl. apply IH.
    rewrite length_zip_with, length_fmap. lia.
Qed.

Section Cell.

Variables (W : matrix F) (b : list F) (d h : nat).
Hypothesis HW : wf_matrix W.
Hypothesis Hrows : m_rows W = (d + h)%nat.
Hypothesis Hcols : m_cols W = h.
Hypothesis Hb : length b = h.

Lemma cell_length (x prev : list F) : length (cell W b x prev) = h.
Proof.
  unfold cell. rewrite length_fmap, length_zip_with, dot_rows_length.
  - lia.
  - apply HW.
Qed.

Lemma cell_computed (x prev : list F) :
  length x = d → length prev = h →
  (np_dot (x ++ prev) W ≫= λ v, broadcast s_add v b)
  = Some (zip_with s_add (dot_rows (m_cols W) (x ++ prev) (m_data W)) b).
Proof.
  intros Hx Hp. unfold np_dot.
  rewrite length_app, Hx, Hp, Hrows, Nat.eqb_refl. simpl.
  unfold broadcast. rewrite dot_rows_length by apply HW.
  by rewrite Hcols, Hb, Nat.eqb_refl.
Qed.

Lemma rnn_states_length (xs : list (list F)) : ∀ prev,
  length (rnn_states W b prev xs) = length xs.
Proof. induction xs as [|x xs IH]; intros prev; simpl; [done|]. by rewrite IH. Qed.

Lemma rnn_states_shape (xs : list (list F)) : ∀ prev,
  Forall (λ s, length s = h) (rnn_states W b prev xs).
Proof.
  induction xs as [|x xs IH]; intros prev; simpl; constructor;
    [apply cell_length | apply IH].
Qed.

(** The inner loop writes the states of the sequence into the row of the
    item, from step [j] on. *)
Lemma rnn_steps_writes (xs : list (list F)) :
  ∀ (outputs : list (list (list F))) (i j : nat) (prev : list F)
    (rows : list (list F)),
    outputs !! i = Some rows →
    Forall (λ r, length r = h) rows →
    (j + length xs ≤ length rows)%nat →
    length prev = h →
    Forall (λ x, length x = d) xs →
    rnn_steps W b outputs i j prev xs
    = Some (<[i := take j rows ++ rnn_states W b prev xs
                     ++ drop (j + length xs) rows]> outputs).
Proof.
  induction xs as [|x xs IH];
    intros outputs i j prev rows Hi Hshape Hj Hprev Hxs; simpl.
  - rewrite Nat.add_0_r, take_drop. by rewrite list_insert_id.
  - apply Forall_cons in Hxs as [Hx Hxs'].
    pose proof (cell_computed x prev Hx Hprev) as Hc. simpl in Hj.
    destruct (np_dot (x ++ prev) W) as [v|]; [|done]. simpl in Hc |- *.
    rewrite Hc. simpl. fold (cell W b x prev).
    unfold assign_row. rewrite Hi. simpl.
    destruct (rows !! j) as [old|] eqn:Hold;
      [|apply lookup_ge_None in Hold; lia].
    simpl.
    rewrite (Forall_lookup_1 _ _ _ _ Hshape Hold), cell_length, Nat.eqb_refl.
    simpl.
    rewrite (IH _ i (S j) (cell W b x prev) (<[j := cell W b x prev]> rows)).
    + rewrite list_insert_insert_eq. f_equal. f_equal.
      rewrite (take_S_r _ j (cell W b x prev)).
      * rewrite take_insert_ge by done.
        rewrite drop_insert_lt by lia.
        rewrite <- app_assoc. simpl.
        by replace (j + S (length xs))%nat with (S (j + length xs)) by lia.
      * apply list_lookup_insert_eq. lia.
    + apply list_lookup_insert_eq. by eapply lookup_lt_Some.
    + apply Forall_insert; [done | apply cell_length].
    + rewrite length_insert. lia.
    + apply cell_length.
    + done.
Qed.

(** The outer loop fills the rows of the items one after the other. *)
Lemma rnn_items_rows (x : array3 F) (x_lengths : list Z) (m : nat)
    (xs : list (list (list F))) :
  ∀ (ls : list Z) (pre_x : list (list (list F))) (pre_l : list Z)
    (done : list (list (list F))),
    a_data x = pre_x ++ xs → x_lengths = pre_l ++ ls →
    length pre_x = length done → length pre_l = length done →
    Forall2 (λ xi l, Forall (λ r, length r = d) xi
                     ∧ (length (slice_to l xi) ≤ m)%nat) xs ls →
    rnn_items x x_lengths W b (done ++ zeros3 (length xs) m h)
      (seq (length done) (length xs))
    = Some (done ++ zip_with (rnn_row W b m) xs ls).
Proof.
  induction xs as [|xi xs IH]; intros ls pre_x pre_l done Hx Hl Hpx Hpl HF.
  - apply Forall2_nil_inv_l in HF as ->. done.
  - apply Forall2_cons_inv_l in HF as (l & ls' & [Hxi Hlen] & HF & ->).
    simpl seq. simpl rnn_items.
    assert (Hll : x_lengths !! length done = Some l).
    { by rewrite Hl, lookup_app_r, Hpl, Nat.sub_diag by lia. }
    assert (Hlx : a_data x !! length done = Some xi).
    { by rewrite Hx, lookup_app_r, Hpx, Nat.sub_diag by lia. }
    rewrite Hll, Hlx. simpl. rewrite Hcols.
    rewrite (rnn_steps_writes _ _ (length done) 0 _ (zeros2 m h)).
    + simpl.
      rewrite insert_app_r_alt, Nat.sub_diag by lia. simpl.
      replace (S (length done)) with (length (done ++ [rnn_row W b m xi l]))
        by (rewrite length_app; simpl; lia).
      replace (done ++ rnn_row W b m xi l :: zip_with (rnn_row W b m) xs ls')
        with ((done ++ [rnn_row W b m xi l])
                ++ zip_with (rnn_row W b m) xs ls')
        by (by rewrite <- app_assoc).
      rewrite <- (IH ls' (pre_x ++ [xi]) (pre_l ++ [l])
                    (done ++ [rnn_row W b m xi l])).
      * rewrite <- app_assoc. simpl. do 3 f_equal.
        unfold rnn_row, zeros2. rewrite Hcols, drop_replicate.
        by rewrite rnn_states_length.
      * by rewrite <- app_assoc.
      * by rewrite <- app_assoc.
      * rewrite !length_app. simpl. lia.
      * rewrite !length_app. simpl. lia.
      * done.
    + by rewrite lookup_app_r, Nat.sub_diag by lia.
    + apply Forall_replicate, length_replicate.
    + unfold zeros2. rewrite length_replicate. simpl. lia.
    + apply length_replicate.
    + unfold slice_to. destruct (l <? 0); by apply Forall_take.
Qed.

Lemma np_rnn_rows (x : array3 F) (x_lengths : list Z) (mz : Z)
    (n t : nat) :
  a_shape x = (n, t, d) → wf_array3 x → 0 ≤ mz →
  Forall2 (λ xi l, (length (slice_to l xi) ≤ Z.to_nat mz)%nat)
    (a_data x) x_lengths →
  np_rnn x x_lengths W b (Some mz)
  = Some (Array3 (n, Z.to_nat mz, h)
            (zip_with (rnn_row W b (Z.to_nat mz)) (a_data x) x_lengths)).
Proof.
  intros Hshape Hwf Hm HF. unfold np_rnn. simpl.
  destruct (Z.ltb_spec mz 0); [lia|].
  unfold wf_array3 in Hwf. rewrite Hshape in Hwf |- *. simpl.
  destruct Hwf as [Hn Hrows'].
  pose proof (rnn_items_rows x x_lengths (Z.to_nat mz) (a_data x)
                x_lengths [] [] []) as Hit.
  simpl in Hit. rewrite Hn in Hit. rewrite Hcols. rewrite Hit; try done.
  clear Hit. revert HF Hrows'. generalize (a_data x) x_lengths.
  induction 1 as [|xi l xs ls Hlen _ IH]; intros Hwf; constructor.
  - apply Forall_cons in Hwf as [[_ Hxi] _]. done.
  - apply IH. by apply Forall_cons in Hwf as [_ ?].
Qed.

End Cell.

Section Output.

Variables (W : matrix F) (b : list F) (h d : nat).
Hypothesis HW : wf_matrix W.
Hypothesis Hrows : m_rows W = h.
Hypothesis Hcols : m_cols W = d.
Hypothesis Hb : length b = d.

Lemma linear_length (c : list F) : length (linear W b c) = d.
Proof.
  unfold linear. rewrite length_zip_with, dot_rows_length; [lia | apply HW].
Qed.

Lemma linear_computed (c : list F) :
  length c = h → np_linear c W b = Some (linear W b c).
Proof.
  intros Hc. unfold linear, np_linear, np_dot.
  rewrite Hc, Hrows, Nat.eqb_refl.
  simpl. unfold broadcast. rewrite dot_rows_length by apply HW.
  by rewrite Hcols, Hb, Nat.eqb_refl.
Qed.

Lemma linear_steps_writes (cs : list (list F)) :
  ∀ (out : list (list (list F))) (i j : nat) (acc rows : list (list F)),
    out !! i = Some rows →
    Forall (λ r, length r = d) rows →
    (j + length cs ≤ length rows)%nat →
    Forall (λ c, length c = h) cs →
    linear_steps W b out i j acc cs
    = Some (<[i := take j rows ++ map (linear W b) cs
                     ++ drop (j + length cs) rows]> out,
            acc ++ map (linear W b) cs).
Proof.
  induction cs as [|c cs IH]; intros out i j acc rows Hi Hshape Hj Hcs; simpl.
  - rewrite Nat.add_0_r, take_drop, app_nil_r. by rewrite (list_insert_id out i rows).
  - apply Forall_cons in Hcs as [Hc Hcs']. simpl in Hj.
    rewrite (linear_computed c Hc). simpl.
    unfold assign_row. rewrite Hi. simpl.
    destruct (rows !! j) as [old|] eqn:Hold;
      [|apply lookup_ge_None in Hold; lia].
    simpl.
    rewrite (Forall_lookup_1 _ _ _ _ Hshape Hold), linear_length,
      Nat.eqb_refl.
    simpl.
    rewrite (IH _ i (S j) _ (<[j := linear W b c]> rows)).
    + rewrite list_insert_insert_eq, <- app_assoc. simpl. do 3 f_equal.
      rewrite (take_S_r _ j (linear W b c)).
      * rewrite take_insert_ge by done.
        rewrite drop_insert_lt by lia.
        rewrite <- app_assoc. simpl.
        by replace (j + S (length cs))%nat with (S (j + length cs)) by lia.
      * apply list_lookup_insert_eq. lia.
    + apply list_lookup_insert_eq. by eapply lookup_lt_Some.
    + apply Forall_insert; [done | apply linear_length].
    + rewrite length_insert. lia.
    + done.
Qed.

Lemma linear_items_rows (decoder_output : list (list (list F)))
    (x_lengths : list Z) (t : nat) (ds : list (list (list F))) :
  ∀ (ls : list Z) (pre_d : list (list (list F))) (pre_l : list Z)
    (done acc : list (list (list F))),
    decoder_output = pre_d ++ ds → x_lengths = pre_l ++ ls →
    length pre_d = length done → length pre_l = length done →
    Forall2 (λ di l, Forall (λ c, length c = h) (slice_to l di)
                     ∧ (length (slice_to l di) ≤ t)%nat) ds ls →
    linear_items decoder_output x_lengths W b
      (done ++ zeros3 (length ds) t d) acc
      (seq (length done) (length ds))
    = Some (done ++ zip_with (linear_row W b d t) ds ls,
            acc ++ zip_with (λ di l, map (linear W b) (slice_to l di)) ds ls).
Proof.
  induction ds as [|di ds IH];
    intros ls pre_d pre_l done acc Hd Hl Hpd Hpl HF.
  - apply Forall2_nil_inv_l in HF as ->. simpl. by rewrite !app_nil_r.
  - apply Forall2_cons_inv_l in HF as (l & ls' & [Hdi Hlen] & HF & ->).
    simpl seq. simpl linear_items.
    assert (Hll : x_lengths !! length done = Some l).
    { by rewrite Hl, lookup_app_r, Hpl, Nat.sub_diag by lia. }
    assert (Hld : decoder_output !! length done = Some di).
    { by rewrite Hd, lookup_app_r, Hpd, Nat.sub_diag by lia. }
    rewrite Hll, Hld. simpl.
    rewrite (linear_steps_writes _ _ (length done) 0 _ (zeros2 t d)).
    + simpl.
      rewrite insert_app_r_alt, Nat.sub_diag by lia. simpl.
      replace (S (length done)) with (length (done ++ [linear_row W b d t di l]))
        by (rewrite length_app; simpl; lia).
      pose proof (IH ls' (pre_d ++ [di]) (pre_l ++ [l])
                    (done ++ [linear_row W b d t di l])
                    (acc ++ [map (linear W b) (slice_to l di)])) as IH'.
      rewrite <- !app_assoc in IH'. simpl in IH'.
      rewrite <- IH'; try done.
      * unfold linear_row, zeros2, zeros3. cbv zeta.
        by rewrite drop_replicate, !length_fmap.
      * rewrite !length_app. simpl. lia.
      * rewrite !length_app. simpl. lia.
    + by rewrite lookup_app_r, Nat.sub_diag by lia.
    + apply Forall_replicate, length_replicate.
    + unfold zeros2. rewrite length_replicate. simpl. lia.
    + done.
Qed.

End Output.

Lemma slice_to_take {A} (l : Z) (a : list A) :
  0 ≤ l → slice_to l a = take (Z.to_nat l) a.
Proof. intros Hl. unfold slice_to. by destruct (Z.ltb_spec l 0); [lia|]. Qed.

Lemma np_rnn_resolved (x : array3 F) (x_lengths : list Z) (W : matrix F)
    (b : list F) (maxlength : option Z) (m : Z) :
  resolve_maxlength x_lengths maxlength = Some m →
  np_rnn x x_lengths W b maxlength = np_rnn x x_lengths W b (Some m).
Proof. unfold np_rnn. by intros ->. Qed.

Lemma Forall2_pair {A B} (P : A → Prop) (Q : B → Prop)
    (xs : list A) (ys : list B) :
  length xs = length ys → Forall P xs → Forall Q ys →
  Forall2 (λ x y, P x ∧ Q y) xs ys.
Proof.
  revert ys. induction xs as [|x xs IH]; intros [|y ys] Hlen Hx Hy;
    try done.
  apply Forall_cons in Hx as [? ?]. apply Forall_cons in Hy as [? ?].
  constructor; [done|]. apply IH; [by injection Hlen|done..].
Qed.

Section Assembly.

Variables (W : matrix F) (b : list F) (d h : nat).
Hypothesis HW : wf_matrix W.
Hypothesis Hrows : m_rows W = (d + h)%nat.
Hypothesis Hcols : m_cols W = h.
Hypothesis Hb : length b = h.

Lemma rnn_row_length (m : nat) (xi : list (list F)) (l : Z) :
  (length (slice_to l xi) ≤ m)%nat → length (rnn_row W b m xi l) = m.
Proof.
  intros Hl. unfold rnn_row.
  rewrite length_app, length_replicate, (rnn_states_length W b). lia.
Qed.

Lemma rnn_row_shape (m : nat) (xi : list (list F)) (l : Z) :
  Forall (λ r, length r = h) (rnn_row W b m xi l).
Proof.
  unfold rnn_row. apply Forall_app. split.
  - by apply (rnn_states_shape W b d h).
  - apply Forall_replicate. rewrite Hcols. apply length_replicate.
Qed.

Lemma rnn_row_states (m : nat) (xi : list (list F)) (l : Z) :
  1 ≤ l ≤ Z.of_nat m → l ≤ Z.of_nat (length xi) →
  take (Z.to_nat l) (rnn_row W b m xi l)
  = rnn_states W b (zeros1 (m_cols W)) (take (Z.to_nat l) xi)
  ∧ length (rnn_states W b (zeros1 (m_cols W)) (take (Z.to_nat l) xi))
    = Z.to_nat l.
Proof.
  intros Hl Hxi. unfold rnn_row. rewrite slice_to_take by lia.
  assert (Hlen : length (rnn_states W b (zeros1 (m_cols W))
                           (take (Z.to_nat l) xi)) = Z.to_nat l).
  { rewrite (rnn_states_length W b), length_take. lia. }
  split; [|done]. rewrite take_app_le by lia. apply take_ge. lia.
Qed.

Lemma rnn_row_final (m : nat) (xi : list (list F)) (l : Z) :
  1 ≤ l ≤ Z.of_nat m → l ≤ Z.of_nat (length xi) →
  index (rnn_row W b m xi l) (l - 1) = Some (final_state W b xi l)
  ∧ rnn_row W b m xi l !! Z.to_nat (l - 1) = Some (final_state W b xi l)
  ∧ last (rnn_states W b (zeros1 (m_cols W)) (take (Z.to_nat l) xi))
    = Some (final_state W b xi l)
  ∧ length (final_state W b xi l) = h.
Proof.
  intros Hl Hxi.
  destruct (rnn_row_states m xi l Hl Hxi) as [Htake Hlen].
  assert (Hrow : length (rnn_row W b m xi l) = m).
  { apply rnn_row_length. rewrite slice_to_take, length_take by lia. lia. }
  assert (Hlast : last (rnn_states W b (zeros1 (m_cols W))
                          (take (Z.to_nat l) xi))
                  = rnn_row W b m xi l !! Z.to_nat (l - 1)).
  { rewrite last_lookup, Hlen, <- Htake.
    rewrite lookup_take_lt by lia. f_equal. lia. }
  destruct (rnn_row W b m xi l !! Z.to_nat (l - 1)) as [st|] eqn:Hst;
    [|apply lookup_ge_None in Hst; lia].
  assert (Hfin : final_state W b xi l = st).
  { unfold final_state. by rewrite Hlast. }
  rewrite Hfin. repeat split; try done.
  - unfold index. rewrite Hrow.
    destruct (Z.leb_spec 0 (l - 1)); [|lia].
    destruct (Z.ltb_spec (l - 1) (Z.of_nat m)); [|lia]. done.
  - by apply (Forall_lookup_1 _ _ _ _ (rnn_row_shape m xi l) Hst).
Qed.

Lemma collect_states_final (m : nat) (xs : list (list (list F))) :
  ∀ (ls : list Z) (pre : list (list (list F))),
    Forall2 (λ xi l, 1 ≤ l ≤ Z.of_nat m ∧ l ≤ Z.of_nat (length xi)) xs ls →
    collect_states (pre ++ zip_with (rnn_row W b m) xs ls) (length pre) ls
    = Some (zip_with (final_state W b) xs ls).
Proof.
  induction xs as [|xi xs IH]; intros ls pre HF.
  - by apply Forall2_nil_inv_l in HF as ->.
  - apply Forall2_cons_inv_l in HF as (l & ls' & [Hl Hxi] & HF & ->).
    simpl. rewrite lookup_app_r, Nat.sub_diag by lia. simpl.
    destruct (rnn_row_final m xi l Hl Hxi) as (-> & _). simpl.
    replace (S (length pre)) with (length (pre ++ [rnn_row W b m xi l]))
      by (rewrite length_app; simpl; lia).
    replace (pre ++ rnn_row W b m xi l :: zip_with (rnn_row W b m) xs ls')
      with ((pre ++ [rnn_row W b m xi l]) ++ zip_with (rnn_row W b m) xs ls')
      by (by rewrite <- app_assoc).
    by rewrite IH.
Qed.

End Assembly.

(** C2: for a batch [x] of shape (n, t, d) with fitting parameters and
    lengths [1 <= x_lengths[i] <= maxlength] within the [t] frames of the
    batch, [np_encdec_lazydynamic] returns; row [i] of its encoder states is
    the output of the encoder RNN for item [i] at step [x_lengths[i] - 1]
    (the state after the first [x_lengths[i]] frames), and its decoder
    output is the zero vector at every step [k >= x_lengths[i]]. *)
Theorem encdec_states_and_mask
    (x : array3 F) (x_lengths : list Z)
    (W_encoder : matrix F) (b_encoder : list F)
    (W_decoder : matrix F) (b_decoder : list F)
    (W_output : matrix F) (b_output : list F)
    (maxlength : option Z) (n t d h h' : nat) (m : Z) :
  a_shape x = (n, t, d) → wf_array3 x →
  length x_lengths = n → (0 < n)%nat →
  wf_matrix W_encoder → m_rows W_encoder = (d + h)%nat →
  m_cols W_encoder = h → length b_encoder = h → (0 < h)%nat →
  wf_matrix W_decoder → m_rows W_decoder = (h + h')%nat →
  m_cols W_decoder = h' → length b_decoder = h' →
  wf_matrix W_output → m_rows W_output = h' →
  m_cols W_output = d → length b_output = d →
  resolve_maxlength x_lengths maxlength = Some m →
  Forall (λ l, 1 ≤ l ≤ m ∧ l ≤ Z.of_nat t) x_lengths →
  ∃ encoder_output encoder_states decoder_output decoder_output_list,
    np_rnn x x_lengths W_encoder b_encoder maxlength = Some encoder_output
    ∧ np_encdec_lazydynamic x x_lengths W_encoder b_encoder
        W_decoder b_decoder W_output b_output maxlength
      = Some (encoder_states, decoder_output, decoder_output_list)
    ∧ a_shape decoder_output = (n, t, d)
    ∧ ∀ (i : nat) (l : Z), x_lengths !! i = Some l →
        (∃ rows xi state,
            a_data encoder_output !! i = Some rows
            ∧ rows !! Z.to_nat (l - 1) = Some state
            ∧ encoder_states !! i = Some state
            ∧ a_data x !! i = Some xi
            ∧ last (rnn_states W_encoder b_encoder (zeros1 h)
                      (take (Z.to_nat l) xi)) = Some state)
        ∧ (∃ rows,
              a_data decoder_output !! i = Some rows
              ∧ length rows = t
              ∧ ∀ k, (Z.to_nat l ≤ k < t)%nat →
                     rows !! k = Some (zeros1 d)).
Proof.
  intros Hshape Hwfx Hlenl Hn HWe Hre Hce Hbe Hh HWd Hrd Hcd Hbd
    HWo Hro Hco Hbo Hmax Hls.
  set (mn := Z.to_nat m).
  assert (Hm : 1 ≤ m).
  { destruct x_lengths as [|l ls]; [simpl in *; lia|].
    apply Forall_cons in Hls as [[? ?] _]. lia. }
  pose proof Hwfx as Hwfx'. unfold wf_array3 in Hwfx'.
  rewrite Hshape in Hwfx'. destruct Hwfx' as [Hnx Hxrows].
  assert (HF : Forall2 (λ xi l, wf_rows t d xi
                                ∧ (1 ≤ l ≤ m ∧ l ≤ Z.of_nat t))
                 (a_data x) x_lengths).
  { apply Forall2_pair; [lia | done | done]. }
  assert (HF' : Forall2 (λ xi l, 1 ≤ l ≤ Z.of_nat mn
                                 ∧ l ≤ Z.of_nat (length xi))
                  (a_data x) x_lengths).
  { eapply Forall2_impl; [exact HF|].
    intros xi l [[Hxl _] [Hl1 Hl2]]. rewrite Hxl. unfold mn. lia. }
  set (enc_rows := zip_with (rnn_row W_encoder b_encoder mn)
                     (a_data x) x_lengths).
  set (states := zip_with (final_state W_encoder b_encoder)
                   (a_data x) x_lengths).
  assert (Henc : np_rnn x x_lengths W_encoder b_encoder (Some m)
                 = Some (Array3 (n, mn, h) enc_rows)).
  { eapply np_rnn_rows; try eassumption; [lia|].
    eapply Forall2_impl; [exact HF|].
    intros xi l [[Hxl _] [Hl1 Hl2]].
    rewrite slice_to_take, length_take by lia. lia. }
  assert (Hstates : Forall (λ s, length s = h) states).
  { unfold states. clear -HF' HWe Hre Hce Hbe.
    induction HF' as [|xi l xs ls [Hl Hxi] _ IH]; simpl; constructor;
      [|done].
    by destruct (rnn_row_final W_encoder b_encoder d h HWe Hre Hce Hbe
                   mn xi l Hl Hxi) as (_ & _ & _ & ?). }
  assert (Hlen_states : length states = n).
  { unfold states. rewrite length_zip_with; lia. }
  set (dec_in := Array3 (length states, mn, h)
                   (map (replicate mn) states)).
  set (dec_rows := zip_with (rnn_row W_decoder b_decoder mn)
                     (a_data dec_in) x_lengths).
  assert (Hdec : np_rnn dec_in x_lengths W_decoder b_decoder (Some m)
                 = Some (Array3 (length states, mn, h') dec_rows)).
  { eapply np_rnn_rows; try eassumption; try done; [|lia|].
    - unfold wf_array3. simpl. split; [by rewrite length_fmap|].
      apply Forall_fmap. eapply Forall_impl; [exact Hstates|].
      intros s' Hs'. split; [apply length_replicate|].
      by apply Forall_replicate.
    - simpl. apply Forall2_fmap_l.
      apply Forall2_same_length_lookup_2; [lia|].
      intros i s' l Hs' Hl'. simpl.
      pose proof (Forall_lookup_1 _ _ _ _ Hls Hl') as [? ?].
      rewrite slice_to_take, length_take, length_replicate by lia. lia. }
  assert (Hlin : linear_items dec_rows x_lengths W_output b_output
                   (zeros3 n t d) [] (seq 0 n)
                 = Some (zip_with (linear_row W_output b_output d t)
                           dec_rows x_lengths,
                         zip_with (λ di l, map (linear W_output b_output)
                                             (slice_to l di))
                           dec_rows x_lengths)).
  { assert (Hdl : length dec_rows = n).
    { unfold dec_rows. simpl. rewrite length_zip_with, length_fmap. lia. }
    rewrite <- Hdl.
    apply (linear_items_rows W_output b_output h' d HWo Hro Hco Hbo
             dec_rows x_lengths t dec_rows x_lengths [] [] [] []);
      try done.
    unfold dec_rows. simpl.
    apply Forall2_same_length_lookup_2;
      [rewrite length_zip_with, length_fmap; lia|].
    intros i di l Hdi Hl'.
    apply lookup_zip_with_Some in Hdi as (s' & l' & -> & Hs' & Hl'').
    rewrite Hl' in Hl''. injection Hl'' as <-.
    pose proof (Forall_lookup_1 _ _ _ _ Hls Hl') as [? ?].
    split.
    - rewrite slice_to_take by lia. apply Forall_take.
      by apply (rnn_row_shape W_decoder b_decoder h h' HWd Hrd Hcd Hbd).
    - rewrite slice_to_take, length_take by lia. lia. }
  exists (Array3 (n, mn, h) enc_rows), states,
    (Array3 (n, t, d)
       (zip_with (linear_row W_output b_output d t) dec_rows x_lengths)),
    (zip_with (λ di l, map (linear W_output b_output) (slice_to l di))
       dec_rows x_lengths).
  split; [by rewrite (np_rnn_resolved _ _ _ _ _ m)|].
  split.
  { unfold np_encdec_lazydynamic. rewrite Hmax. simpl. rewrite Henc. simpl.
    pose proof (collect_states_final W_encoder b_encoder d h HWe Hre Hce Hbe
                  mn (a_data x) x_lengths [] HF') as Hcs.
    simpl in Hcs. fold enc_rows in Hcs. rewrite Hcs. simpl.
    unfold repeat_states. rewrite Hce.
    destruct (Nat.eqb_spec (Z.to_nat m * h) 0) as [Hz|_]; [nia|].
    simpl. fold states mn dec_in. rewrite Hdec. simpl.
    rewrite Hshape. fold dec_rows. by rewrite Hlin. }
  split; [done|].
  intros i l Hl.
  destruct (lookup_lt_is_Some_2 (a_data x) i) as [xi Hxi].
  { apply lookup_lt_Some in Hl. lia. }
  pose proof (Forall2_lookup_lr _ _ _ _ _ _ HF' Hxi Hl) as [Hl1 Hl2].
  pose proof (Forall_lookup_1 _ _ _ _ Hls Hl) as [Hlm Hlt].
  destruct (rnn_row_final W_encoder b_encoder d h HWe Hre Hce Hbe
              mn xi l Hl1 Hl2) as (_ & Hrow & Hlast & _).
  split.
  - exists (rnn_row W_encoder b_encoder mn xi l), xi,
      (final_state W_encoder b_encoder xi l).
    simpl. unfold enc_rows, states.
    rewrite !lookup_zip_with, Hxi, Hl. simpl.
    rewrite Hce in Hlast. done.
  - set (st := final_state W_encoder b_encoder xi l).
    set (di := rnn_row W_decoder b_decoder mn (replicate mn st) l).
    assert (Hdi : dec_rows !! i = Some di).
    { unfold dec_rows, dec_in, states. simpl.
      rewrite lookup_zip_with, list_lookup_fmap, lookup_zip_with, Hxi, Hl.
      done. }
    assert (Hsl : length (slice_to l di) = Z.to_nat l).
    { rewrite slice_to_take, length_take by lia. unfold di.
      rewrite (rnn_row_length W_decoder b_decoder h h' Hrd Hcd Hbd); [lia|].
      rewrite slice_to_take, length_take, length_replicate by lia. lia. }
    exists (linear_row W_output b_output d t di l).
    simpl. rewrite lookup_zip_with, Hdi, Hl. simpl.
    split; [done|]. unfold linear_row.
    split.
    + rewrite length_app, length_replicate, length_fmap, Hsl. lia.
    + intros k Hk. rewrite lookup_app_r; rewrite length_fmap, Hsl; [|lia].
      apply lookup_replicate_2. lia.
Qed.

End EncoderDecoder.

(** ** Facts about [train_siamese.py] *)

Section SiameseGraph.

Import Siamese.

Lemma build_side_encoder (x x_lengths : tensor)
    (rnn_n_hiddens ff_n_hiddens rnn_type rnn_keep_prob ff_keep_prob : pyval)
    (bidirectional : bool) :
  side_encoder
    (build_siamese_rnn_side x x_lengths rnn_n_hiddens ff_n_hiddens rnn_type
       rnn_keep_prob ff_keep_prob bidirectional)
  = Some (if bidirectional
          then BuildBidirectionalMultiRnn x x_lengths rnn_n_hiddens rnn_type
                 rnn_keep_prob
          else BuildMultiRnn x x_lengths rnn_n_hiddens rnn_type
                 rnn_keep_prob).
Proof.
  unfold build_siamese_rnn_side.
  by destruct bidirectional, (is_lstm rnn_type).
Qed.

(** C4: [build_siamese_rnn_side] builds the bidirectional multi-layer RNN
    exactly when [bidirectional] is [True] and the unidirectional one
    otherwise; in both cases the final state of that RNN, its [.h] when
    [rnn_type] is "lstm", goes through the feedforward layers
    [ff_n_hiddens], and the result is the output of the side. *)
Theorem side_encoder_and_feedforward (x x_lengths : tensor)
    (rnn_n_hiddens ff_n_hiddens rnn_type rnn_keep_prob ff_keep_prob : pyval)
    (bidirectional : bool) :
  ∃ c,
    side_encoder
      (build_siamese_rnn_side x x_lengths rnn_n_hiddens ff_n_hiddens rnn_type
         rnn_keep_prob ff_keep_prob bidirectional) = Some c
    ∧ (is_bidirectional c = true ↔ bidirectional = true)
    ∧ c = (if bidirectional
           then BuildBidirectionalMultiRnn x x_lengths rnn_n_hiddens rnn_type
                  rnn_keep_prob
           else BuildMultiRnn x x_lengths rnn_n_hiddens rnn_type
                  rnn_keep_prob)
    ∧ build_siamese_rnn_side x x_lengths rnn_n_hiddens ff_n_hiddens rnn_type
        rnn_keep_prob ff_keep_prob bidirectional
      = BuildFeedforward
          (if is_lstm rnn_type then AttrH (RnnStates c) else RnnStates c)
          ff_n_hiddens ff_keep_prob.
Proof.
  eexists. split; [apply build_side_encoder|].
  unfold build_siamese_rnn_side.
  by destruct bidirectional, (is_lstm rnn_type).
Qed.

End SiameseGraph.

Section Labels.

Import Siamese.

Lemma label_ids_other (l : list string) : ∀ (i : nat) (m : gmap string nat) x,
  x ∉ l →
  foldl (λ label_to_id '(i, label), <[label := i]> label_to_id) m
    (enumerate_from i l) !! x = m !! x.
Proof.
  induction l as [|a l IH]; intros i m x Hx; simpl; [done|].
  apply not_elem_of_cons in Hx as [Hxa Hx].
  rewrite IH by done. by apply lookup_insert_ne.
Qed.

Lemma label_ids_lookup (l : list string) : ∀ (i : nat) (m : gmap string nat) j x,
  NoDup l → l !! j = Some x →
  foldl (λ label_to_id '(i, label), <[label := i]> label_to_id) m
    (enumerate_from i l) !! x = Some (i + j)%nat.
Proof.
  induction l as [|a l IH]; intros i m j x Hnd Hj; [done|].
  apply NoDup_cons in Hnd as [Ha Hnd]. simpl.
  destruct j as [|j]; simpl in Hj.
  - injection Hj as ->. rewrite label_ids_other by done.
    by rewrite lookup_insert_eq, Nat.add_0_r.
  - rewrite (IH (S i) _ j x) by done. f_equal. lia.
Qed.

Lemma sorted_label_set_NoDup (labels : list string) :
  NoDup (sorted_label_set labels).
Proof.
  unfold sorted_label_set. rewrite merge_sort_Permutation.
  apply NoDup_remove_dups.
Qed.

Lemma sorted_label_set_elem (labels : list string) x :
  x ∈ sorted_label_set labels ↔ x ∈ labels.
Proof.
  unfold sorted_label_set. rewrite merge_sort_Permutation.
  apply elem_of_remove_dups.
Qed.

(** The identifier of a label is its rank among the sorted distinct
    labels. *)
Lemma label_ids_rank (labels : list string) x :
  x ∈ labels →
  ∃ k, label_ids labels !! x = Some k
       ∧ sorted_label_set labels !! k = Some x.
Proof.
  intros Hx. apply sorted_label_set_elem in Hx.
  apply list_elem_of_lookup in Hx as [k Hk].
  exists k. split; [|done]. unfold label_ids.
  by rewrite (label_ids_lookup _ 0 ∅ k x (sorted_label_set_NoDup labels) Hk).
Qed.

Lemma convert_labels_among (labels ls : list string) :
  (∀ x, x ∈ ls → x ∈ labels) →
  ∃ ys,
    mapM (λ label, Z.of_nat <$> label_ids labels !! label) ls = Some ys
    ∧ Forall2 (λ label y, ∃ k, y = Z.of_nat k
                 ∧ sorted_label_set labels !! k = Some label) ls ys.
Proof.
  intros Hsub.
  assert (∃ ys, Forall2 (λ label y,
            (Z.of_nat <$> label_ids labels !! label) = Some y
            ∧ ∃ k, y = Z.of_nat k
                ∧ sorted_label_set labels !! k = Some label) ls ys)
    as (ys & HF).
  { induction ls as [|a ls IH]; [exists []; constructor|].
    destruct IH as (ys & HF).
    { intros x Hx. apply Hsub. by right. }
    destruct (label_ids_rank labels a) as (k & Hk & Hrank).
    { apply Hsub. left. }
    exists (Z.of_nat k :: ys). constructor; [|done].
    rewrite Hk. split; [done | by exists k]. }
  exists ys. split.
  - apply mapM_Some. eapply Forall2_impl; [exact HF|]. by intros ? ? [? _].
  - eapply Forall2_impl; [exact HF|]. by intros ? ? [_ ?].
Qed.

Lemma convert_labels_rank (labels : list string) :
  ∃ train_y,
    convert_labels labels = Some train_y
    ∧ Forall2 (λ label y, ∃ k, y = Z.of_nat k
                 ∧ sorted_label_set labels !! k = Some label)
        labels train_y.
Proof. by apply convert_labels_among. Qed.

End Labels.

Section SiameseTraining.

Import Siamese.

Variables (features record : Type).
Variable md5_hexdigest : string → string.
Variable repr_items : list (string * pyval) → string.
Variable isdir : string → bool.
Variable load_data_from_npz : string → min_length_arg → dataset features.
Variable trunc_and_limit_dim :
  list features → list Z → Z → pyval → list features * list Z.
Variable train_fixed_epochs_external_val :
  training_call features → record.
Variable samediff_val : string → bool → float * float.

Abbreviation train_siamese :=
  (train_siamese md5_hexdigest repr_items isdir
     load_data_from_npz trunc_and_limit_dim train_fixed_epochs_external_val
     samediff_val).

Ltac invert_bind H :=
  repeat match type of H with
  | (?o ≫= _) = Some _ =>
      let E := fresh "E" in
      destruct o eqn:E; simpl in H; [|discriminate]
  | (let '(_, _) := ?p in _) = Some _ =>
      let E := fresh "E" in destruct p eqn:E
  end.

Lemma path_join_suffix (a b : string) : ∃ prefix, Py.path_join a b = prefix +:+ b.
Proof.
  unfold Py.path_join. destruct (Py.startswith_slash b); [by exists ""|].
  destruct (String.eqb a "" || Py.endswith_slash a)%bool; [by exists a|].
  exists (a +:+ "/"). by rewrite append_assoc.
Qed.

Lemma path_join_inside (a : string) :
  ∃ sep, (sep = "" ∨ sep = "/")
    ∧ ∀ b, Py.startswith_slash b = false →
           Py.path_join a b = a +:+ sep +:+ b.
Proof.
  unfold Py.path_join.
  destruct (String.eqb a "" || Py.endswith_slash a)%bool;
    [exists "" | exists "/"]; (split; [tauto|]); by intros b ->.
Qed.

(** C9: when [train_siamese] completes, it has written the training
    record and the options dictionary as pickles named [record_dict.pkl]
    and [options_dict.pkl] inside the model directory, and the path of that
    directory ends in the first 10 hex digits of the MD5 hash of the sorted
    items of the options dictionary it was called with. *)
Theorem record_and_options_pickled
    (options_dict : gmap string pyval) (r : run features record) :
  train_siamese options_dict = Some r →
  (∃ prefix,
      model_dir r
      = prefix +:+ substring 0 10
                     (md5_hexdigest (repr_items (sorted_items options_dict))))
  ∧ ∃ sep rest,
      (sep = "" ∨ sep = "/")
      ∧ files_written r
        = (model_dir r +:+ sep +:+ "record_dict.pkl",
           Pickle
             (RecordDict (train_fixed_epochs_external_val (call r))))
          :: (model_dir r +:+ sep +:+ "options_dict.pkl",
              Pickle
                (OptionsDict
                   (<["n_input" := VInt 13]> options_dict)))
          :: rest.
Proof.
  unfold Siamese.train_siamese. intros Hrun. invert_bind Hrun.
  injection Hrun as <-. simpl.
  split; [apply path_join_suffix|].
  match goal with
  | |- context [Py.path_join ?d "record_dict.pkl"] =>
      destruct (path_join_inside d) as (sep & Hsep & Hjoin)
  end.
  exists sep. eexists. split; [done|].
  by rewrite !Hjoin by done.
Qed.

End SiameseTraining.

(** ** The theorems on the sample inputs *)

Section OnSamples.

Import Reference.

Lemma ordered_Z (ds : list Z) : Reference.ordered ds.
Proof.
  unfold Reference.ordered, Reference.lt. simpl.
  split; [|split]; intros; rewrite ?Z.ltb_lt in *; lia.
Qed.

Lemma segments_are_maximal_runs_sample :
  ∃ rs segs,
    Segments.maximal_runs (Segments.retained Samples.fa_tokens) rs
    ∧ (∀ rs', Segments.maximal_runs (Segments.retained Samples.fa_tokens) rs'
              → rs' = rs)
    ∧ Segments.read_segments Py.float_of_decimal Samples.fa_lines = Some segs
    ∧ Forall2 (λ r s, Segments.run_entry r = Some s) rs segs.
Proof.
  apply (segments_are_maximal_runs Py.float_of_decimal Samples.fa_lines
           Samples.fa_tokens).
  - vm_compute. reflexivity.
  - vm_compute. discriminate.
  - vm_compute. repeat (constructor; [reflexivity|]). constructor.
Defined.

Lemma list_and_scp_lines_sample :
  Forall2 (λ '(b, st, en) o, ∃ s e len,
    Segments.frame st = Some s ∧ Segments.frame en = Some e
    ∧ Samples.lengths !! b = Some len ∧
    let e' := if len <? e then len - 1 else e in
    o = (if ((len <? e) && (len <? s))%bool
         then Segments.StdoutPrint (Segments.warning b)
         else Segments.FileWrite
           (b +:+ "_" +:+ Py.fmt_06d s +:+ "-" +:+ Py.fmt_06d e'
              +:+ ".fbank" +:+ "="
              +:+ Py.path_join Samples.feat_dir (b +:+ ".fbank")
              +:+ "[" +:+ Py.str_int s +:+ "," +:+ Py.str_int e' +:+ "]"
              +:+ String "010" "")))
    Samples.scp_segments Samples.scp_outputs.
Proof.
  apply (list_and_scp_lines Samples.feat_dir Samples.lengths
           Samples.scp_segments).
  vm_compute. reflexivity.
Defined.

Lemma scp_end_within_length_sample :
  Forall2 (λ '(b, st, en) o, ∃ s e len,
    Segments.frame st = Some s ∧ Segments.frame en = Some e
    ∧ Samples.lengths !! b = Some len
    ∧ (len < s → o = Segments.StdoutPrint (Segments.warning b))
    ∧ (s ≤ len < e
       → o = Segments.FileWrite (Segments.scp_line Samples.feat_dir b s (len - 1)))
    ∧ (e ≤ len → o = Segments.FileWrite (Segments.scp_line Samples.feat_dir b s e))
    ∧ (∀ text, o = Segments.FileWrite text →
         ∃ e', e' ≤ len ∧ text = Segments.scp_line Samples.feat_dir b s e'))
    Samples.scp_segments Samples.scp_outputs.
Proof.
  apply (scp_end_within_length Samples.feat_dir Samples.lengths
           Samples.scp_segments Samples.scp_outputs).
  - vm_compute. reflexivity.
  - repeat constructor; intros s e Hs He; vm_compute in Hs, He;
      injection Hs as <-; injection He as <-; lia.
Defined.

Lemma main_idempotent_sample :
  let w1 := (Links.main Samples.features_in_place).1 in
  Links.main w1 = (w1, None)
  ∧ ∃ new, Links.log w1 = Links.log Samples.features_in_place ++ new
      ∧ ∀ (t : string) (p : Links.path), Links.Linked t p ∈ new →
          (t = Links.train_npz
             ∧ Links.resolve (Links.files w1) false Links.train_link = inr p
             ∧ Links.isfile Samples.features_in_place Links.train_link = false)
          ∨ (t = Links.test_npz
             ∧ Links.resolve (Links.files w1) false Links.test_link = inr p
             ∧ Links.isfile Samples.features_in_place Links.test_link = false).
Proof.
  apply (main_idempotent Samples.features_in_place
           (Links.main Samples.features_in_place).1).
  - assert (Hok : (Links.main Samples.features_in_place).2 = None)
      by (vm_compute; reflexivity).
    rewrite <- Hok. by destruct (Links.main Samples.features_in_place).
  - vm_compute. reflexivity.
  - vm_compute. reflexivity.
Defined.

Lemma vq_nearest_first_sample :
  ∃ z_q,
    Reference.np_vq Samples.vq_data Samples.vq_embeds = Some z_q
    ∧ Forall2 (λ x z, ∃ k,
        Samples.vq_embeds !! k = Some z
        ∧ (∀ j e, Samples.vq_embeds !! j = Some e →
             Reference.s_ltb (Reference.euclid x e) (Reference.euclid x z)
             = false)
        ∧ (∀ j e, (j < k)%nat → Samples.vq_embeds !! j = Some e →
             Reference.s_ltb (Reference.euclid x z) (Reference.euclid x e)
             = true)) Samples.vq_data z_q.
Proof.
  apply (vq_nearest_first Samples.vq_data Samples.vq_embeds 2).
  - discriminate.
  - repeat constructor.
  - repeat constructor.
  - repeat (constructor; [apply ordered_Z|]). constructor.
Defined.

Lemma encdec_states_and_mask_sample :
  ∃ encoder_states decoder_output decoder_output_list,
    Reference.np_encdec_lazydynamic Samples.batch Samples.batch_lengths
      Samples.W_encoder Samples.b_encoder Samples.W_decoder Samples.b_decoder
      Samples.W_output Samples.b_output (Some 3)
    = Some (encoder_states, decoder_output, decoder_output_list)
    ∧ ∀ (i : nat) (l : Z), Samples.batch_lengths !! i = Some l →
        ∃ rows, Reference.a_data decoder_output !! i = Some rows
          ∧ ∀ k, (Z.to_nat l ≤ k < 3)%nat → rows !! k = Some [0].
Proof.
  destruct (encdec_states_and_mask Samples.batch Samples.batch_lengths
              Samples.W_encoder Samples.b_encoder Samples.W_decoder
              Samples.b_decoder Samples.W_output Samples.b_output (Some 3)
              2 3 1 2 1 3)
    as (eo & es & dout & dl & _ & Hrun & _ & Hrows).
  - reflexivity.
  - split; [reflexivity|]. repeat constructor.
  - reflexivity.
  - lia.
  - split; [reflexivity|]. repeat constructor.
  - reflexivity.
  - reflexivity.
  - reflexivity.
  - lia.
  - split; [reflexivity|]. repeat constructor.
  - reflexivity.
  - reflexivity.
  - reflexivity.
  - split; [reflexivity|]. repeat constructor.
  - reflexivity.
  - reflexivity.
  - reflexivity.
  - reflexivity.
  - repeat constructor; lia.
  - exists es, dout, dl. split; [exact Hrun|].
    intros i l Hl. destruct (Hrows i l Hl) as (_ & rows & Hr & _ & Hz).
    exists rows. split; [exact Hr | exact Hz].
Defined.

Lemma side_encoder_and_feedforward_sample :
  ∃ c,
    Siamese.side_encoder
      (Siamese.build_siamese_rnn_side
         (Siamese.Placeholder 0 Siamese.TF_DTYPE [None; None; Some 13])
         (Siamese.Placeholder 1 Siamese.TF_ITYPE [None])
         (Siamese.VList [Siamese.VInt 400]) (Siamese.VList [Siamese.VInt 130])
         (Siamese.VStr "lstm") (Siamese.VFloat 1) (Siamese.VFloat 1) true)
    = Some c
    ∧ Siamese.is_bidirectional c = true.
Proof.
  destruct (side_encoder_and_feedforward
              (Siamese.Placeholder 0 Siamese.TF_DTYPE [None; None; Some 13])
              (Siamese.Placeholder 1 Siamese.TF_ITYPE [None])
              (Siamese.VList [Siamese.VInt 400])
              (Siamese.VList [Siamese.VInt 130])
              (Siamese.VStr "lstm") (Siamese.VFloat 1) (Siamese.VFloat 1) true)
    as (c & Hc & Hb & _).
  exists c. split; [exact Hc|]. by apply Hb.
Defined.

Lemma sample_run_completes :
  is_Some
    (Siamese.train_siamese Samples.md5_hexdigest Samples.repr_items
       Samples.isdir Samples.load_data_from_npz Samples.trunc_and_limit_dim
       Samples.train_fixed_epochs_external_val Samples.samediff_val
       (Siamese.main_options Samples.arguments)).
Proof.
  apply (bool_decide_unpack _). vm_compute. exact I.
Defined.

Lemma record_and_options_pickled_sample :
  ∃ r prefix,
    Siamese.train_siamese Samples.md5_hexdigest Samples.repr_items
      Samples.isdir Samples.load_data_from_npz Samples.trunc_and_limit_dim
      Samples.train_fixed_epochs_external_val Samples.samediff_val
      (Siamese.main_options Samples.arguments) = Some r
    ∧ Siamese.model_dir r = prefix +:+ "9e107d9d37".
Proof.
  destruct sample_run_completes as [r Hrun]. exists r.
  destruct (record_and_options_pickled _ _ _ _ _ _ _ _ _ _ _ Hrun)
    as ((prefix & Hdir) & _).
  exists prefix. split; [exact Hrun | exact Hdir].
Defined.

End OnSamples.

(** ** Behaviour at the edges of the theorems above *)

Section Boundary.

Import Reference.

(** An end time equal to the loop's sentinel [-1] hides the run it ends:
    the first of these two runs is not recorded. *)
Example end_time_minus_one_is_dropped :
  Segments.read_segments Py.float_of_decimal
    ["a 0.0 -1 x"; "b 0.5 1.25 y"]
  = Some [("b", Py.Float 0.5, Py.Float 1.25)].
Proof. vm_compute. reflexivity. Qed.

(** Without a retained token the list holds the initial values. *)
Example no_retained_token :
  Segments.read_segments Py.float_of_decimal ["a 0.0 0.5 SIL"]
  = Some [("", Py.Int (-1), Py.Int (-1))].
Proof. vm_compute. reflexivity. Qed.

(** A segment whose start is after its end is written when only its start
    frame exceeds the length. *)
Example inverted_segment_is_written :
  Segments.write_scp Samples.feat_dir Samples.lengths
    [("s01-01a", Py.Float 2, Py.Float 1.25)]
  = Some [Segments.FileWrite
            (Segments.scp_line Samples.feat_dir "s01-01a" 200 125)].
Proof. vm_compute. reflexivity. Qed.

(** Frames are rounded on the float product: 0.285 * 100 is just below
    28.5 and 0.125 * 100 is exactly 12.5. *)
Example frame_rounding :
  Segments.frame (Py.Float 0.285) = Some 28
  ∧ Segments.frame (Py.Float 0.125) = Some 13.
Proof. split; vm_compute; reflexivity. Qed.

(** A length beyond the frames of the batch makes the final layer write
    out of range: the function raises. *)
Example length_beyond_batch :
  np_encdec_lazydynamic Samples.batch [4; 1] Samples.W_encoder
    Samples.b_encoder Samples.W_decoder Samples.b_decoder Samples.W_output
    Samples.b_output (Some 4) = None.
Proof. vm_compute. reflexivity. Qed.

(** The sample batch, run. *)
Example encdec_sample_run :
  np_encdec_lazydynamic Samples.batch Samples.batch_lengths
    Samples.W_encoder Samples.b_encoder Samples.W_decoder Samples.b_decoder
    Samples.W_output Samples.b_output None
  = Some ([[1; 1]; [1; 0]],
          Array3 (2, 3, 1)%nat [[[12]; [12]; [0]]; [[12]; [0]; [0]]],
          [[[12]; [12]]; [[12]]]).
Proof. vm_compute. reflexivity. Qed.

(** The tie of the third sample vector goes to the entry of index 0. *)
Example vq_sample_run :
  np_vq Samples.vq_data Samples.vq_embeds = Some [[2; 0]; [5; 5]; [4; 0]].
Proof. vm_compute. reflexivity. Qed.

(** The header line is split at the spaces before the path is read: with
    a space in the feature directory the name recorded is not the
    basename of the file. *)
Example feature_directory_with_a_space :
  Segments.hlist_entry "Source: /w/my dir/s01-01a.fbank Samples: 150"
  = Some ("my", 150).
Proof. vm_compute. reflexivity. Qed.

(** When the feature files are missing, the links of a first run dangle
    and the second run stops on the existing link. *)
Example second_run_without_features :
  (Links.main (Links.main (Links.World ∅ [])).1).2 = Some Links.EEXIST.
Proof. vm_compute. reflexivity. Qed.

(** When [data] is a symbolic link to a directory elsewhere, the links are
    made in that directory and their targets are taken from there: with
    the feature files beside the working directory they dangle, and the
    second run stops on the first of them. *)
Example second_run_through_a_linked_directory :
  let r := Links.main Samples.data_is_a_link in
  r.2 = None
  ∧ Links.files r.1
      !! (false, ["deep"; "er"; "data"; "xitsonga.mfcc"; "train.utd.npz"])
    = Some (Links.Symlink Links.train_npz)
  ∧ Links.isfile r.1 Links.train_link = false
  ∧ (Links.main r.1).2 = Some Links.EEXIST.
Proof. vm_compute. repeat split; reflexivity. Qed.

(** When [data] is a regular file, the directory cannot be made below
    it. *)
Example output_directory_below_a_file :
  (Links.main (Links.World {[ (false, ["data"]) := Links.File ]} [])).2
  = Some Links.ENOTDIR.
Proof. vm_compute. reflexivity. Qed.

End Boundary.

(** ** More on [get_segments_scp.py] *)

Section SegmentReaderEdges.

Import Segments.

Variable py_float : string → option float.

Lemma scan_silence (toks : list token) : ∀ st,
  retained toks = [] → foldl scan_step st toks = st.
Proof.
  induction toks as [|t toks IH]; intros st Hret; [done|].
  unfold retained in Hret. simpl.
  destruct (is_silence (token_label t)) eqn:Hsil.
  - rewrite filter_cons_False in Hret by (by rewrite Hsil).
    unfold scan_step at 2. rewrite Hsil. by apply IH.
  - by rewrite filter_cons_True in Hret.
Qed.

(** X2: A file without a retained token (an empty file, or only SIL and SPN)
    still gives one entry: the initial values ("", -1, -1). *)
Theorem read_segments_without_retained (lines : list string)
    (toks : list token) :
  parse_file py_float lines = Some toks →
  retained toks = [] →
  read_segments py_float lines = Some [("", Py.Int (-1), Py.Int (-1))].
Proof.
  intros Hp Hret. unfold read_segments.
  rewrite (scan_lines_parsed py_float lines toks) by done.
  by rewrite scan_silence.
Qed.

(** X3: The segment list is never empty. *)
Theorem read_segments_nonempty (lines : list string) (segs : list segment) :
  read_segments py_float lines = Some segs → segs ≠ [].
Proof.
  unfold read_segments.
  destruct (scan_lines py_float scan_init lines) as [st|]; [|done].
  simpl. intros [= <-]. by destruct (segments st).
Qed.

Lemma replace_char_without (a b : ascii) (s : string) :
  a ≠ b → without a (Py.replace_char a b s).
Proof.
  intros Hab. unfold without. induction s as [|c s IH]; simpl.
  - apply not_elem_of_nil.
  - apply not_elem_of_cons. split; [|done].
    destruct (Ascii.eqb_spec c a); congruence.
Qed.

Lemma parse_line_without_underscore (line : string) (t : token) :
  parse_line py_float line = Some t → without "_" (utterance t).
Proof.
  unfold parse_line.
  destruct (Py.split (Py.strip line)) as [|u [|s [|e [|l [|]]]]]; try done.
  destruct (py_float s); [|done]. destruct (py_float e); [|done].
  simpl. intros [= <-]. simpl. by apply replace_char_without.
Qed.

Lemma scan_step_without_underscore (st : scan) (t : token) :
  without "_" (utterance t) →
  without "_" (prev_utterance st) →
  Forall (λ seg : segment, without "_" seg.1.1) (segments st) →
  without "_" (prev_utterance (scan_step st t))
  ∧ Forall (λ seg : segment, without "_" seg.1.1)
      (segments (scan_step st t)).
Proof.
  intros Ht Hprev Hsegs. unfold scan_step.
  destruct (is_silence (token_label t)); [done|]. simpl. split; [done|].
  destruct (_ || _)%bool; [|done].
  destruct (Py.ne _ _); [|done].
  apply Forall_app. split; [done|]. by constructor.
Qed.

(** X4: No underscore is left in the utterance of a segment: the names under
    which the SCP loop looks up [lengths] are the hyphenated ones. *)
Theorem segments_without_underscore (lines : list string)
    (segs : list segment) :
  read_segments py_float lines = Some segs →
  Forall (λ seg : segment, without "_" seg.1.1) segs.
Proof.
  unfold read_segments.
  destruct (scan_lines py_float scan_init lines) as [st|] eqn:Hscan; [|done].
  simpl. intros [= <-].
  assert (Hinv : without "_" (prev_utterance st)
                 ∧ Forall (λ seg : segment, without "_" seg.1.1)
                     (segments st)).
  { assert (Hinit : without "_" (prev_utterance scan_init)
                    ∧ Forall (λ seg : segment, without "_" seg.1.1)
                        (segments scan_init)).
    { split; [apply not_elem_of_nil | constructor]. }
    revert Hinit Hscan. generalize scan_init as st0. revert st.
    induction lines as [|line lines IH]; intros st st0 Hinit Hscan; simpl in *.
    - by injection Hscan as <-.
    - destruct (parse_line py_float line) as [t|] eqn:Hp; [|done].
      simpl in Hscan. apply (IH st (scan_step st0 t)); [|done].
      destruct Hinit.
      apply scan_step_without_underscore; [|done..].
      by eapply parse_line_without_underscore. }
  destruct Hinv. apply Forall_app. split; [done|]. by constructor.
Qed.

End SegmentReaderEdges.


Section Lengths.

Import Segments.

Lemma path_tail_without_slash (c : string) :
  without "/" c → Py.path_tail c = c.
Proof.
  unfold without. induction c as [|x c IH]; [done|].
  simpl. intros Hx. apply not_elem_of_cons in Hx as [Hx Hc].
  assert (existsb (Ascii.eqb "/") (list_ascii_of_string c) = false) as ->.
  { apply not_true_is_false. intros [y [Hy Heq]]%existsb_exists.
    apply Ascii.eqb_eq in Heq as <-. by apply list_elem_of_In in Hy. }
  destruct (Ascii.eqb_spec x "/"); congruence.
Qed.

Lemma path_tail_after_slash (a c : string) :
  without "/" c → Py.path_tail (a +:+ "/" +:+ c) = c.
Proof.
  intros Hc. induction a as [|x a IH].
  - change ("" +:+ "/" +:+ c) with (String "/" c). simpl.
    assert (existsb (Ascii.eqb "/") (list_ascii_of_string c) = false) as ->.
    { apply not_true_is_false. intros [y [Hy Heq]]%existsb_exists.
      apply Ascii.eqb_eq in Heq as <-. by apply list_elem_of_In in Hy. }
    done.
  - change (String x a +:+ "/" +:+ c) with (String x (a +:+ "/" +:+ c)).
    simpl.
    assert (existsb (Ascii.eqb "/")
              (list_ascii_of_string (a +:+ "/" +:+ c)) = true) as ->; [|done].
    apply existsb_exists. exists "/"%char. split; [|done].
    clear IH. induction a as [|y a IH]; [by left|]. by right.
Qed.

Lemma endswith_slash_inv (a : string) :
  Py.endswith_slash a = true → ∃ a', a = a' +:+ "/".
Proof.
  induction a as [|x a IH]; [done|]. simpl.
  destruct a as [|y a].
  - intros ->%Ascii.eqb_eq. by exists "".
  - intros [a' ->]%IH. by exists (String x a').
Qed.

Lemma before_last_dot_fbank (b : string) :
  Py.before_last_dot (b +:+ ".fbank") = Some b.
Proof.
  induction b as [|x b IH]; [done|].
  change (String x b +:+ ".fbank") with (String x (b +:+ ".fbank")).
  simpl. by rewrite IH.
Qed.

Lemma splitext_root_fbank (b : string) :
  (∃ c, c ∈ list_ascii_of_string b ∧ c ≠ "."%char) →
  Py.splitext_root (b +:+ ".fbank") = b.
Proof.
  induction b as [|x b IH]; intros (c & Hc & Hdot).
  - by apply elem_of_nil in Hc.
  - change (String x b +:+ ".fbank") with (String x (b +:+ ".fbank")).
    simpl. destruct (Ascii.eqb_spec x ".") as [->|Hx].
    + f_equal. apply IH. exists c. split; [|done].
      simpl in Hc. by apply elem_of_cons in Hc as [->|Hc].
    + change (String x (b +:+ ".fbank")) with (String x b +:+ ".fbank").
      by rewrite before_last_dot_fbank.
Qed.

Lemma feature_path_tail (feat_dir b : string) :
  without "/" b →
  Py.path_tail (Py.path_join feat_dir (b +:+ ".fbank")) = b +:+ ".fbank".
Proof.
  intros Hb.
  assert (Hbf : without "/" (b +:+ ".fbank")).
  { unfold without in *. induction b as [|x b IH].
    - vm_compute. intros H. repeat (apply elem_of_cons in H as [H|H]; [done|]).
      by apply elem_of_nil in H.
    - change (String x b +:+ ".fbank") with (String x (b +:+ ".fbank")).
      simpl in *. apply not_elem_of_cons in Hb as [? ?].
      apply not_elem_of_cons. split; [done|]. by apply IH. }
  unfold Py.path_join.
  assert (Py.startswith_slash (b +:+ ".fbank") = false) as ->.
  { destruct b as [|x b]; [done|]. simpl.
    apply Ascii.eqb_neq. intros ->. apply Hb. left. }
  destruct (String.eqb_spec feat_dir "") as [->|Hne]; simpl.
  - by apply path_tail_without_slash.
  - destruct (Py.endswith_slash feat_dir) eqn:He.
    + destruct (endswith_slash_inv _ He) as [a' ->].
      rewrite append_assoc. simpl. by apply path_tail_after_slash.
    + by apply path_tail_after_slash.
Qed.

Lemma feature_path_key (feat_dir b : string) :
  without "/" b →
  (∃ c, c ∈ list_ascii_of_string b ∧ c ≠ "."%char) →
  lengths_key (Py.path_join feat_dir (b +:+ ".fbank")) = b.
Proof.
  intros Hb Hdot. unfold lengths_key.
  rewrite (feature_path_tail _ _ Hb). by apply splitext_root_fbank.
Qed.

(** The path of a feature file is not one of the two words the loop looks
    for, and is not empty. *)
Lemma feature_path_no_keyword (feat_dir b : string) :
  without "/" b →
  Py.path_join feat_dir (b +:+ ".fbank") ≠ "Samples:"
  ∧ Py.path_join feat_dir (b +:+ ".fbank") ≠ "".
Proof.
  intros Hb. pose proof (feature_path_tail feat_dir b Hb) as Htail.
  pose proof (before_last_dot_fbank b) as Hdot.
  split; intros Heq; rewrite Heq in Htail; simpl in Htail;
    rewrite <- Htail in Hdot; discriminate Hdot.
Qed.

(** Splitting at a character what was joined with it gives the pieces
    back, when the character is in none of them. *)
Lemma split_on_piece (sep : ascii) (f : string) : ∀ cur,
  without sep f →
  Py.split_on sep cur f
  = [string_of_list_ascii (rev cur ++ list_ascii_of_string f)].
Proof.
  unfold without. induction f as [|x f IH]; intros cur Hf; simpl.
  - by rewrite app_nil_r.
  - apply not_elem_of_cons in Hf as [Hx Hf].
    destruct (Ascii.eqb_spec x sep) as [->|_]; [done|].
    rewrite (IH _ Hf). simpl. by rewrite <- app_assoc.
Qed.

Lemma split_on_piece_more (sep : ascii) (f rest : string) : ∀ cur,
  without sep f →
  Py.split_on sep cur (f +:+ String sep rest)
  = string_of_list_ascii (rev cur ++ list_ascii_of_string f)
    :: Py.split_on sep [] rest.
Proof.
  unfold without. induction f as [|x f IH]; intros cur Hf.
  - change ("" +:+ String sep rest) with (String sep rest). simpl.
    rewrite Ascii.eqb_refl. by rewrite app_nil_r.
  - change (String x f +:+ String sep rest)
      with (String x (f +:+ String sep rest)).
    apply not_elem_of_cons in Hf as [Hx Hf]. simpl.
    destruct (Ascii.eqb_spec x sep) as [->|_]; [done|].
    rewrite (IH _ Hf). simpl. by rewrite <- app_assoc.
Qed.

Lemma split_on_concat (sep : ascii) (fields : list string) :
  Forall (without sep) fields → fields ≠ [] →
  Py.split_on sep [] (String.concat (String sep "") fields) = fields.
Proof.
  induction 1 as [|f fields Hf Hfields IH]; [done|]. intros _.
  destruct fields as [|g fields].
  - simpl. rewrite (split_on_piece _ _ [] Hf). simpl.
    by rewrite string_of_list_ascii_of_string.
  - change (String.concat (String sep "") (f :: g :: fields))
      with (f +:+ String sep (String.concat (String sep "") (g :: fields))).
    rewrite (split_on_piece_more _ _ _ [] Hf). simpl.
    rewrite string_of_list_ascii_of_string. f_equal. by apply IH.
Qed.

Lemma index_of_app (x : string) (l1 l2 : list string) :
  x ∉ l1 → index_of x (l1 ++ x :: l2) = Some (length l1).
Proof.
  induction l1 as [|y l1 IH]; intros Hx; simpl.
  - by rewrite String.eqb_refl.
  - apply not_elem_of_cons in Hx as [Hxy Hx].
    destruct (String.eqb_spec y x) as [->|_]; [done|].
    by rewrite (IH Hx).
Qed.

Lemma filter_named_gap (k : nat) (l : list string) :
  filter (λ i : string, i ≠ "") (replicate k "" ++ l)
  = filter (λ i : string, i ≠ "") l.
Proof. induction k as [|k IH]; [reflexivity|]. simpl. exact IH. Qed.

(** X6: The name under which the length of a feature file is recorded is
    the basename that the SCP loop uses to build the path of that file. On
    a header line made of items with spaces between them, any number of
    them, where "Source:" is followed by the path [<feat_dir>/b.fbank] and
    later "Samples:" by the digits of [n], the loop records [n] under [b],
    so the [lengths[basename]] of a segment is the length of the file whose
    path the SCP line gives. No item has a space in it (the directory has
    none), and the basename has no slash and is not made of dots only. *)
Theorem lengths_key_of_feature_path (feat_dir b frames : string) (n : Z)
    (pre mid post : list string) (gap gap' : nat) :
  let source := Py.path_join feat_dir (b +:+ ".fbank") in
  let items :=
    pre ++ "Source:" :: replicate gap "" ++ source
        :: mid ++ "Samples:" :: replicate gap' "" ++ frames :: post in
  Forall (without " ") items →
  "Source:" ∉ pre → "Samples:" ∉ pre → "Samples:" ∉ mid →
  frames ≠ "" → Py.int_of_string frames = Some n →
  without "/" b →
  (∃ c, c ∈ list_ascii_of_string b ∧ c ≠ "."%char) →
  hlist_entry (String.concat " " items) = Some (b, n).
Proof.
  intros source items Hitems Hpre Hpre' Hmid Hframes Hint Hb Hdot.
  destruct (feature_path_no_keyword feat_dir b Hb) as [Hkey Hne].
  fold source in Hkey, Hne.
  unfold hlist_entry.
  rewrite (split_on_concat " " items Hitems);
    [|unfold items; by destruct pre].
  set (keep := filter (λ i : string, i ≠ "")).
  assert (Hfields : keep items
                    = keep pre ++ "Source:" :: source
                        :: keep mid ++ "Samples:" :: frames :: keep post).
  { unfold items, keep. rewrite filter_app, filter_cons_True by done.
    rewrite filter_named_gap, filter_cons_True by done.
    rewrite filter_app, filter_cons_True by done.
    by rewrite filter_named_gap, filter_cons_True by done. }
  rewrite Hfields.
  assert (Hin : ∀ (x : string) (l : list string), x ∉ l → x ∉ keep l).
  { intros x l Hx Hk. apply Hx. unfold keep in Hk.
    by apply list_elem_of_filter in Hk as [_ ?]. }
  rewrite (index_of_app "Source:" (keep pre) _ (Hin _ _ Hpre)). simpl.
  assert (Hs : (keep pre ++ "Source:" :: source
                  :: keep mid ++ "Samples:" :: frames :: keep post)
               !! S (length (keep pre)) = Some source).
  { rewrite lookup_app_r by lia.
    by replace (S (length (keep pre)) - length (keep pre))%nat with 1%nat
      by lia. }
  rewrite Hs. simpl.
  replace (keep pre ++ "Source:" :: source
             :: keep mid ++ "Samples:" :: frames :: keep post)
    with ((keep pre ++ "Source:" :: source :: keep mid)
            ++ "Samples:" :: frames :: keep post)
    by (by rewrite <- app_assoc).
  rewrite index_of_app.
  2:{ intros Hx. apply elem_of_app in Hx as [Hx|Hx];
        [by apply (Hin _ _ Hpre')|].
      apply elem_of_cons in Hx as [Hx|Hx]; [discriminate Hx|].
      apply elem_of_cons in Hx as [Hx|Hx]; [by apply Hkey|].
      by apply (Hin _ _ Hmid). }
  simpl. rewrite lookup_app_r by lia.
  replace (S (length (keep pre ++ "Source:" :: source :: keep mid))
           - length (keep pre ++ "Source:" :: source :: keep mid))%nat
    with 1%nat by lia.
  simpl. rewrite Hint. simpl.
  unfold source. by rewrite (feature_path_key _ _ Hb Hdot).
Qed.

Lemma read_lengths_other (lines : list string) : ∀ lengths result u,
  read_lengths lengths lines = Some result →
  Forall (λ line, ∀ n, hlist_entry line ≠ Some (u, n) ∨ line = "") lines →
  result !! u = lengths !! u.
Proof.
  induction lines as [|line lines IH]; intros lengths result u Hread Hno;
    simpl in Hread.
  - by injection Hread as <-.
  - apply Forall_cons in Hno as [Hline Hno].
    destruct (String.eqb_spec line "") as [->|Hne]; [by eapply IH|].
    destruct (hlist_entry line) as [[utt n]|] eqn:He; [|done].
    simpl in Hread. rewrite (IH _ _ u Hread Hno).
    apply lookup_insert_ne. intros ->.
    by destruct (Hline n).
Qed.

(** X8: When two lines name the same file, the later one decides: the length
    recorded for a name is the one of the last line with that name. *)
Theorem lengths_from_last_line (before after : list string) (line u : string)
    (n : Z) (result : gmap string Z) :
  read_lengths ∅ (before ++ line :: after) = Some result →
  line ≠ "" → hlist_entry line = Some (u, n) →
  Forall (λ l, ∀ n', hlist_entry l ≠ Some (u, n') ∨ l = "") after →
  result !! u = Some n.
Proof.
  generalize (∅ : gmap string Z) as lengths.
  induction before as [|l before IH]; intros lengths Hread Hne He Hafter;
    simpl in Hread.
  - destruct (String.eqb_spec line ""); [done|].
    rewrite He in Hread. simpl in Hread.
    rewrite (read_lengths_other _ _ _ u Hread Hafter).
    apply lookup_insert_eq.
  - destruct (String.eqb_spec l "") as [->|Hl]; [by eapply IH|].
    destruct (hlist_entry l) as [[utt m]|]; [|done].
    simpl in Hread. by eapply IH.
Qed.

(** X9: A name that no line has is not recorded: looking it up in [lengths]
    raises a [KeyError]. *)
Theorem lengths_only_from_lines (lines : list string) (u : string)
    (result : gmap string Z) :
  read_lengths ∅ lines = Some result →
  Forall (λ l, ∀ n, hlist_entry l ≠ Some (u, n) ∨ l = "") lines →
  result !! u = None.
Proof.
  intros Hread Hno. by rewrite (read_lengths_other _ _ _ u Hread Hno).
Qed.

End Lengths.

(** ** More on [link_xitsonga_mfcc.py] *)

Section LinkScriptEdges.

Import Links.

Lemma main_grows (w0 : world) :
  ∃ new, grows w0 (main w0).1 new.
Proof.
  rewrite main_unfold.
  destruct (if negb (isdir w0 output_dir) then makedirs w0 output_dir
            else (w0, None)) as [wa ea] eqn:Hdir.
  destruct (main_dir_grows _ _ _ Hdir) as (na & Hga & _).
  destruct ea as [err|]; [by exists na|].
  destruct (link_step wa train_npz train_link) as [wb eb] eqn:Hl1.
  destruct (link_step_grows _ _ _ _ _ Hl1) as [n1 Hg1].
  destruct eb as [err|].
  { exists (na ++ n1). by eapply grows_trans. }
  destruct (link_step wb test_npz test_link) as [wc ec] eqn:Hl2.
  destruct (link_step_grows _ _ _ _ _ Hl2) as [n2 Hg2].
  exists (na ++ n1 ++ n2).
  eapply grows_trans; [exact Hga|]. by eapply grows_trans.
Qed.

(** X10: Whether it succeeds or raises, [main] removes and replaces
    nothing: every entry of the file system is still there, unchanged, and
    the output only grows. *)
Theorem main_only_adds (w0 : world) (p : path) (x : node) :
  files w0 !! p = Some x →
  files (main w0).1 !! p = Some x
  ∧ ∃ new, log (main w0).1 = log w0 ++ new.
Proof.
  intros Hp. destruct (main_grows w0) as (new & Hsub & Hlog).
  split; [by eapply lookup_weaken | by exists new].
Qed.

(** X11: After a run that succeeds, the output directory is a directory and
    both link paths exist. *)
Theorem main_leaves_directory_and_links (w0 w1 : world) :
  main w0 = (w1, None) →
  isdir w1 output_dir = true
  ∧ lexists w1 train_link = true
  ∧ lexists w1 test_link = true.
Proof. apply main_success. Qed.

(** X12: In an output directory where [train.utd.npz] exists but does not
    lead to a file (a dangling link, a directory), [main] prints its
    message and raises [EEXIST], leaving the file system as it was. *)
Theorem main_raises_on_existing_link (w : world) :
  isdir w output_dir = true →
  isfile w train_link = false →
  lexists w train_link = true →
  main w
  = (print w ("Linking: " +:+ train_npz +:+ " to " +:+ train_link),
     Some EEXIST).
Proof.
  intros Hd Hf Hl. rewrite main_unfold. rewrite Hd. cbn [negb].
  destruct npz_named as [Hnpz _].
  rewrite (link_step_exists _ _ _ Hnpz Hf Hl). reflexivity.
Qed.

(** X13: Without the proviso of idempotence: when, after a run that
    succeeds, one of the two link paths does not lead to a file (the
    feature file is missing), the next run raises [EEXIST]. *)
Theorem second_run_raises_on_dangling_link (w0 w1 : world) :
  main w0 = (w1, None) →
  isfile w1 train_link = false ∨ isfile w1 test_link = false →
  (main w1).2 = Some EEXIST.
Proof.
  intros Hmain Hdangling.
  destruct (main_success _ _ Hmain) as (Hd & Hl1 & Hl2).
  destruct npz_named as [Hn1 Hn2].
  rewrite main_unfold. rewrite Hd. cbn [negb].
  destruct (isfile w1 train_link) eqn:Hf1.
  - destruct Hdangling as [Habs|Hf2]; [discriminate Habs|].
    unfold link_step at 1. rewrite Hf1. cbn [negb].
    rewrite (link_step_exists _ _ _ Hn2 Hf2 Hl2). reflexivity.
  - rewrite (link_step_exists _ _ _ Hn1 Hf1 Hl1). reflexivity.
Qed.

End LinkScriptEdges.

(** ** More on the NumPy references *)

Section ReferenceEdges.

Import Reference.

Context {F : Type} `{Scalar F}.

Lemma same_rows_refl (a : list (list (list F))) : same_rows a a.
Proof. split; [reflexivity|]. intros k r Hk. exists r. by split. Qed.

Lemma same_rows_trans (a a' a'' : list (list (list F))) :
  same_rows a a' → same_rows a' a'' → same_rows a a''.
Proof.
  intros [L1 K1] [L2 K2]. split; [congruence|].
  intros k r Hk. destruct (K1 k r Hk) as (r1 & Hk1 & Hl1).
  destruct (K2 k r1 Hk1) as (r2 & Hk2 & Hl2).
  exists r2. split; [exact Hk2 | congruence].
Qed.

Lemma same_rows_length (a a' : list (list (list F))) (m : nat) :
  same_rows a a' →
  (∀ k r, a !! k = Some r → length r = m) →
  ∀ k r, a' !! k = Some r → length r = m.
Proof.
  intros [L K] Hm k r' Hk'.
  destruct (lookup_lt_is_Some_2 a k) as [r Hk].
  { apply lookup_lt_Some in Hk'. lia. }
  destruct (K k r Hk) as (r1 & Hk1 & Hl1).
  rewrite Hk' in Hk1. injection Hk1 as <-. rewrite Hl1. by eapply Hm.
Qed.

Lemma assign_row_keeps (a : list (list (list F))) (i j : nat) (v : list F)
    (a' : list (list (list F))) :
  assign_row a i j v = Some a' →
  same_rows a a'
  ∧ ∀ rows, a !! i = Some rows → (j < length rows)%nat.
Proof.
  unfold assign_row. intros Ha.
  destruct (a !! i) as [rows|] eqn:Hi; [|discriminate Ha]. simpl in Ha.
  destruct (rows !! j) as [old|] eqn:Hold; [|discriminate Ha]. simpl in Ha.
  destruct (if Nat.eqb (length v) (length old) then Some v else _)
    as [new|]; [|discriminate Ha].
  simpl in Ha. injection Ha as <-.
  assert (Hlt : (i < length a)%nat) by (by eapply lookup_lt_Some).
  split.
  - split; [apply length_insert|].
    intros k r Hk. destruct (decide (k = i)) as [->|Hne].
    + rewrite Hi in Hk. injection Hk as <-.
      exists (<[j := new]> rows).
      split; [by apply list_lookup_insert_eq | apply length_insert].
    + exists r. split; [|reflexivity]. by rewrite list_lookup_insert_ne.
  - intros rows' [= <-]. by eapply lookup_lt_Some.
Qed.

(** The inner loop writes one row per frame: it keeps the shape of the
    output, and cannot return when the frames do not fit the rows of the
    item. *)
Lemma rnn_steps_fits (W : matrix F) (b : list F) (xs : list (list F)) :
  ∀ (out : list (list (list F))) (i j : nat) (prev : list F)
    (out' : list (list (list F))),
    rnn_steps W b out i j prev xs = Some out' →
    same_rows out out'
    ∧ ∀ rows, out !! i = Some rows →
              xs = [] ∨ (j + length xs ≤ length rows)%nat.
Proof.
  induction xs as [|x xs IH]; intros out i j prev out' Hrun; simpl in Hrun.
  - injection Hrun as <-. split; [apply same_rows_refl|]. intros; by left.
  - destruct (np_dot (x ++ prev) W) as [v|]; [|discriminate Hrun].
    simpl in Hrun.
    destruct (broadcast s_add v b) as [s|]; [|discriminate Hrun].
    simpl in Hrun.
    destruct (assign_row out i j (map s_tanh s)) as [out1|] eqn:Ha;
      [|discriminate Hrun].
    simpl in Hrun.
    destruct (assign_row_keeps _ _ _ _ _ Ha) as [Hkeep Hj].
    destruct (IH _ _ _ _ _ Hrun) as [Hkeep' Hfit].
    split; [by eapply same_rows_trans|].
    intros rows Hi. right. specialize (Hj rows Hi).
    destruct Hkeep as [_ K]. destruct (K i rows Hi) as (rows1 & Hi1 & Hl1).
    destruct (Hfit rows1 Hi1) as [->|Hle]; simpl; lia.
Qed.

Lemma rnn_items_fits (x : array3 F) (x_lengths : list Z) (W : matrix F)
    (b : list F) (m : nat) (items : list nat) :
  ∀ (out out' : list (list (list F))),
    rnn_items x x_lengths W b out items = Some out' →
    (∀ k r, out !! k = Some r → length r = m) →
    ∀ i xi l, i ∈ items → (i < length out)%nat →
      a_data x !! i = Some xi → x_lengths !! i = Some l →
      (length (slice_to l xi) ≤ m)%nat.
Proof.
  induction items as [|i0 items IH]; intros out out' Hrun Hrows i xi l Hin;
    [by apply elem_of_nil in Hin|].
  simpl in Hrun. intros Hi Hxi Hl.
  destruct (x_lengths !! i0) as [l0|] eqn:Hl0; [|discriminate Hrun].
  simpl in Hrun.
  destruct (a_data x !! i0) as [x0|] eqn:Hx0; [|discriminate Hrun].
  simpl in Hrun.
  destruct (rnn_steps W b out i0 0 (zeros1 (m_cols W)) (slice_to l0 x0))
    as [out1|] eqn:Hsteps; [|discriminate Hrun].
  simpl in Hrun.
  destruct (rnn_steps_fits _ _ _ _ _ _ _ _ Hsteps) as [Hkeep Hfit].
  apply elem_of_cons in Hin as [->|Hin].
  - rewrite Hl0 in Hl. rewrite Hx0 in Hxi.
    injection Hl as <-. injection Hxi as <-.
    destruct (lookup_lt_is_Some_2 out i0 Hi) as [rows Hrows0].
    destruct (Hfit rows Hrows0) as [->|Hle]; [simpl; lia|].
    rewrite (Hrows _ _ Hrows0) in Hle. lia.
  - apply (IH out1 out' Hrun) with (i := i); try assumption.
    + by eapply same_rows_length.
    + destruct Hkeep as [-> _]. exact Hi.
Qed.

(** X14: [np_rnn] raises (an [IndexError] at [outputs[i_data, i_step, :]]) when
    the sequence of an item, cut at its length, has more frames than
    [maxlength]. *)
Theorem np_rnn_raises_on_long_sequence
    (x : array3 F) (x_lengths : list Z) (W : matrix F) (b : list F)
    (maxlength : option Z) (m : Z) (i : nat) (xi : list (list F)) (l : Z) :
  resolve_maxlength x_lengths maxlength = Some m →
  (i < (a_shape x).1.1)%nat →
  a_data x !! i = Some xi → x_lengths !! i = Some l →
  (Z.to_nat m < length (slice_to l xi))%nat →
  np_rnn x x_lengths W b maxlength = None.
Proof.
  intros Hm Hi Hxi Hl Hlong. unfold np_rnn. rewrite Hm. simpl.
  destruct (m <? 0); [reflexivity|].
  destruct (rnn_items _ _ _ _ _ _) as [out'|] eqn:Hrun; [|reflexivity].
  exfalso.
  pose proof (rnn_items_fits x x_lengths W b (Z.to_nat m) _ _ _ Hrun) as Hf.
  assert (Hle : (length (slice_to l xi) ≤ Z.to_nat m)%nat); [|lia].
  apply (Hf) with (i := i); try assumption.
  - intros k r Hk. unfold zeros3 in Hk.
    apply lookup_replicate in Hk as [-> _]. apply length_replicate.
  - apply elem_of_seq. lia.
  - unfold zeros3. by rewrite length_replicate.
Qed.

Lemma rnn_row_tail (W : matrix F) (b : list F) (h m : nat)
    (xi : list (list F)) (l : Z) :
  m_cols W = h →
  (length (slice_to l xi) ≤ m)%nat →
  length (rnn_row W b m xi l) = m
  ∧ take (length (slice_to l xi)) (rnn_row W b m xi l)
    = rnn_states W b (zeros1 h) (slice_to l xi)
  ∧ ∀ k, (length (slice_to l xi) ≤ k < m)%nat →
         rnn_row W b m xi l !! k = Some (zeros1 h).
Proof.
  intros Hcols Hfit. unfold rnn_row. rewrite Hcols.
  set (sts := rnn_states W b (zeros1 h) (slice_to l xi)).
  assert (Hlen : length sts = length (slice_to l xi)).
  { unfold sts. apply rnn_states_length. }
  rewrite Hlen. split; [|split].
  - rewrite length_app, length_replicate. lia.
  - rewrite <- Hlen. rewrite take_app_length. reflexivity.
  - intros k Hk. rewrite lookup_app_r by lia.
    apply lookup_replicate_2. lia.
Qed.

(** X15: [np_rnn] on a batch of shape (n, t, d) with fitting parameters, when
    every sequence cut at its length fits [maxlength]: the output has shape
    (n, maxlength, h); the row of an item holds the states of the cell along
    its frames, from the zero state, and then zero vectors up to
    [maxlength]. A negative length cuts frames off the end of the
    sequence. *)
Theorem np_rnn_states_then_zeros
    (x : array3 F) (x_lengths : list Z) (W : matrix F) (b : list F)
    (maxlength : option Z) (n t d h : nat) (m : Z) :
  a_shape x = (n, t, d) → wf_array3 x → length x_lengths = n →
  wf_matrix W → m_rows W = (d + h)%nat → m_cols W = h → length b = h →
  resolve_maxlength x_lengths maxlength = Some m → 0 ≤ m →
  (∀ i xi l, a_data x !! i = Some xi → x_lengths !! i = Some l →
             (length (slice_to l xi) ≤ Z.to_nat m)%nat) →
  ∃ out,
    np_rnn x x_lengths W b maxlength = Some out
    ∧ a_shape out = (n, Z.to_nat m, h)
    ∧ length (a_data out) = n
    ∧ ∀ i xi l, a_data x !! i = Some xi → x_lengths !! i = Some l →
        ∃ rows,
          a_data out !! i = Some rows
          ∧ length rows = Z.to_nat m
          ∧ take (length (slice_to l xi)) rows
            = rnn_states W b (zeros1 h) (slice_to l xi)
          ∧ ∀ k, (length (slice_to l xi) ≤ k < Z.to_nat m)%nat →
                 rows !! k = Some (zeros1 h).
Proof.
  intros Hshape Hwf Hlen HW Hrows Hcols Hb Hmax Hm Hfit.
  pose proof Hwf as Hwf'. unfold wf_array3 in Hwf'. rewrite Hshape in Hwf'.
  destruct Hwf' as [Hn _].
  exists (Array3 (n, Z.to_nat m, h)
            (zip_with (rnn_row W b (Z.to_nat m)) (a_data x) x_lengths)).
  split.
  { rewrite (np_rnn_resolved _ _ _ _ _ m Hmax).
    apply (np_rnn_rows W b d h HW Hrows Hcols Hb x x_lengths m n t Hshape
             Hwf Hm).
    apply Forall2_same_length_lookup_2; [lia|]. exact Hfit. }
  split; [reflexivity|]. simpl.
  split; [rewrite length_zip_with; lia|].
  intros i xi l Hxi Hl. exists (rnn_row W b (Z.to_nat m) xi l).
  rewrite lookup_zip_with, Hxi, Hl. simpl. split; [reflexivity|].
  apply rnn_row_tail; [exact Hcols|]. by eapply Hfit.
Qed.

Lemma max_lengths_bound (l : Z) (ls : list Z) :
  l ≤ foldl Z.max l ls ∧ Forall (λ a, a ≤ foldl Z.max l ls) ls.
Proof.
  revert l. induction ls as [|a ls IH]; intros l; simpl.
  - split; [lia | constructor].
  - destruct (IH (Z.max l a)) as [H1 H2].
    split; [lia|]. constructor; [lia | exact H2].
Qed.

(** X16: With the default [maxlength=None] and lengths that are not negative,
    [np_rnn] never raises on a batch that is not empty and has fitting
    shapes: every cut sequence fits the greatest length, which is the
    second dimension of the output. *)
Theorem np_rnn_default_maxlength_fits
    (x : array3 F) (x_lengths : list Z) (W : matrix F) (b : list F)
    (n t d h : nat) :
  a_shape x = (n, t, d) → wf_array3 x → length x_lengths = n →
  (0 < n)%nat →
  wf_matrix W → m_rows W = (d + h)%nat → m_cols W = h → length b = h →
  Forall (λ l, 0 ≤ l) x_lengths →
  ∃ out m,
    max_lengths x_lengths = Some m
    ∧ Forall (λ l, l ≤ m) x_lengths
    ∧ np_rnn x x_lengths W b None = Some out
    ∧ a_shape out = (n, Z.to_nat m, h).
Proof.
  intros Hshape Hwf Hlen Hn HW Hrows Hcols Hb Hpos.
  destruct x_lengths as [|l0 ls] eqn:Hxl; [simpl in Hlen; lia|].
  rewrite <- Hxl in *.
  set (m := foldl Z.max l0 ls).
  assert (Hmax : max_lengths x_lengths = Some m) by (by rewrite Hxl).
  assert (Hle : Forall (λ l, l ≤ m) x_lengths).
  { rewrite Hxl. destruct (max_lengths_bound l0 ls) as [H1 H2].
    constructor; [exact H1 | exact H2]. }
  assert (Hm : 0 ≤ m).
  { rewrite Hxl in Hpos, Hle.
    apply Forall_cons in Hpos as [? _]. apply Forall_cons in Hle as [? _].
    lia. }
  pose proof Hwf as Hwf'. unfold wf_array3 in Hwf'. rewrite Hshape in Hwf'.
  destruct Hwf' as [Hnx _].
  exists (Array3 (n, Z.to_nat m, h)
            (zip_with (rnn_row W b (Z.to_nat m)) (a_data x) x_lengths)), m.
  split; [exact Hmax|]. split; [exact Hle|]. split; [|reflexivity].
  rewrite (np_rnn_resolved x x_lengths W b None m Hmax).
  apply (np_rnn_rows W b d h HW Hrows Hcols Hb x x_lengths m n t Hshape
           Hwf Hm).
  apply Forall2_same_length_lookup_2; [lia|].
  intros i xi l Hxi Hl.
  pose proof (Forall_lookup_1 _ _ _ _ Hle Hl) as Hlm. simpl in Hlm.
  pose proof (Forall_lookup_1 _ _ _ _ Hpos Hl) as Hl0. simpl in Hl0.
  rewrite slice_to_take, length_take by lia. lia.
Qed.

(** The layers of [np_multi_rnn], one after the other. *)
Lemma multi_rnn_layers (rest : list (matrix F * list F)) :
  ∀ (W : matrix F) (b : list F) (x : array3 F) (x_lengths : list Z)
    (maxlength : option Z) (n t d : nat) (m : Z),
    a_shape x = (n, t, d) → wf_array3 x → length x_lengths = n →
    layers_fit d ((W, b) :: rest) →
    resolve_maxlength x_lengths maxlength = Some m → 0 ≤ m →
    Forall (λ l, 0 ≤ l ≤ m ∧ l ≤ Z.of_nat t) x_lengths →
    ∃ out,
      np_multi_rnn x x_lengths ((W, b) :: rest) maxlength = Some out
      ∧ a_shape out = (n, Z.to_nat m, layers_out d ((W, b) :: rest))
      ∧ wf_array3 out
      ∧ ∀ i l rows, x_lengths !! i = Some l → a_data out !! i = Some rows →
          ∀ k, (Z.to_nat l ≤ k < Z.to_nat m)%nat →
               rows !! k = Some (zeros1 (layers_out d ((W, b) :: rest))).
Proof.
  induction rest as [|[W2 b2] rest IH];
    intros W b x x_lengths maxlength n t d m Hshape Hwf Hlen Hfit Hmax Hm Hls.
  - destruct Hfit as (HW & Hrows & Hb & _).
    pose proof Hwf as Hwf'. unfold wf_array3 in Hwf'.
    rewrite Hshape in Hwf'. destruct Hwf' as [Hnx Hxrows].
    assert (HF : Forall2 (λ xi l,
                   (length (slice_to l xi) ≤ Z.to_nat m)%nat)
                   (a_data x) x_lengths).
    { apply Forall2_same_length_lookup_2; [lia|].
      intros i xi l Hxi Hl.
      pose proof (Forall_lookup_1 _ _ _ _ Hls Hl) as [? ?].
      rewrite slice_to_take, length_take by lia. lia. }
    exists (Array3 (n, Z.to_nat m, m_cols W)
              (zip_with (rnn_row W b (Z.to_nat m)) (a_data x) x_lengths)).
    split.
    { simpl. rewrite (np_rnn_resolved _ _ _ _ _ m Hmax).
      by rewrite (np_rnn_rows W b d (m_cols W) HW Hrows eq_refl Hb x
                    x_lengths m n t Hshape Hwf Hm HF). }
    split; [reflexivity|]. split.
    { unfold wf_array3. simpl. split; [rewrite length_zip_with; lia|].
      apply Forall_forall. intros rows Hin.
      apply list_elem_of_lookup in Hin as [i Hi].
      apply lookup_zip_with_Some in Hi as (xi & l & -> & Hxi & Hl).
      split.
      - apply (rnn_row_length W b d (m_cols W) Hrows eq_refl Hb).
        by apply (Forall2_lookup_lr _ _ _ _ _ _ HF Hxi Hl).
      - apply (rnn_row_shape W b d (m_cols W) HW Hrows eq_refl Hb). }
    simpl. intros i l rows Hl Hrow k Hk.
    apply lookup_zip_with_Some in Hrow as (xi & l' & -> & Hxi & Hl').
    rewrite Hl in Hl'. injection Hl' as <-.
    pose proof (Forall_lookup_1 _ _ _ _ Hls Hl) as [? ?].
    pose proof (Forall_lookup_1 _ _ _ _ Hxrows Hxi) as [Hxl _].
    simpl in Hxl.
    destruct (rnn_row_tail W b (m_cols W) (Z.to_nat m) xi l eq_refl)
      as (_ & _ & Hz).
    { by apply (Forall2_lookup_lr _ _ _ _ _ _ HF Hxi Hl). }
    apply Hz. rewrite slice_to_take, length_take by lia. lia.
  - destruct Hfit as (HW & Hrows & Hb & Hfit').
    pose proof Hwf as Hwf'. unfold wf_array3 in Hwf'.
    rewrite Hshape in Hwf'. destruct Hwf' as [Hnx Hxrows].
    assert (HF : Forall2 (λ xi l,
                   (length (slice_to l xi) ≤ Z.to_nat m)%nat)
                   (a_data x) x_lengths).
    { apply Forall2_same_length_lookup_2; [lia|].
      intros i xi l Hxi Hl.
      pose proof (Forall_lookup_1 _ _ _ _ Hls Hl) as [? ?].
      rewrite slice_to_take, length_take by lia. lia. }
    set (x1 := Array3 (n, Z.to_nat m, m_cols W)
                 (zip_with (rnn_row W b (Z.to_nat m)) (a_data x) x_lengths)).
    assert (Hx1 : np_rnn x x_lengths W b maxlength = Some x1).
    { rewrite (np_rnn_resolved _ _ _ _ _ m Hmax).
      by rewrite (np_rnn_rows W b d (m_cols W) HW Hrows eq_refl Hb x
                    x_lengths m n t Hshape Hwf Hm HF). }
    assert (Hwf1 : wf_array3 x1).
    { unfold wf_array3. simpl. split; [rewrite length_zip_with; lia|].
      apply Forall_forall. intros rows Hin.
      apply list_elem_of_lookup in Hin as [i Hi].
      apply lookup_zip_with_Some in Hi as (xi & l & -> & Hxi & Hl).
      split.
      - apply (rnn_row_length W b d (m_cols W) Hrows eq_refl Hb).
        by apply (Forall2_lookup_lr _ _ _ _ _ _ HF Hxi Hl).
      - apply (rnn_row_shape W b d (m_cols W) HW Hrows eq_refl Hb). }
    destruct (IH W2 b2 x1 x_lengths maxlength n (Z.to_nat m) (m_cols W) m)
      as (out & Hout & Hsh & Hwfo & Hz); try assumption.
    { reflexivity. }
    { eapply Forall_impl; [exact Hls|]. intros l [? ?]. simpl. lia. }
    exists out. split; [|split; [exact Hsh | split; [exact Hwfo | exact Hz]]].
    change (np_multi_rnn x x_lengths ((W, b) :: (W2, b2) :: rest) maxlength)
      with (np_rnn x x_lengths W b maxlength
            ≫= λ x', np_multi_rnn x' x_lengths ((W2, b2) :: rest) maxlength).
    rewrite Hx1. exact Hout.
Qed.

(** X17: [np_multi_rnn] with fitting layers, the weights paired with the biases
    as [zip] does: every layer returns, the output has the shape
    (n, maxlength, h) for the hidden size h of the last layer, and it is
    zero at every step from the length of the item on; the mask of the
    first layer goes through all the layers. *)
Theorem np_multi_rnn_masked
    (x : array3 F) (x_lengths : list Z)
    (weights : list (matrix F)) (biases : list (list F))
    (maxlength : option Z) (n t d : nat) (m : Z) :
  a_shape x = (n, t, d) → wf_array3 x → length x_lengths = n →
  zip weights biases ≠ [] →
  layers_fit d (zip weights biases) →
  resolve_maxlength x_lengths maxlength = Some m → 0 ≤ m →
  Forall (λ l, 0 ≤ l ≤ m ∧ l ≤ Z.of_nat t) x_lengths →
  ∃ out,
    np_multi_rnn x x_lengths (zip weights biases) maxlength = Some out
    ∧ a_shape out = (n, Z.to_nat m, layers_out d (zip weights biases))
    ∧ ∀ i l, x_lengths !! i = Some l →
        ∃ rows,
          a_data out !! i = Some rows
          ∧ length rows = Z.to_nat m
          ∧ ∀ k, (Z.to_nat l ≤ k < Z.to_nat m)%nat →
                 rows !! k = Some (zeros1 (layers_out d (zip weights biases))).
Proof.
  intros Hshape Hwf Hlen Hne Hfit Hmax Hm Hls.
  destruct (zip weights biases) as [|[W b] rest] eqn:Hz; [done|].
  destruct (multi_rnn_layers rest W b x x_lengths maxlength n t d m
              Hshape Hwf Hlen Hfit Hmax Hm Hls)
    as (out & Hout & Hsh & Hwfo & Hzero).
  exists out. split; [exact Hout|]. split; [exact Hsh|].
  intros i l Hl.
  unfold wf_array3 in Hwfo. rewrite Hsh in Hwfo. destruct Hwfo as [Hno Hro].
  destruct (lookup_lt_is_Some_2 (a_data out) i) as [rows Hrows].
  { apply lookup_lt_Some in Hl. lia. }
  exists rows. split; [exact Hrows|].
  pose proof (Forall_lookup_1 _ _ _ _ Hro Hrows) as [Hrl _].
  split; [exact Hrl|]. by eapply Hzero.
Qed.

(** What [np_encdec_lazydynamic] returns, written out. *)
Lemma encdec_computed
    (x : array3 F) (x_lengths : list Z)
    (W_encoder : matrix F) (b_encoder : list F)
    (W_decoder : matrix F) (b_decoder : list F)
    (W_output : matrix F) (b_output : list F)
    (maxlength : option Z) (n t d h h' : nat) (m : Z) :
  a_shape x = (n, t, d) → wf_array3 x →
  length x_lengths = n → (0 < n)%nat →
  wf_matrix W_encoder → m_rows W_encoder = (d + h)%nat →
  m_cols W_encoder = h → length b_encoder = h → (0 < h)%nat →
  wf_matrix W_decoder → m_rows W_decoder = (h + h')%nat →
  m_cols W_decoder = h' → length b_decoder = h' →
  wf_matrix W_output → m_rows W_output = h' →
  m_cols W_output = d → length b_output = d →
  resolve_maxlength x_lengths maxlength = Some m →
  Forall (λ l, 1 ≤ l ≤ m ∧ l ≤ Z.of_nat t) x_lengths →
  let states :=
    zip_with (final_state W_encoder b_encoder) (a_data x) x_lengths in
  let dec_rows :=
    zip_with (rnn_row W_decoder b_decoder (Z.to_nat m))
      (map (replicate (Z.to_nat m)) states) x_lengths in
  np_encdec_lazydynamic x x_lengths W_encoder b_encoder
    W_decoder b_decoder W_output b_output maxlength
  = Some (states,
          Array3 (n, t, d)
            (zip_with (linear_row W_output b_output d t) dec_rows x_lengths),
          zip_with (λ di l, map (linear W_output b_output) (slice_to l di))
            dec_rows x_lengths)
  ∧ Forall2 (λ di l, length (slice_to l di) = Z.to_nat l) dec_rows x_lengths.
Proof.
  intros Hshape Hwfx Hlenl Hn HWe Hre Hce Hbe Hh HWd Hrd Hcd Hbd
    HWo Hro Hco Hbo Hmax Hls states dec_rows.
  set (mn := Z.to_nat m) in *.
  assert (Hm : 1 ≤ m).
  { destruct x_lengths as [|l ls]; [simpl in *; lia|].
    apply Forall_cons in Hls as [[? ?] _]. lia. }
  pose proof Hwfx as Hwfx'. unfold wf_array3 in Hwfx'.
  rewrite Hshape in Hwfx'. destruct Hwfx' as [Hnx Hxrows].
  assert (HF : Forall2 (λ xi l, wf_rows t d xi
                                ∧ (1 ≤ l ≤ m ∧ l ≤ Z.of_nat t))
                 (a_data x) x_lengths).
  { apply Forall2_pair; [lia | assumption | assumption]. }
  assert (HF' : Forall2 (λ xi l, 1 ≤ l ≤ Z.of_nat mn
                                 ∧ l ≤ Z.of_nat (length xi))
                  (a_data x) x_lengths).
  { eapply Forall2_impl; [exact HF|].
    intros xi l [[Hxl _] [Hl1 Hl2]]. rewrite Hxl. unfold mn. lia. }
  set (enc_rows := zip_with (rnn_row W_encoder b_encoder mn)
                     (a_data x) x_lengths).
  assert (Henc : np_rnn x x_lengths W_encoder b_encoder (Some m)
                 = Some (Array3 (n, mn, h) enc_rows)).
  { eapply np_rnn_rows; try eassumption; [lia|].
    eapply Forall2_impl; [exact HF|].
    intros xi l [[Hxl _] [Hl1 Hl2]].
    rewrite slice_to_take, length_take by lia. lia. }
  assert (Hstates : Forall (λ s, length s = h) states).
  { unfold states. clear -HF' HWe Hre Hce Hbe.
    induction HF' as [|xi l xs ls [Hl Hxi] _ IH]; simpl; constructor;
      [|exact IH].
    by destruct (rnn_row_final W_encoder b_encoder d h HWe Hre Hce Hbe
                   mn xi l Hl Hxi) as (_ & _ & _ & ?). }
  assert (Hlen_states : length states = n).
  { unfold states. rewrite length_zip_with; lia. }
  set (dec_in := Array3 (length states, mn, h)
                   (map (replicate mn) states)).
  assert (Hdec : np_rnn dec_in x_lengths W_decoder b_decoder (Some m)
                 = Some (Array3 (length states, mn, h') dec_rows)).
  { eapply np_rnn_rows; try eassumption; try reflexivity; [|lia|].
    - unfold wf_array3. simpl. split; [by rewrite length_fmap|].
      apply Forall_fmap. eapply Forall_impl; [exact Hstates|].
      intros s' Hs'. split; [apply length_replicate|].
      by apply Forall_replicate.
    - simpl. apply Forall2_fmap_l.
      apply Forall2_same_length_lookup_2; [lia|].
      intros i s' l Hs' Hl'. simpl.
      pose proof (Forall_lookup_1 _ _ _ _ Hls Hl') as [? ?].
      rewrite slice_to_take, length_take, length_replicate by lia. lia. }
  assert (Hdl : length dec_rows = n).
  { unfold dec_rows. rewrite length_zip_with, length_fmap. lia. }
  assert (Hslices : Forall2 (λ di l, length (slice_to l di) = Z.to_nat l)
                      dec_rows x_lengths).
  { apply Forall2_same_length_lookup_2; [lia|].
    intros i di l Hdi Hl'. unfold dec_rows in Hdi.
    apply lookup_zip_with_Some in Hdi as (s' & l' & -> & Hs' & Hl'').
    rewrite Hl' in Hl''. injection Hl'' as <-.
    pose proof (Forall_lookup_1 _ _ _ _ Hls Hl') as [? ?].
    apply list_lookup_fmap_Some in Hs' as (st & -> & _).
    rewrite slice_to_take, length_take by lia.
    rewrite (rnn_row_length W_decoder b_decoder h h' Hrd Hcd Hbd); [lia|].
    rewrite slice_to_take, length_take, length_replicate by lia.
    fold mn. lia. }
  assert (Hlin : linear_items dec_rows x_lengths W_output b_output
                   (zeros3 n t d) [] (seq 0 n)
                 = Some (zip_with (linear_row W_output b_output d t)
                           dec_rows x_lengths,
                         zip_with (λ di l, map (linear W_output b_output)
                                             (slice_to l di))
                           dec_rows x_lengths)).
  { rewrite <- Hdl.
    apply (linear_items_rows W_output b_output h' d HWo Hro Hco Hbo
             dec_rows x_lengths t dec_rows x_lengths [] [] [] []);
      try reflexivity.
    apply Forall2_same_length_lookup_2; [lia|].
    intros i di l Hdi Hl'.
    pose proof (Forall2_lookup_lr _ _ _ _ _ _ Hslices Hdi Hl') as Hsl.
    simpl in Hsl. unfold dec_rows in Hdi.
    apply lookup_zip_with_Some in Hdi as (s' & l' & -> & Hs' & Hl'').
    rewrite Hl' in Hl''. injection Hl'' as <-.
    pose proof (Forall_lookup_1 _ _ _ _ Hls Hl') as [? ?].
    split.
    - rewrite slice_to_take by lia. apply Forall_take.
      by apply (rnn_row_shape W_decoder b_decoder h h' HWd Hrd Hcd Hbd).
    - rewrite Hsl. lia. }
  split; [|exact Hslices].
  unfold np_encdec_lazydynamic. rewrite Hmax. simpl. rewrite Henc. simpl.
  pose proof (collect_states_final W_encoder b_encoder d h HWe Hre Hce Hbe
                mn (a_data x) x_lengths [] HF') as Hcs.
  simpl in Hcs. fold enc_rows in Hcs. rewrite Hcs. simpl.
  unfold repeat_states. rewrite Hce.
  destruct (Nat.eqb_spec (Z.to_nat m * h) 0) as [Hz|_]; [nia|].
  simpl. fold states mn dec_in. rewrite Hdec. simpl.
  rewrite Hshape. fold dec_rows. by rewrite Hlin.
Qed.

(** X18: The third result of [np_encdec_lazydynamic], the list of the outputs
    without padding: it has one array per item, of [x_lengths[i]] rows,
    which are the first [x_lengths[i]] rows of the item in the padded
    output; the rows of the padded output after them are zero. *)
Theorem encdec_list_is_unpadded_output
    (x : array3 F) (x_lengths : list Z)
    (W_encoder : matrix F) (b_encoder : list F)
    (W_decoder : matrix F) (b_decoder : list F)
    (W_output : matrix F) (b_output : list F)
    (maxlength : option Z) (n t d h h' : nat) (m : Z) :
  a_shape x = (n, t, d) → wf_array3 x →
  length x_lengths = n → (0 < n)%nat →
  wf_matrix W_encoder → m_rows W_encoder = (d + h)%nat →
  m_cols W_encoder = h → length b_encoder = h → (0 < h)%nat →
  wf_matrix W_decoder → m_rows W_decoder = (h + h')%nat →
  m_cols W_decoder = h' → length b_decoder = h' →
  wf_matrix W_output → m_rows W_output = h' →
  m_cols W_output = d → length b_output = d →
  resolve_maxlength x_lengths maxlength = Some m →
  Forall (λ l, 1 ≤ l ≤ m ∧ l ≤ Z.of_nat t) x_lengths →
  ∃ encoder_states decoder_output decoder_output_list,
    np_encdec_lazydynamic x x_lengths W_encoder b_encoder
      W_decoder b_decoder W_output b_output maxlength
    = Some (encoder_states, decoder_output, decoder_output_list)
    ∧ length encoder_states = n
    ∧ Forall (λ s, length s = h) encoder_states
    ∧ length decoder_output_list = n
    ∧ ∀ (i : nat) (l : Z), x_lengths !! i = Some l →
        ∃ rows cur,
          a_data decoder_output !! i = Some rows
          ∧ decoder_output_list !! i = Some cur
          ∧ cur = take (Z.to_nat l) rows
          ∧ length cur = Z.to_nat l
          ∧ Forall (λ r, length r = d) cur.
Proof.
  intros Hshape Hwfx Hlenl Hn HWe Hre Hce Hbe Hh HWd Hrd Hcd Hbd
    HWo Hro Hco Hbo Hmax Hls.
  destruct (encdec_computed x x_lengths W_encoder b_encoder W_decoder
              b_decoder W_output b_output maxlength n t d h h' m
              Hshape Hwfx Hlenl Hn HWe Hre Hce Hbe Hh HWd Hrd Hcd Hbd
              HWo Hro Hco Hbo Hmax Hls) as [Hrun Hslices].
  set (states := zip_with (final_state W_encoder b_encoder) (a_data x)
                   x_lengths) in *.
  set (dec_rows := zip_with (rnn_row W_decoder b_decoder (Z.to_nat m))
                     (map (replicate (Z.to_nat m)) states) x_lengths) in *.
  pose proof Hwfx as Hwfx'. unfold wf_array3 in Hwfx'.
  rewrite Hshape in Hwfx'. destruct Hwfx' as [Hnx Hxrows].
  assert (Hlen_states : length states = n).
  { unfold states. rewrite length_zip_with; lia. }
  assert (Hdl : length dec_rows = n).
  { unfold dec_rows. rewrite length_zip_with, length_fmap. lia. }
  eexists _, _, _. split; [exact Hrun|].
  split; [exact Hlen_states|]. split.
  { unfold states. apply Forall_forall. intros s Hin.
    apply list_elem_of_lookup in Hin as [i Hi].
    apply lookup_zip_with_Some in Hi as (xi & l & -> & Hxi & Hl).
    pose proof (Forall_lookup_1 _ _ _ _ Hls Hl) as [? ?].
    pose proof (Forall_lookup_1 _ _ _ _ Hxrows Hxi) as [Hxl _].
    simpl in Hxl.
    assert (Hm : 0 ≤ m) by lia.
    destruct (rnn_row_final W_encoder b_encoder d h HWe Hre Hce Hbe
                (Z.to_nat m) xi l) as (_ & _ & _ & Hfin); [lia | lia |].
    exact Hfin. }
  split; [rewrite length_zip_with; lia|].
  intros i l Hl. simpl.
  destruct (lookup_lt_is_Some_2 dec_rows i) as [di Hdi].
  { apply lookup_lt_Some in Hl. lia. }
  pose proof (Forall2_lookup_lr _ _ _ _ _ _ Hslices Hdi Hl) as Hsl.
  simpl in Hsl.
  pose proof (Forall_lookup_1 _ _ _ _ Hls Hl) as [? ?].
  exists (linear_row W_output b_output d t di l),
    (map (linear W_output b_output) (slice_to l di)).
  rewrite !lookup_zip_with, Hdi, Hl. simpl.
  split; [reflexivity|]. split; [reflexivity|].
  assert (Hys : length (map (linear W_output b_output) (slice_to l di))
                = Z.to_nat l) by (by rewrite length_fmap).
  split; [|split].
  - unfold linear_row. rewrite <- Hys. by rewrite take_app_length.
  - exact Hys.
  - apply Forall_fmap, Forall_forall. intros c _. simpl.
    eapply linear_length; eassumption.
Qed.

End ReferenceEdges.

(** ** More on the vector quantisation reference *)

Section VectorQuantisationEdges.

Import Reference.

Context {F : Type} `{Scalar F}.

Lemma argmin_from_lt (ds : list F) : ∀ (best : nat) (bv : F) (i : nat),
  (best < i)%nat → (argmin_from best bv i ds < i + length ds)%nat.
Proof.
  induction ds as [|d ds IH]; intros best bv i Hlt; simpl; [lia|].
  destruct (s_ltb d bv).
  - specialize (IH i d (S i)). lia.
  - specialize (IH best bv (S i)). lia.
Qed.

Lemma argmin_lt (ds : list F) (k : nat) :
  argmin ds = Some k → (k < length ds)%nat.
Proof.
  destruct ds as [|d ds]; [discriminate|]. simpl. intros [= <-].
  pose proof (argmin_from_lt ds 0 d 1). lia.
Qed.

Lemma distances_length (x : list F) (embeds : list (list F)) :
  ∀ ds, distances x embeds = Some ds → length ds = length embeds.
Proof.
  induction embeds as [|e embeds IH]; intros ds; simpl.
  - by intros [= <-].
  - destruct (broadcast s_sub x e); [|discriminate]. simpl.
    destruct (distances x embeds) as [ds'|]; [|discriminate]. simpl.
    intros [= <-]. simpl. by rewrite (IH ds').
Qed.

Lemma distances_mismatch (x : list F) (embeds : list (list F)) (e : list F) :
  e ∈ embeds → broadcast s_sub x e = None → distances x embeds = None.
Proof.
  induction embeds as [|e' embeds IH]; intros Hin Hbad;
    [by apply elem_of_nil in Hin|].
  simpl. apply elem_of_cons in Hin as [<-|Hin].
  - by rewrite Hbad.
  - rewrite (IH Hin Hbad). by destruct (broadcast s_sub x e').
Qed.

Lemma broadcast_mismatch (f : F → F → F) (u v : list F) :
  length u ≠ length v → length u ≠ 1%nat → length v ≠ 1%nat →
  broadcast f u v = None.
Proof.
  intros Huv Hu Hv. unfold broadcast.
  destruct (Nat.eqb_spec (length u) (length v)) as [|_]; [done|].
  destruct u as [|a [|a' u]]; [| simpl in Hu; lia |];
    by destruct v as [|c [|c' v]]; [| simpl in Hv; lia |].
Qed.

(** X19: [np_vq] needs no order on the distances: with a codebook that is not
    empty and vectors of one dimension, it returns one codebook row per
    input vector, whatever the distances are. With an empty codebook it
    raises as soon as there is an input vector ([np.argmin] of an empty
    sequence). *)
Theorem np_vq_rows_of_codebook (test_data tf_embeds : list (list F))
    (D : nat) :
  Forall (λ x, length x = D) test_data →
  Forall (λ e, length e = D) tf_embeds →
  (tf_embeds ≠ [] →
   ∃ z_q,
     np_vq test_data tf_embeds = Some z_q
     ∧ length z_q = length test_data
     ∧ Forall (λ z, z ∈ tf_embeds) z_q)
  ∧ (tf_embeds = [] → test_data ≠ [] → np_vq test_data tf_embeds = None).
Proof.
  intros Hx He. split.
  - intros Hne.
    induction Hx as [|x xs Hlx _ IH];
      [exists []; split; [reflexivity | split; [reflexivity | constructor]]|].
    destruct IH as (zs & Hzs & Hlen & Hin).
    assert (Hds : distances x tf_embeds = Some (map (euclid x) tf_embeds)).
    { apply distances_same_length. eapply Forall_impl; [exact He|].
      intros e Hle. simpl in Hle. congruence. }
    destruct (argmin (map (euclid x) tf_embeds)) as [k|] eqn:Hk.
    2:{ destruct tf_embeds; [done | discriminate Hk]. }
    pose proof (argmin_lt _ _ Hk) as Hlt. rewrite length_fmap in Hlt.
    destruct (lookup_lt_is_Some_2 tf_embeds k Hlt) as [z Hz].
    exists (z :: zs). split; [|split].
    + simpl. rewrite Hds. simpl. rewrite Hk. simpl. rewrite Hz. simpl.
      by rewrite Hzs.
    + simpl. by rewrite Hlen.
    + constructor; [by eapply list_elem_of_lookup_2 | exact Hin].
  - intros -> Hne. destruct test_data as [|x xs]; [done|]. reflexivity.
Qed.

(** X20: [np_vq] raises when an input vector and a codebook row have different
    lengths and neither has length 1 (the subtraction cannot broadcast),
    wherever in the data and in the codebook they are. *)
Theorem np_vq_raises_on_dimension_mismatch
    (test_data tf_embeds : list (list F)) (x e : list F) :
  x ∈ test_data → e ∈ tf_embeds →
  length x ≠ length e → length x ≠ 1%nat → length e ≠ 1%nat →
  np_vq test_data tf_embeds = None.
Proof.
  intros Hx He Hne Hx1 He1.
  pose proof (broadcast_mismatch s_sub x e Hne Hx1 He1) as Hbad.
  induction test_data as [|x' xs IH]; [by apply elem_of_nil in Hx|].
  simpl. apply elem_of_cons in Hx as [<-|Hx].
  - by rewrite (distances_mismatch x tf_embeds e He Hbad).
  - rewrite (IH Hx).
    destruct (distances x' tf_embeds) as [ds|]; [|reflexivity]. simpl.
    destruct (argmin ds) as [k|]; [|reflexivity]. simpl.
    by destruct (tf_embeds !! k).
Qed.

End VectorQuantisationEdges.

(** ** More on [train_siamese.py] *)

Section LabelRanks.

Import Siamese.

Lemma StronglySorted_lookup_le {A} (R : A → A → Prop) (l : list A) :
  StronglySorted R l →
  ∀ i j a b, l !! i = Some a → l !! j = Some b → (i < j)%nat → R a b.
Proof.
  induction 1 as [|x l Hl IH Hx]; intros i j a b Hi Hj Hlt; [done|].
  destruct j as [|j]; [lia|]. simpl in Hj.
  destruct i as [|i]; simpl in Hi.
  - injection Hi as <-.
    by apply (Forall_lookup_1 _ _ _ _ Hx Hj).
  - apply (IH i j a b Hi Hj). lia.
Qed.

Lemma sorted_label_set_length (labels : list string) :
  length (sorted_label_set labels) = length (remove_dups labels).
Proof. unfold sorted_label_set. by rewrite merge_sort_Permutation. Qed.

Lemma sorted_label_set_ordered (labels : list string) (i j : nat)
    (a b : string) :
  sorted_label_set labels !! i = Some a →
  sorted_label_set labels !! j = Some b →
  ((i ≤ j)%nat ↔ String.le a b).
Proof.
  intros Hi Hj.
  assert (HS : StronglySorted String.le (sorted_label_set labels)).
  { unfold sorted_label_set. apply StronglySorted_merge_sort; apply _. }
  pose proof (sorted_label_set_NoDup labels) as Hnd.
  split.
  - intros Hle. destruct (decide (i = j)) as [->|Hne].
    + rewrite Hi in Hj. injection Hj as <-. reflexivity.
    + apply (StronglySorted_lookup_le _ _ HS i j a b Hi Hj). lia.
  - intros Hab. destruct (decide (i ≤ j)%nat) as [|Hgt]; [assumption|].
    exfalso. apply Hgt.
    assert (Hba : String.le b a).
    { apply (StronglySorted_lookup_le _ _ HS j i b a Hj Hi). lia. }
    assert (a = b) as <- by (by apply (anti_symm String.le)).
    assert (i = j) as -> by (by eapply NoDup_lookup). lia.
Qed.

(** X21: The conversion of the training labels to integers never raises a
    [KeyError]. The identifiers are the numbers from 0 up to the number of
    distinct labels: each of them is in range, each number in range is the
    identifier of some label, and they are ordered as the labels are (as
    strings). *)
Theorem labels_are_dense_ordered_ranks (train_labels : list string) :
  ∃ train_y,
    convert_labels train_labels = Some train_y
    ∧ length train_y = length train_labels
    ∧ Forall (λ y, 0 ≤ y < Z.of_nat (length (remove_dups train_labels)))
        train_y
    ∧ (∀ k, (k < length (remove_dups train_labels))%nat →
            Z.of_nat k ∈ train_y)
    ∧ ∀ i j li lj yi yj,
        train_labels !! i = Some li → train_labels !! j = Some lj →
        train_y !! i = Some yi → train_y !! j = Some yj →
        (yi ≤ yj ↔ String.le li lj).
Proof.
  destruct (convert_labels_rank train_labels) as (ys & Hys & HF).
  exists ys. split; [exact Hys|].
  pose proof (Forall2_length _ _ _ HF) as Hlen.
  split; [by symmetry|]. split; [|split].
  - apply Forall_forall. intros y Hy.
    apply list_elem_of_lookup in Hy as [i Hi].
    destruct (Forall2_lookup_r _ _ _ _ _ HF Hi) as (label & _ & k & -> & Hk).
    apply lookup_lt_Some in Hk. rewrite sorted_label_set_length in Hk. lia.
  - intros k Hk. rewrite <- sorted_label_set_length in Hk.
    destruct (lookup_lt_is_Some_2 _ _ Hk) as [x Hx].
    assert (Hin : x ∈ train_labels).
    { apply sorted_label_set_elem. by eapply list_elem_of_lookup_2. }
    apply list_elem_of_lookup in Hin as [i Hi].
    destruct (Forall2_lookup_l _ _ _ _ _ HF Hi) as (y & Hy & k' & -> & Hk').
    assert (k' = k) as ->.
    { eapply NoDup_lookup; [apply sorted_label_set_NoDup | exact Hk' | exact Hx]. }
    by eapply list_elem_of_lookup_2.
  - intros i j li lj yi yj Hli Hlj Hyi Hyj.
    destruct (Forall2_lookup_lr _ _ _ _ _ _ HF Hli Hyi) as (ki & -> & Hki).
    destruct (Forall2_lookup_lr _ _ _ _ _ _ HF Hlj Hyj) as (kj & -> & Hkj).
    rewrite <- (sorted_label_set_ordered train_labels ki kj li lj Hki Hkj).
    lia.
Qed.

End LabelRanks.

Section SiameseEdges.

Import Siamese.

Variables (features record : Type).
Variable md5_hexdigest : string → string.
Variable repr_items : list (string * pyval) → string.
Variable isdir : string → bool.
Variable load_data_from_npz : string → min_length_arg → dataset features.
Variable trunc_and_limit_dim :
  list features → list Z → Z → pyval → list features * list Z.
Variable train_fixed_epochs_external_val :
  training_call features → record.
Variable samediff_val : string → bool → float * float.

Abbreviation train_siamese :=
  (train_siamese md5_hexdigest repr_items isdir
     load_data_from_npz trunc_and_limit_dim train_fixed_epochs_external_val
     samediff_val).

Ltac invert_bind H :=
  repeat match type of H with
  | (?o ≫= _) = Some _ =>
      let E := fresh "E" in
      destruct o eqn:E; simpl in H; [|discriminate]
  | (let '(_, _) := ?p in _) = Some _ =>
      let E := fresh "E" in destruct p eqn:E
  end.

Lemma train_siamese_complete (options_dict : gmap string pyval) :
  complete options_dict → is_Some (train_siamese options_dict).
Proof.
  intros ([d Hd] & [t Ht] & [s Hs] & Hkeys).
  unfold read_keys in Hkeys.
  repeat match type of Hkeys with
  | Forall _ (_ :: _) =>
      let K := fresh "K" in
      apply Forall_cons in Hkeys as [[? K] Hkeys]
  end.
  clear Hkeys.
  unfold Siamese.train_siamese. rewrite Hd, Ht, Hs. simpl.
  rewrite K. simpl.
  destruct (convert_labels_rank
              (d_labels (load_data_from_npz
                 (Py.path_join d ("train." +:+ t +:+ ".npz")) PyNone)))
    as (ys & Hys & _).
  rewrite Hys. simpl. rewrite K0. simpl. rewrite K1. simpl.
  destruct (trunc_and_limit_dim _ _ _ _) as [train_x train_lengths].
  destruct (trunc_and_limit_dim _ _ _ _) as [val_x val_lengths].
  unfold build_siamese_from_options_dict.
  rewrite !lookup_insert_ne by discriminate.
  rewrite K2, K3, K4, K5, K6, K7. simpl.
  rewrite K8, K9. simpl. rewrite K10, K11. simpl. rewrite K12, K13. simpl.
  rewrite K14. simpl. eexists. reflexivity.
Qed.

(** The parts of a completed run that come from the options. *)
Lemma run_fields (options_dict : gmap string pyval)
    (r : run features record) :
  train_siamese options_dict = Some r →
  ∃ data_dir train_tag script use_test max_length train_y batch_size
    n_buckets epochs,
    get_str options_dict "data_dir" = Some data_dir
    ∧ get_str options_dict "train_tag" = Some train_tag
    ∧ get_str options_dict "script" = Some script
    ∧ options_dict !! "use_test_for_val" = Some use_test
    ∧ options_dict !! "max_length" = Some max_length
    ∧ options_dict !! "batch_size" = Some batch_size
    ∧ options_dict !! "n_buckets" = Some n_buckets
    ∧ options_dict !! "n_epochs" = Some epochs
    ∧ model_dir r
      = Py.path_join
          (Py.path_join
             (Py.path_join "models"
                (Py.path_tail data_dir +:+ "." +:+ train_tag))
             script)
          (substring 0 10
             (md5_hexdigest (repr_items (sorted_items options_dict))))
    ∧ n_epochs (call r) = epochs
    ∧ let train_fn :=
        Py.path_join data_dir ("train." +:+ train_tag +:+ ".npz") in
      let train := load_data_from_npz train_fn PyNone in
      loaded r
      = [train_fn;
         Py.path_join data_dir
           (if truthy use_test then "test.npz" else "val.npz")]
      ∧ train_batch_iterator (call r)
        = LabelledBucketIterator
            (trunc_and_limit_dim (d_x train) (d_lengths train) 13
               max_length).1
            train_y batch_size n_buckets true
      ∧ convert_labels (d_labels train) = Some train_y
      ∧ made_dirs r
        = (if isdir (model_dir r) then [] else [model_dir r]).
Proof.
  unfold Siamese.train_siamese. intros Hrun. invert_bind Hrun.
  injection Hrun as <-.
  repeat match goal with
  | E : <["n_input" := _]> _ !! _ = Some _ |- _ =>
      rewrite lookup_insert_ne in E by discriminate
  end.
  eexists _, _, _, _, _, _, _, _, _.
  do 8 (split; [first [eassumption | reflexivity]|]).
  split; [reflexivity|]. split; [reflexivity|].
  cbv zeta. split; [simpl; by destruct (truthy _)|].
  split; [|split; [first [eassumption | reflexivity] | reflexivity]].
  simpl. match goal with
  | E : trunc_and_limit_dim (d_x (load_data_from_npz
          (Py.path_join _ ("train." +:+ _)) PyNone)) _ _ _ = _ |- _ =>
      rewrite E
  end.
  reflexivity.
Qed.

(** X22: [train_siamese] returns exactly when the options hold strings under
    "data_dir", "train_tag" and "script" and a value under each of the
    other keys it reads; without one of them it raises (a [KeyError], or
    the error of a path function given something that is no string). The
    calls into the libraries are taken to return. *)
Theorem train_siamese_returns_iff_options
    (options_dict : gmap string pyval) :
  is_Some (train_siamese options_dict) ↔ complete options_dict.
Proof.
  split; [|apply train_siamese_complete].
  intros [r Hrun]. unfold Siamese.train_siamese in Hrun. invert_bind Hrun.
  match goal with
  | E : build_siamese_from_options_dict _ _ _ = Some _ |- _ =>
      unfold build_siamese_from_options_dict in E; invert_bind E
  end.
  repeat match goal with
  | E : <["n_input" := _]> _ !! _ = Some _ |- _ =>
      rewrite lookup_insert_ne in E by discriminate
  end.
  unfold complete, read_keys.
  split; [by eexists|]. split; [by eexists|]. split; [by eexists|].
  repeat (apply Forall_cons; split; [by eexists|]).
  apply Forall_nil_2.
Qed.

(** X23: [main] always gives [train_siamese] the options it needs, whatever the
    command line is, while the default options alone lack "script". The
    run loads the training file of the tag and the validation or the test
    file from the data directory of the command line, trains for the
    epochs and with the batch size of the command line, and puts the model
    under models/<last part of the data directory>.<tag>/train_siamese. *)
Theorem main_options_suffice (a : args) :
  train_siamese default_options_dict = None
  ∧ ∃ r train_x train_y,
      train_siamese (main_options a) = Some r
      ∧ loaded r
        = [Py.path_join (arg_data_dir a)
             ("train." +:+ arg_train_tag a +:+ ".npz");
           Py.path_join (arg_data_dir a)
             (if arg_use_test_for_val a then "test.npz" else "val.npz")]
      ∧ n_epochs (call r) = VInt (arg_n_epochs a)
      ∧ train_batch_iterator (call r)
        = LabelledBucketIterator train_x train_y (VInt (arg_batch_size a))
            (VInt 3) true
      ∧ model_dir r
        = Py.path_join
            (Py.path_join
               (Py.path_join "models"
                  (Py.path_tail (arg_data_dir a) +:+ "."
                   +:+ arg_train_tag a))
               "train_siamese")
            (substring 0 10
               (md5_hexdigest (repr_items (sorted_items (main_options a))))).
Proof.
  split; [reflexivity|].
  destruct a as [dd epochs size tag usefinal usetest seed].
  cbn [arg_data_dir arg_n_epochs arg_batch_size arg_train_tag
       arg_use_test_for_val].
  set (a := Args dd epochs size tag usefinal usetest seed).
  assert (Hc : complete (main_options a)).
  { unfold complete, read_keys, get_str.
    split; [by eexists|]. split; [by eexists|]. split; [by eexists|].
    repeat (apply Forall_cons; split; [by eexists|]).
    apply Forall_nil_2. }
  destruct (train_siamese_complete _ Hc) as [r Hrun].
  destruct (run_fields _ _ Hrun)
    as (d & t & s & ut & ml & ty & bs & nb & ne & Hd & Ht & Hs & Hut & Hml
        & Hbs & Hnb & Hne & Hdir & Hep & Hload & Hit & _).
  vm_compute in Hd. injection Hd as <-.
  vm_compute in Ht. injection Ht as <-.
  vm_compute in Hs. injection Hs as <-.
  vm_compute in Hut. injection Hut as <-.
  vm_compute in Hbs. injection Hbs as <-.
  vm_compute in Hnb. injection Hnb as <-.
  vm_compute in Hne. injection Hne as <-.
  eexists r, _, ty. split; [exact Hrun|].
  split; [rewrite Hload; by destruct usetest|].
  split; [exact Hep|]. split; [exact Hit | exact Hdir].
Qed.

End SiameseEdges.

(** ** The further theorems on the sample inputs *)

Section FurtherOnSamples.

Import Reference.

Lemma read_segments_without_retained_sample :
  Segments.read_segments Py.float_of_decimal Samples.silence_lines
  = Some [("", Py.Int (-1), Py.Int (-1))].
Proof.
  apply (read_segments_without_retained Py.float_of_decimal
           Samples.silence_lines
           [Segments.Token "s01-01a" 1.25 2 "SIL";
            Segments.Token "s01-01a" 2 2.5 "SPN"]).
  - vm_compute. reflexivity.
  - vm_compute. reflexivity.
Defined.

Lemma sample_segments_read :
  is_Some (Segments.read_segments Py.float_of_decimal Samples.fa_lines).
Proof. apply (bool_decide_unpack _). vm_compute. exact I. Defined.

Lemma read_segments_nonempty_sample :
  ∃ segs,
    Segments.read_segments Py.float_of_decimal Samples.fa_lines = Some segs
    ∧ segs ≠ [].
Proof.
  destruct sample_segments_read as [segs Hsegs]. exists segs.
  split; [exact Hsegs|].
  exact (read_segments_nonempty Py.float_of_decimal Samples.fa_lines segs
           Hsegs).
Defined.

Lemma segments_without_underscore_sample :
  ∃ segs,
    Segments.read_segments Py.float_of_decimal Samples.fa_lines = Some segs
    ∧ Forall (λ seg : Segments.segment, Segments.without "_" seg.1.1) segs.
Proof.
  destruct sample_segments_read as [segs Hsegs]. exists segs.
  split; [exact Hsegs|].
  exact (segments_without_underscore Py.float_of_decimal Samples.fa_lines
           segs Hsegs).
Defined.

Lemma lengths_key_of_feature_path_sample :
  Segments.hlist_entry Samples.hlist_line = Some ("s01-01a", 150).
Proof.
  apply (lengths_key_of_feature_path Samples.feat_dir "s01-01a" "150" 150
           ["---"] ["---"; ""; ""; "Num"; "Comps:"; "40"; ""; ""; "Num"]
           [""; ""; "File"; "Format:"; "HTK"] 0 2).
  - unfold Segments.without. apply (bool_decide_unpack _). vm_compute.
    exact I.
  - apply (bool_decide_unpack _). vm_compute. exact I.
  - apply (bool_decide_unpack _). vm_compute. exact I.
  - apply (bool_decide_unpack _). vm_compute. exact I.
  - discriminate.
  - vm_compute. reflexivity.
  - apply (bool_decide_unpack _). vm_compute. exact I.
  - exists "s"%char. split; [|discriminate].
    apply (bool_decide_unpack _). vm_compute. exact I.
Defined.

Lemma sample_lengths_read :
  is_Some (Segments.read_lengths ∅ ([] ++ Samples.hlist_line :: [""])).
Proof. apply (bool_decide_unpack _). vm_compute. exact I. Defined.

Lemma sample_lengths_read_twice :
  is_Some (Segments.read_lengths ∅
             ([Samples.hlist_line_before] ++ Samples.hlist_line :: [""])).
Proof. apply (bool_decide_unpack _). vm_compute. exact I. Defined.

Lemma lengths_from_last_line_sample :
  Segments.hlist_entry Samples.hlist_line_before = Some ("s01-01a", 100)
  ∧ ∃ result,
      Segments.read_lengths ∅
        ([Samples.hlist_line_before] ++ Samples.hlist_line :: [""])
      = Some result
      ∧ result !! "s01-01a" = Some 150.
Proof.
  split; [vm_compute; reflexivity|].
  destruct sample_lengths_read_twice as [result Hread]. exists result.
  split; [exact Hread|].
  apply (lengths_from_last_line [Samples.hlist_line_before] [""]
           Samples.hlist_line "s01-01a" 150 result Hread).
  - discriminate.
  - vm_compute. reflexivity.
  - constructor; [by right | constructor].
Defined.

Lemma lengths_only_from_lines_sample :
  ∃ result,
    Segments.read_lengths ∅ ([] ++ Samples.hlist_line :: [""]) = Some result
    ∧ result !! "s02-07b" = None.
Proof.
  destruct sample_lengths_read as [result Hread]. exists result.
  split; [exact Hread|].
  apply (lengths_only_from_lines ([] ++ Samples.hlist_line :: [""])
           "s02-07b" result Hread).
  constructor; [|constructor; [by right | constructor]].
  intros n. left. vm_compute. discriminate.
Defined.

Lemma main_only_adds_sample :
  let p : Links.path :=
    (false, [".."; "features"; "wordpairs"; "xitsonga";
             "xitsonga_utd_terms.mfcc.cmvn_dd.npz"]) in
  Links.files (Links.main Samples.features_in_place).1 !! p
  = Some Links.File
  ∧ ∃ new, Links.log (Links.main Samples.features_in_place).1
           = Links.log Samples.features_in_place ++ new.
Proof.
  apply (main_only_adds Samples.features_in_place).
  vm_compute. reflexivity.
Defined.

Lemma main_leaves_directory_and_links_sample :
  let w1 := (Links.main Samples.bare).1 in
  Links.isdir w1 Links.output_dir = true
  ∧ Links.lexists w1 Links.train_link = true
  ∧ Links.lexists w1 Links.test_link = true.
Proof.
  apply (main_leaves_directory_and_links Samples.bare
           (Links.main Samples.bare).1).
  assert (Hok : (Links.main Samples.bare).2 = None)
    by (vm_compute; reflexivity).
  rewrite <- Hok. by destruct (Links.main Samples.bare).
Defined.

Lemma main_raises_on_existing_link_sample :
  Links.main Samples.dangling
  = (Links.print Samples.dangling
       ("Linking: " +:+ Links.train_npz +:+ " to " +:+ Links.train_link),
     Some Links.EEXIST).
Proof.
  apply (main_raises_on_existing_link Samples.dangling).
  - vm_compute. reflexivity.
  - vm_compute. reflexivity.
  - vm_compute. reflexivity.
Defined.

Lemma second_run_raises_on_dangling_link_sample :
  (Links.main (Links.main Samples.bare).1).2 = Some Links.EEXIST.
Proof.
  apply (second_run_raises_on_dangling_link Samples.bare
           (Links.main Samples.bare).1).
  - assert (Hok : (Links.main Samples.bare).2 = None)
      by (vm_compute; reflexivity).
    rewrite <- Hok. by destruct (Links.main Samples.bare).
  - left. vm_compute. reflexivity.
Defined.

Lemma np_rnn_raises_on_long_sequence_sample :
  np_rnn Samples.batch Samples.batch_lengths Samples.W_encoder
    Samples.b_encoder (Some 1) = None.
Proof.
  apply (np_rnn_raises_on_long_sequence Samples.batch Samples.batch_lengths
           Samples.W_encoder Samples.b_encoder (Some 1) 1 0
           [[1]; [2]; [3]] 2).
  - reflexivity.
  - simpl. lia.
  - reflexivity.
  - reflexivity.
  - simpl. lia.
Defined.

Lemma np_rnn_states_then_zeros_sample :
  ∃ out,
    np_rnn Samples.batch Samples.batch_lengths Samples.W_encoder
      Samples.b_encoder (Some 3) = Some out
    ∧ a_shape out = (2, 3, 2)%nat
    ∧ ∃ rows, a_data out !! 1%nat = Some rows
        ∧ rows !! 1%nat = Some [0; 0] ∧ rows !! 2%nat = Some [0; 0].
Proof.
  destruct (np_rnn_states_then_zeros Samples.batch Samples.batch_lengths
              Samples.W_encoder Samples.b_encoder (Some 3) 2 3 1 2 3)
    as (out & Hrun & Hshape & _ & Hrows).
  - reflexivity.
  - split; [reflexivity|]. repeat constructor.
  - reflexivity.
  - split; [reflexivity|]. repeat constructor.
  - reflexivity.
  - reflexivity.
  - reflexivity.
  - reflexivity.
  - lia.
  - intros [|[|i]] xi l Hxi Hl; [| |discriminate Hxi];
      injection Hxi as <-; injection Hl as <-; simpl; lia.
  - exists out. split; [exact Hrun|]. split; [exact Hshape|].
    destruct (Hrows 1%nat [[4]; [0]; [0]] 1 eq_refl eq_refl)
      as (rows & Hr & _ & _ & Hz).
    exists rows. split; [exact Hr|].
    split; apply Hz; simpl; lia.
Defined.

Lemma np_rnn_default_maxlength_fits_sample :
  ∃ out,
    np_rnn Samples.batch Samples.batch_lengths Samples.W_encoder
      Samples.b_encoder None = Some out
    ∧ a_shape out = (2, 2, 2)%nat.
Proof.
  destruct (np_rnn_default_maxlength_fits Samples.batch
              Samples.batch_lengths Samples.W_encoder Samples.b_encoder
              2 3 1 2)
    as (out & m & Hm & _ & Hrun & Hshape).
  - reflexivity.
  - split; [reflexivity|]. repeat constructor.
  - reflexivity.
  - lia.
  - split; [reflexivity|]. repeat constructor.
  - reflexivity.
  - reflexivity.
  - reflexivity.
  - repeat constructor; lia.
  - exists out. split; [exact Hrun|].
    injection Hm as <-. exact Hshape.
Defined.

Lemma np_multi_rnn_masked_sample :
  ∃ out,
    np_multi_rnn Samples.batch Samples.batch_lengths
      (zip Samples.weights Samples.biases) (Some 3) = Some out
    ∧ a_shape out = (2, 3, 1)%nat
    ∧ ∃ rows, a_data out !! 1%nat = Some rows
        ∧ rows !! 1%nat = Some [0] ∧ rows !! 2%nat = Some [0].
Proof.
  destruct (np_multi_rnn_masked Samples.batch Samples.batch_lengths
              Samples.weights Samples.biases (Some 3) 2 3 1 3)
    as (out & Hrun & Hshape & Hrows).
  - reflexivity.
  - split; [reflexivity|]. repeat constructor.
  - reflexivity.
  - discriminate.
  - simpl. repeat split; repeat constructor.
  - reflexivity.
  - lia.
  - repeat constructor; lia.
  - exists out. split; [exact Hrun|]. split; [exact Hshape|].
    destruct (Hrows 1%nat 1 eq_refl) as (rows & Hr & _ & Hz).
    exists rows. split; [exact Hr|].
    split; apply Hz; simpl; lia.
Defined.

Lemma encdec_list_is_unpadded_output_sample :
  ∃ encoder_states decoder_output decoder_output_list,
    np_encdec_lazydynamic Samples.batch Samples.batch_lengths
      Samples.W_encoder Samples.b_encoder Samples.W_decoder Samples.b_decoder
      Samples.W_output Samples.b_output (Some 3)
    = Some (encoder_states, decoder_output, decoder_output_list)
    ∧ length decoder_output_list = 2%nat
    ∧ ∃ rows cur,
        a_data decoder_output !! 0%nat = Some rows
        ∧ decoder_output_list !! 0%nat = Some cur
        ∧ cur = take 2 rows.
Proof.
  destruct (encdec_list_is_unpadded_output Samples.batch
              Samples.batch_lengths Samples.W_encoder Samples.b_encoder
              Samples.W_decoder Samples.b_decoder Samples.W_output
              Samples.b_output (Some 3) 2 3 1 2 1 3)
    as (es & dout & dl & Hrun & _ & _ & Hlen & Hrows).
  - reflexivity.
  - split; [reflexivity|]. repeat constructor.
  - reflexivity.
  - lia.
  - split; [reflexivity|]. repeat constructor.
  - reflexivity.
  - reflexivity.
  - reflexivity.
  - lia.
  - split; [reflexivity|]. repeat constructor.
  - reflexivity.
  - reflexivity.
  - reflexivity.
  - split; [reflexivity|]. repeat constructor.
  - reflexivity.
  - reflexivity.
  - reflexivity.
  - reflexivity.
  - repeat constructor; lia.
  - exists es, dout, dl. split; [exact Hrun|]. split; [exact Hlen|].
    destruct (Hrows 0%nat 2 eq_refl) as (rows & cur & Hr & Hc & Heq & _).
    exists rows, cur. split; [exact Hr|]. split; [exact Hc | exact Heq].
Defined.

Lemma np_vq_rows_of_codebook_sample :
  ∃ z_q,
    np_vq Samples.vq_data Samples.vq_embeds = Some z_q
    ∧ length z_q = 3%nat
    ∧ Forall (λ z, z ∈ Samples.vq_embeds) z_q.
Proof.
  destruct (np_vq_rows_of_codebook Samples.vq_data Samples.vq_embeds 2)
    as [Hsome _].
  - repeat constructor.
  - repeat constructor.
  - apply Hsome. discriminate.
Defined.

Lemma np_vq_raises_on_dimension_mismatch_sample :
  np_vq Samples.vq_data ([1; 2; 3] :: Samples.vq_embeds) = None.
Proof.
  apply (np_vq_raises_on_dimension_mismatch Samples.vq_data
           ([1; 2; 3] :: Samples.vq_embeds) [5; 5] [1; 2; 3]).
  - right. left.
  - left.
  - simpl. lia.
  - simpl. lia.
  - simpl. lia.
Defined.

End FurtherOnSamples.

